(** * Intent apparatus: command interpretation, dispatch and history

    A shallow embedding of [intent_parser.py] (the rule table, [parse_command]
    and [_extract_parameters]), of [app.py] ([process_command],
    [_execute_action], the execution history) and of the [scroll] methods of
    [automation_engine.py] and [mock_automation.py].

    Text.  A Python [str] is modelled by a Rocq [string] whose characters are
    the code points 0..255.  On that range the character predicates used by
    [str.lower], [str.strip] and by the classes [\s], [\d], [\w] of [re] are
    written out below exactly as CPython defines them.  Labels that the source
    decorates with symbols outside that range (the status marks) are modelled
    by enumerations.

    Exceptions.  Python code that can raise returns a [result]; the [try] of
    [_extract_parameters] is a [match] on the result of its body, the [try] of
    [_execute_action] is [except_Exception], which takes the instances of
    [Exception] and lets the other instances of [BaseException] through.

    Effects.  The methods of the application thread an [IntentApparatus]:
    the state of the desktop the engine acts on, the execution history, and
    a trace of the calls made, which the properties speak about. *)

From Stdlib Require Import Bool Arith NArith ZArith QArith List Lia.
From Stdlib Require Import Ascii String DecimalString.
Import ListNotations.
Close Scope Q_scope.
Open Scope string_scope.

Set Implicit Arguments.

(* ================================================================== *)
(** ** Characters and the [str] methods used by the interpreter *)

Module Char.

Definition code (c : ascii) : N := N_of_ascii c.

Definition between (lo hi : N) (c : ascii) : bool :=
  ((lo <=? code c) && (code c <=? hi))%N.

Definition has_code (n : N) (c : ascii) : bool := (code c =? n)%N.

(** [Py_UNICODE_ISSPACE]: what [str.strip()] removes and what [\s]
    matches. *)
Definition isspace (c : ascii) : bool :=
  between 9 13 c || between 28 32 c || has_code 133 c || has_code 160 c.

(** [Py_UNICODE_ISDECIMAL]: what [\d] matches. *)
Definition isdecimal (c : ascii) : bool := between 48 57 c.

(** Letters that [str.lower()] changes: A-Z and the upper-case letters of
    the Latin-1 supplement (U+00C0..U+00DE without the multiplication
    sign). *)
Definition isupper (c : ascii) : bool :=
  between 65 90 c || between 192 214 c || between 216 222 c.

Definition lower (c : ascii) : ascii :=
  if isupper c then ascii_of_N (code c + 32) else c.

(** [Py_UNICODE_ISALNUM]: letters, decimal digits, and the digit-like and
    numeric signs (superscripts one to three, the vulgar fractions). *)
Definition isalnum (c : ascii) : bool :=
  between 48 57 c || between 65 90 c || between 97 122 c
  || has_code 170 c || has_code 178 c || has_code 179 c || has_code 181 c || has_code 185 c || has_code 186 c
  || between 188 190 c
  || between 192 214 c || between 216 246 c || between 248 255 c.

(** What [\w] matches. *)
Definition isword (c : ascii) : bool := isalnum c || has_code 95 c.

End Char.

(** [str.lower()] *)
Fixpoint lower (s : string) : string :=
  match s with
  | EmptyString => EmptyString
  | String c s' => String (Char.lower c) (lower s')
  end.

Fixpoint lstrip (s : string) : string :=
  match s with
  | EmptyString => EmptyString
  | String c s' => if Char.isspace c then lstrip s' else s
  end.

Fixpoint rstrip (s : string) : string :=
  match s with
  | EmptyString => EmptyString
  | String c s' =>
      match rstrip s' with
      | EmptyString => if Char.isspace c then EmptyString else String c EmptyString
      | t => String c t
      end
  end.

(** [str.strip()] *)
Definition strip (s : string) : string := rstrip (lstrip s).

(** Every character of [s] satisfies [p]. *)
Fixpoint all_chars (p : ascii -> bool) (s : string) : bool :=
  match s with
  | EmptyString => true
  | String c s' => p c && all_chars p s'
  end.

(* ================================================================== *)
(** ** Results of code that may raise *)

Inductive result (E A : Type) : Type :=
| Return (a : A)
| Raise (e : E).
Arguments Return {E A} a.
Arguments Raise {E A} e.

Definition bind {E A B : Type} (m : result E A) (f : A -> result E B)
  : result E B :=
  match m with
  | Return a => f a
  | Raise e => Raise e
  end.

Notation "'let*' x ':=' m 'in' k" := (bind m (fun x => k))
  (at level 10, x name, m at level 100, k at level 200).

(** The exception classes the interpreter's own expressions can raise.  Their
    text only reaches the log, which is not modelled. *)
Inductive exn : Type := ValueError | IndexError | TypeError | AttributeError.

(* ================================================================== *)
(** ** Python values held in a parameter dictionary *)

Inductive pyval : Type :=
| VNone
| VInt (n : Z)
| VStr (s : string)
| VList (l : list string).

(** A [dict] with string keys, in insertion order; a lookup finds the first
    binding of the key. *)
Definition dict : Type := list (string * pyval).

Fixpoint dict_find (k : string) (d : dict) : option pyval :=
  match d with
  | [] => None
  | (k', v) :: d' => if String.eqb k k' then Some v else dict_find k d'
  end.

(** [d.get(k, default)] *)
Definition get (d : dict) (k : string) (default : pyval) : pyval :=
  match dict_find k d with Some v => v | None => default end.

(** [k in d] *)
Definition contains (d : dict) (k : string) : bool :=
  match dict_find k d with Some _ => true | None => false end.

(* ================================================================== *)
(** ** [int] on a captured run of digits *)

(** [sys.int_info.default_max_str_digits] *)
Definition int_max_str_digits : nat := 4300.

Definition digit_value (c : ascii) : Z := (Z.of_N (Char.code c) - 48)%Z.

Fixpoint decimal_value (acc : Z) (s : string) : Z :=
  match s with
  | EmptyString => acc
  | String c s' => decimal_value (10 * acc + digit_value c)%Z s'
  end.

(** [int(s)] for a string: a non-empty run of decimal digits converts to its
    value unless it has more than [int_max_str_digits] digits, in which case
    [int] raises [ValueError].  Only such runs, captured by [(\d+)], reach
    [int] from the rule table (lemma [int_arguments_are_digit_runs]); the
    signs, blanks and underscores that [int] also reads are left out, and
    other text is answered with [ValueError]. *)
Definition int_of_str (s : string) : result exn Z :=
  match s with
  | EmptyString => Raise ValueError
  | _ =>
      if negb (all_chars Char.isdecimal s) then Raise ValueError
      else if Nat.ltb int_max_str_digits (String.length s) then Raise ValueError
      else Return (decimal_value 0 s)
  end.
Arguments int_of_str : simpl never.

(** [int(v)] where [v] is what [match.group] gave: [int(None)] raises
    [TypeError]. *)
Definition int (v : option string) : result exn Z :=
  match v with
  | None => Raise TypeError
  | Some s => int_of_str s
  end.

(* ================================================================== *)
(** ** The fragment of [re] the rule table uses

    Patterns are kept as syntax trees.  Matching is the backtracking search of
    [re]: alternatives are tried left to right, [?], [+] and [*] are greedy,
    and the first way to complete the whole pattern wins.  All patterns are
    applied with [re.IGNORECASE], which is built into the comparison of
    literal characters. *)

Module re.

(** Sets of characters: [\s], [\d], [\w], [[...]] and [[^...]]. *)
Inductive cset : Type :=
| Space
| Digit
| Word
| AnyOf (cs : string)
| NoneOf (cs : string).

Fixpoint occurs (a : ascii) (cs : string) : bool :=
  match cs with
  | EmptyString => false
  | String c cs' => Ascii.eqb a c || occurs a cs'
  end.

Definition member (cl : cset) (a : ascii) : bool :=
  match cl with
  | Space => Char.isspace a
  | Digit => Char.isdecimal a
  | Word => Char.isword a
  | AnyOf cs => occurs a cs
  | NoneOf cs => negb (occurs a cs)
  end.

(** The two capture groups a pattern of the table can have. *)
Inductive gid : Type := G1 | G2.

Inductive regex : Type :=
| Lit (p : string)            (* literal text *)
| One (cl : cset)             (* one character of a set *)
| Plus (cl : cset)            (* [cl+] *)
| Star (cl : cset)            (* [cl*] *)
| Seq (r1 r2 : regex)
| Alt (r1 r2 : regex)         (* [r1|r2] *)
| Opt (r : regex)             (* [(?:r)?] *)
| Group (g : gid) (r : regex) (* [(r)] *).

(** Number of capture groups of a pattern. *)
Fixpoint ngroups (r : regex) : nat :=
  match r with
  | Lit _ | One _ | Plus _ | Star _ => 0
  | Seq r1 r2 | Alt r1 r2 => ngroups r1 + ngroups r2
  | Opt r => ngroups r
  | Group _ r => S (ngroups r)
  end.

(** A span of the subject: the text from where a group starts, and the
    text from where it ends (a suffix of the former). *)
Definition span : Type := (string * string)%type.

(** What the groups hold while a match is being built: [None] is a group
    that has not taken part. *)
Record captures : Type := { cap1 : option span; cap2 : option span }.

Definition no_captures : captures := {| cap1 := None; cap2 := None |}.

Definition set_capture (g : gid) (sp : span) (c : captures) : captures :=
  match g with
  | G1 => {| cap1 := Some sp; cap2 := cap2 c |}
  | G2 => {| cap1 := cap1 c; cap2 := Some sp |}
  end.

Definition capture (g : gid) (c : captures) : option span :=
  match g with G1 => cap1 c | G2 => cap2 c end.

(** The text between the start [s] of a span and what is left, [s']. *)
Definition consumed (sp : span) : string :=
  substring 0 (String.length (fst sp) - String.length (snd sp)) (fst sp).

(** Literal text at the head of [s], letter case ignored; gives the rest. *)
Fixpoint lit (p s : string) : option string :=
  match p with
  | EmptyString => Some s
  | String c p' =>
      match s with
      | EmptyString => None
      | String a s' =>
          if Ascii.eqb (Char.lower a) (Char.lower c) then lit p' s' else None
      end
  end.

(** Greedy [cl*] followed by the rest of the pattern [k]: the longest run
    first, then shorter ones. *)
Fixpoint star {A : Type} (cl : cset) (s : string) (k : string -> option A)
  : option A :=
  match s with
  | EmptyString => k s
  | String a s' =>
      if member cl a
      then match star cl s' k with
           | Some x => Some x
           | None => k s
           end
      else k s
  end.

(** [run r s c k]: match [r] at the head of [s] with captures [c], then
    continue with [k] on the rest; [None] when every way fails. *)
Fixpoint run {A : Type} (r : regex) (s : string) (c : captures)
         (k : string -> captures -> option A) : option A :=
  match r with
  | Lit p =>
      match lit p s with
      | Some s' => k s' c
      | None => None
      end
  | One cl =>
      match s with
      | String a s' => if member cl a then k s' c else None
      | EmptyString => None
      end
  | Plus cl =>
      match s with
      | String a s' =>
          if member cl a then star cl s' (fun s'' => k s'' c) else None
      | EmptyString => None
      end
  | Star cl => star cl s (fun s'' => k s'' c)
  | Seq r1 r2 => run r1 s c (fun s' c' => run r2 s' c' k)
  | Alt r1 r2 =>
      match run r1 s c k with
      | Some x => Some x
      | None => run r2 s c k
      end
  | Opt r1 =>
      match run r1 s c k with
      | Some x => Some x
      | None => k s c
      end
  | Group g r1 =>
      run r1 s c (fun s' c' => k s' (set_capture g (s, s') c'))
  end.

(** A match object. *)
Record Match : Type := {
  groups_count : nat;
  whole : span;
  caps : captures
}.

(** The pattern anchored at the head of [s]. *)
Definition match_here (r : regex) (s : string) : option Match :=
  run r s no_captures
      (fun s' c => Some {| groups_count := ngroups r;
                           whole := (s, s');
                           caps := c |}).

(** [re.search(r, s, re.IGNORECASE)]: the first start position, from the
    left, at which the pattern matches. *)
Fixpoint search (r : regex) (s : string) : option Match :=
  match match_here r s with
  | Some m => Some m
  | None =>
      match s with
      | EmptyString => None
      | String _ s' => search r s'
      end
  end.

(** [m.group(n)]: [None] for a group that took no part, [IndexError] for a
    group the pattern does not have. *)
Definition group (m : Match) (n : nat) : result exn (option string) :=
  if Nat.ltb (groups_count m) n then Raise IndexError
  else match n with
       | 0 => Return (Some (consumed (whole m)))
       | 1 => Return (option_map consumed (cap1 (caps m)))
       | _ => Return (option_map consumed (cap2 (caps m)))
       end.

End re.

Declare Scope regex_scope.
Delimit Scope regex_scope with re.
Bind Scope regex_scope with re.regex.
Infix ";;" := re.Seq (at level 61, right associativity) : regex_scope.

(* ================================================================== *)
(** ** [intent_parser.py] *)

Record ActionResult : Type := {
  success : bool;
  message : string;
  result_action_type : string
}.

Record ParsedIntent : Type := {
  action_type : string;
  parameters : dict;
  confidence : Q;
  raw_command : string
}.

Section Patterns.
Import re.
Local Open Scope regex_scope.

(** The tail shared by the click and move patterns:
    [(?:position\s+)?(?:\()?(\d+)(?:\s*,\s*|\s+)(\d+)(?:\))?] *)
Definition two_numbers : regex :=
  Opt (Lit "position" ;; Plus Space) ;;
  Opt (Lit "(") ;;
  Group G1 (Plus Digit) ;;
  Alt (Star Space ;; Lit "," ;; Star Space) (Plus Space) ;;
  Group G2 (Plus Digit) ;;
  Opt (Lit ")").

(** The two quote characters, double and single. *)
Definition quotes : string := String "034"%char (String "039"%char EmptyString).

(** A quote, a run of characters other than quotes (group 1), a quote. *)
Definition quoted : regex :=
  One (AnyOf quotes) ;; Group G1 (Plus (NoneOf quotes)) ;; One (AnyOf quotes).

Definition right_click_pattern : regex :=
  Lit "right" ;; Plus Space ;; Lit "click" ;; Plus Space ;;
  Opt (Lit "at" ;; Plus Space) ;; two_numbers.

Definition double_click_pattern : regex :=
  Lit "double" ;; Plus Space ;; Lit "click" ;; Plus Space ;;
  Opt (Lit "at" ;; Plus Space) ;; two_numbers.

Definition click_pattern : regex :=
  Opt (Lit "left" ;; Plus Space) ;; Lit "click" ;; Plus Space ;;
  Opt (Lit "at" ;; Plus Space) ;; two_numbers.

Definition click_patterns : list (regex * string) :=
  [ (right_click_pattern, "right_coordinates");
    (double_click_pattern, "double_coordinates");
    (click_pattern, "coordinates") ].

Definition type_patterns : list (regex * string) :=
  [ (Lit "type" ;; Plus Space ;; quoted, "text");
    (Lit "write" ;; Plus Space ;; quoted, "text");
    (Lit "enter" ;; Plus Space ;; quoted, "text");
    (Lit "input" ;; Plus Space ;; quoted, "text") ].

Definition press_key_pattern : regex :=
  Lit "press" ;; Plus Space ;; Opt (Lit "the" ;; Plus Space) ;;
  Group G1 (Plus Word) ;; Opt (Plus Space ;; Lit "key").

Definition hit_key_pattern : regex :=
  Lit "hit" ;; Plus Space ;; Opt (Lit "the" ;; Plus Space) ;;
  Group G1 (Plus Word) ;; Opt (Plus Space ;; Lit "key").

Definition press_combo_pattern : regex :=
  Lit "press" ;; Plus Space ;; Group G1 (Plus Word) ;; Star Space ;;
  Lit "+" ;; Star Space ;; Group G2 (Plus Word).

Definition combo_pattern : regex :=
  Group G1 (Plus Word) ;; Star Space ;; Lit "+" ;; Star Space ;;
  Group G2 (Plus Word).

Definition key_patterns : list (regex * string) :=
  [ (press_key_pattern, "single_key");
    (hit_key_pattern, "single_key");
    (press_combo_pattern, "key_combo");
    (combo_pattern, "key_combo") ].

(** [up|down] *)
Definition up_or_down : regex := Alt (Lit "up") (Lit "down").

Definition scroll_direction_pattern : regex :=
  Lit "scroll" ;; Plus Space ;; Group G1 up_or_down ;;
  Opt (Plus Space ;; Group G2 (Plus Digit)).

Definition scroll_count_pattern : regex :=
  Lit "scroll" ;; Plus Space ;; Group G1 (Plus Digit) ;; Plus Space ;;
  Lit "time" ;; Opt (Lit "s") ;; Plus Space ;; Group G2 up_or_down.

Definition scroll_patterns : list (regex * string) :=
  [ (scroll_direction_pattern, "direction");
    (scroll_count_pattern, "direction_count") ].

Definition move_patterns : list (regex * string) :=
  [ (Lit "move" ;; Plus Space ;; Opt (Lit "mouse" ;; Plus Space) ;;
     Opt (Lit "to" ;; Plus Space) ;; two_numbers, "coordinates");
    (Lit "move" ;; Plus Space ;; Opt (Lit "cursor" ;; Plus Space) ;;
     Opt (Lit "to" ;; Plus Space) ;; two_numbers, "coordinates") ].

Definition screenshot_patterns : list (regex * string) :=
  [ (Lit "take" ;; Plus Space ;; Opt (Lit "a" ;; Plus Space) ;;
     Lit "screenshot", "simple");
    (Lit "capture" ;; Plus Space ;; Lit "screen", "simple");
    (Lit "screenshot", "simple") ].

(** The rule table, a [dict] in insertion order. *)
Definition _initialize_patterns : list (string * list (regex * string)) :=
  [ ("click", click_patterns);
    ("type", type_patterns);
    ("key", key_patterns);
    ("scroll", scroll_patterns);
    ("move", move_patterns);
    ("screenshot", screenshot_patterns) ].

End Patterns.

(** [mapping.get(key, key)] on a table of synonyms. *)
Fixpoint synonym (mapping : list (string * string)) (key : string) : string :=
  match mapping with
  | [] => key
  | (k, v) :: rest => if String.eqb key k then v else synonym rest key
  end.

(** The [key_mapping] of the [single_key] branch. *)
Definition key_mapping : list (string * string) :=
  [ ("enter", "enter"); ("return", "enter");
    ("space", "space"); ("spacebar", "space");
    ("tab", "tab");
    ("escape", "esc"); ("esc", "esc");
    ("delete", "delete"); ("backspace", "backspace");
    ("ctrl", "ctrl"); ("alt", "alt"); ("shift", "shift");
    ("windows", "winleft"); ("win", "winleft");
    ("cmd", "cmd");
    ("f1", "f1"); ("f2", "f2"); ("f3", "f3"); ("f4", "f4");
    ("f5", "f5"); ("f6", "f6"); ("f7", "f7"); ("f8", "f8");
    ("f9", "f9"); ("f10", "f10"); ("f11", "f11"); ("f12", "f12");
    ("up", "up"); ("down", "down"); ("left", "left"); ("right", "right");
    ("home", "home"); ("end", "end");
    ("pageup", "pageup"); ("pagedown", "pagedown") ].

(** The [key_mapping] of the [key_combo] branch. *)
Definition combo_key_mapping : list (string * string) :=
  [ ("ctrl", "ctrl"); ("control", "ctrl");
    ("alt", "alt");
    ("shift", "shift");
    ("cmd", "cmd"); ("command", "cmd");
    ("win", "winleft"); ("windows", "winleft") ].

(** [v.lower()] on what [match.group] gave: [None] has no such method. *)
Definition lower_of (v : option string) : result exn string :=
  match v with
  | Some s => Return (lower s)
  | None => Raise AttributeError
  end.

(** A captured group as a dictionary value. *)
Definition value_of (v : option string) : pyval :=
  match v with
  | Some s => VStr s
  | None => VNone
  end.

(** Truth value of what [match.group] gave. *)
Definition truthy (v : option string) : bool :=
  match v with
  | Some (String _ _) => true
  | _ => false
  end.

(** The body of the [try] of [_extract_parameters]. *)
Definition extract_body (m : re.Match) (pattern_type : string)
  : result exn (option dict) :=
  if pattern_type =? "coordinates" then
    let* g1 := re.group m 1 in
    let* x := int g1 in
    let* g2 := re.group m 2 in
    let* y := int g2 in
    Return (Some [("x", VInt x); ("y", VInt y); ("button", VStr "left")])
  else if pattern_type =? "right_coordinates" then
    let* g1 := re.group m 1 in
    let* x := int g1 in
    let* g2 := re.group m 2 in
    let* y := int g2 in
    Return (Some [("x", VInt x); ("y", VInt y); ("button", VStr "right")])
  else if pattern_type =? "double_coordinates" then
    let* g1 := re.group m 1 in
    let* x := int g1 in
    let* g2 := re.group m 2 in
    let* y := int g2 in
    Return (Some [("x", VInt x); ("y", VInt y); ("button", VStr "left");
                  ("clicks", VInt 2)])
  else if pattern_type =? "text" then
    let* g1 := re.group m 1 in
    Return (Some [("text", value_of g1)])
  else if pattern_type =? "single_key" then
    let* g1 := re.group m 1 in
    let* key := lower_of g1 in
    Return (Some [("key", VStr (synonym key_mapping key))])
  else if pattern_type =? "key_combo" then
    let* g1 := re.group m 1 in
    let* key1 := lower_of g1 in
    let* g2 := re.group m 2 in
    let* key2 := lower_of g2 in
    Return (Some [("keys", VList [synonym combo_key_mapping key1;
                                  synonym combo_key_mapping key2])])
  else if pattern_type =? "direction" then
    let* direction := re.group m 1 in
    let* g2 := re.group m 2 in
    let* clicks := (if truthy g2
                    then let* g2' := re.group m 2 in int g2'
                    else Return 3%Z) in
    Return (Some [("direction", value_of direction); ("clicks", VInt clicks)])
  else if pattern_type =? "direction_count" then
    let* g1 := re.group m 1 in
    let* clicks := int g1 in
    let* direction := re.group m 2 in
    Return (Some [("direction", value_of direction); ("clicks", VInt clicks)])
  else if pattern_type =? "simple" then
    Return (Some [])
  else
    Return None.

(** [_extract_parameters]: [except (ValueError, IndexError)] turns those two
    into [None]; anything else raised in the body goes to the caller. *)
Definition _extract_parameters (m : re.Match) (pattern_type action_type : string)
  : result exn (option dict) :=
  match extract_body m pattern_type with
  | Raise ValueError => Return None
  | Raise IndexError => Return None
  | r => r
  end.

(** The inner [for] of [parse_command]: the patterns of one action type. *)
Fixpoint for_patterns (action_type : string)
         (patterns : list (re.regex * string)) (command : string)
  : result exn (option ParsedIntent) :=
  match patterns with
  | [] => Return None
  | (pattern, pattern_type) :: rest =>
      match re.search pattern command with
      | Some m =>
          let* parameters := _extract_parameters m pattern_type action_type in
          match parameters with
          | Some p =>
              Return (Some {| action_type := action_type;
                              parameters := p;
                              confidence := 8 # 10;
                              raw_command := command |})
          | None => for_patterns action_type rest command
          end
      | None => for_patterns action_type rest command
      end
  end.

(** The outer [for] of [parse_command]: the action types of the table. *)
Fixpoint for_action_types (table : list (string * list (re.regex * string)))
         (command : string) : result exn (option ParsedIntent) :=
  match table with
  | [] => Return None
  | (action_type, patterns) :: rest =>
      let* found := for_patterns action_type patterns command in
      match found with
      | Some intent => Return (Some intent)
      | None => for_action_types rest command
      end
  end.

Definition parse_command (command : string) : result exn (option ParsedIntent) :=
  let command := strip (lower command) in
  match command with
  | EmptyString => Return None
  | _ => for_action_types _initialize_patterns command
  end.


(* ================================================================== *)
(** ** The [scroll] methods of the two engines

    Arguments have the types of the methods' annotations. *)

(** [str(n)] for an [int] (of at most 4300 digits; beyond that [str]
    raises [ValueError], and no such [int] comes out of the interpreter). *)
Definition str_of_int (n : Z) : string :=
  DecimalString.NilZero.string_of_int (Z.to_int n).

Module MockAutomationEngine.

(** [direction.lower() not in ['up', 'down']] *)
Definition invalid_direction (direction : string) : bool :=
  negb ((lower direction =? "up") || (lower direction =? "down")).

Definition invalid_direction_result (direction : string) : ActionResult :=
  {| success := false;
     message := "Invalid scroll direction: " ++ direction;
     result_action_type := "scroll" |}.

Definition scroll (direction : string) (clicks : Z) : ActionResult :=
  if invalid_direction direction
  then invalid_direction_result direction
  else {| success := true;
          message := "[SIMULATED] Scrolled " ++ direction ++ " "
                     ++ str_of_int clicks ++ " clicks";
          result_action_type := "scroll" |}.

End MockAutomationEngine.

Module AutomationEngine.
Section Scroll.
(** The state of the desktop, and [pyautogui.scroll], which may raise an
    exception with some text. *)
Variable W : Type.
Variable pyautogui_scroll : Z -> W -> W * result string unit.

Definition invalid_direction_result (direction : string) : ActionResult :=
  {| success := false;
     message := "Invalid scroll direction: " ++ direction;
     result_action_type := "scroll" |}.

(** What follows the call of [pyautogui.scroll]: the success result, or
    the result of the [except] branch. *)
Definition scrolled (direction : string) (clicks : Z)
           (r : W * result string unit) : W * ActionResult :=
  match r with
  | (w, Return _) =>
      (w, {| success := true;
             message := "Scrolled " ++ direction ++ " "
                        ++ str_of_int clicks ++ " clicks";
             result_action_type := "scroll" |})
  | (w, Raise e) =>
      (w, {| success := false;
             message := "Failed to scroll: " ++ e;
             result_action_type := "scroll" |})
  end.

Definition scroll (direction : string) (clicks : Z) (w : W)
  : W * ActionResult :=
  if lower direction =? "up" then
    scrolled direction clicks (pyautogui_scroll clicks w)
  else if lower direction =? "down" then
    scrolled direction clicks (pyautogui_scroll (- clicks)%Z w)
  else (w, invalid_direction_result direction).

End Scroll.
End AutomationEngine.

(* ================================================================== *)
(** ** [app.py]: the dispatcher and the execution history *)

(** What the application asks of its surroundings, in the order asked. *)
Inductive event : Type :=
| click_at_position_call (x y button : pyval)
| type_text_call (text : pyval)
| press_key_call (key : pyval)
| key_combination_call (keys : pyval)
| scroll_call (direction clicks : pyval)
| move_mouse_call (x y : pyval)
| take_screenshot_call
| sleep (seconds : Q).

(** The labels of the first component of a response:
    [StatusSuccess] is the success label, [StatusError] the error label,
    [StatusUnableToParse] the label of an input no rule understands. *)
Inductive status_label : Type :=
| StatusSuccess
| StatusError
| StatusUnableToParse.

(** The second component of a response: the fixed request to enter a
    command, the text built around a command that was not understood (its
    examples are a constant), or the message of a result. *)
Inductive response_message : Type :=
| PleaseEnterACommand
| CouldNotUnderstand (command : string)
| ResultMessage (m : string).

Definition response : Type := (status_label * response_message * option string)%type.

(** What a call of the surroundings raises is an instance of
    [BaseException].  [except Exception] takes the instances of [Exception]
    and lets the others through: [KeyboardInterrupt], [SystemExit] and
    [GeneratorExit].  Of an [Exception] only the text [str(e)] matters. *)
Inductive BaseException : Type :=
| Exception (text : string)
| KeyboardInterrupt
| SystemExit
| GeneratorExit.

(** A type [E] of raised values comes with [exception_text]: the text
    [str(e)] when [e] is an instance of [Exception], [None] when it is
    not. *)
Class Raised (E : Type) : Type := exception_text : E -> option string.

#[global] Instance BaseException_raised : Raised BaseException :=
  fun e =>
    match e with
    | Exception text => Some text
    | KeyboardInterrupt | SystemExit | GeneratorExit => None
    end.

(** Where nothing but instances of [Exception] is raised, a raised value is
    given by its text. *)
#[global] Instance string_raised : Raised string := fun text => Some text.

(** What [process_command] itself can let through: an exception of the
    interpreter, or what an engine call raised. *)
Inductive errorOf (E : Type) : Type :=
| InterpreterError (e : exn)
| EngineError (e : E).
Arguments InterpreterError {E} e.
Arguments EngineError {E} e.

Abbreviation error := (errorOf string).

(** The automation engine on the desktop [W]: each method acts on the
    desktop and returns, or raises an [E]. *)
Record EngineOf (E W : Type) : Type := {
  click_at_position : pyval -> pyval -> pyval -> W -> W * result E ActionResult;
  type_text : pyval -> W -> W * result E ActionResult;
  press_key : pyval -> W -> W * result E ActionResult;
  key_combination : pyval -> W -> W * result E ActionResult;
  scroll : pyval -> pyval -> W -> W * result E ActionResult;
  move_mouse : pyval -> pyval -> W -> W * result E ActionResult;
  take_screenshot : W -> W * result E (option string)
}.

(** An engine whose methods raise instances of [Exception] only, given by
    their text. *)
Abbreviation Engine := (EngineOf string).

Section App.

(** The engine state (the desktop). *)
Variable W : Type.

(** An [IntentApparatus]: the desktop its engine acts on, the history, and
    the record of what was asked of the surroundings so far. *)
Record IntentApparatus : Type := {
  desktop : W;
  execution_history : list (string * ActionResult);
  trace : list event
}.

(** Computations on an [IntentApparatus] that may raise an [E]. *)
Definition M (E A : Type) : Type :=
  IntentApparatus -> IntentApparatus * result E A.

Definition ret {E A : Type} (a : A) : M E A := fun self => (self, Return a).

Definition mbind {E A B : Type} (m : M E A) (f : A -> M E B) : M E B :=
  fun self =>
    match m self with
    | (self', Return a) => f a self'
    | (self', Raise e) => (self', Raise e)
    end.

(** [try: body except Exception as e: handler(str(e))]: what is raised and
    is not an instance of [Exception] goes on to the caller. *)
Definition except_Exception {E A : Type} `{Raised E}
           (body : M E A) (handler : string -> M E A) : M E A :=
  fun self =>
    match body self with
    | (self', Return a) => (self', Return a)
    | (self', Raise e) =>
        match exception_text e with
        | Some text => handler text self'
        | None => (self', Raise e)
        end
    end.

Definition map_error {E E' A : Type} (f : E -> E') (m : M E A) : M E' A :=
  fun self =>
    match m self with
    | (self', Return a) => (self', Return a)
    | (self', Raise e) => (self', Raise (f e))
    end.

(** A call of an engine method: the event is recorded, the desktop
    changes, and the call returns or raises. *)
Definition call {E A : Type} (ev : event) (method : W -> W * result E A)
  : M E A :=
  fun self =>
    let (w, r) := method (desktop self) in
    ({| desktop := w;
        execution_history := execution_history self;
        trace := trace self ++ [ev] |}, r).

(** [time.sleep(seconds)] *)
Definition time_sleep {E : Type} (seconds : Q) : M E unit :=
  fun self =>
    ({| desktop := desktop self;
        execution_history := execution_history self;
        trace := trace self ++ [sleep seconds] |}, Return tt).

End App.

Arguments ret {W E A} a.
Arguments mbind {W E A B} m f.
Arguments except_Exception {W E A _} body handler.
Arguments map_error {W E E' A} f m.
Arguments call {W E A} ev method.
Arguments time_sleep {W E} seconds.

Notation "'let!' x ':=' m 'in' k" := (mbind m (fun x => k))
  (at level 10, x name, m at level 100, k at level 200).
Notation "'let!' '_' ':=' m 'in' k" := (mbind m (fun _ => k))
  (at level 10, m at level 100, k at level 200).

(** [v == 2] *)
Definition equals_two (v : pyval) : bool :=
  match v with
  | VInt 2 => true
  | _ => false
  end.

(** Truth value of what [take_screenshot] returned. *)
Definition path_given (p : option string) : bool :=
  match p with
  | Some (String _ _) => true
  | _ => false
  end.

(** The text a path is formatted as. *)
Definition str_of_path (p : option string) : string :=
  match p with
  | Some s => s
  | None => "None"
  end.

Section Dispatcher.

Variable W : Type.
Variable E : Type.
Context `{Raised E}.
Variable automation_engine : EngineOf E W.

(** The body of the [try] of [_execute_action]. *)
Definition execute_body (intent : ParsedIntent) : M W E ActionResult :=
  let params := parameters intent in
  if action_type intent =? "click" then
    let x := get params "x" VNone in
    let y := get params "y" VNone in
    let button := get params "button" (VStr "left") in
    let clicks := get params "clicks" (VInt 1) in
    if equals_two clicks then
      let! _ := call (click_at_position_call x y button)
                     (click_at_position automation_engine x y button) in
      let! _ := time_sleep (1 # 10) in
      call (click_at_position_call x y button)
           (click_at_position automation_engine x y button)
    else
      call (click_at_position_call x y button)
           (click_at_position automation_engine x y button)
  else if action_type intent =? "type" then
    let text := get params "text" VNone in
    call (type_text_call text) (type_text automation_engine text)
  else if action_type intent =? "key" then
    if contains params "keys" then
      let keys := get params "keys" VNone in
      call (key_combination_call keys) (key_combination automation_engine keys)
    else
      let key := get params "key" VNone in
      call (press_key_call key) (press_key automation_engine key)
  else if action_type intent =? "scroll" then
    let direction := get params "direction" VNone in
    let clicks := get params "clicks" (VInt 3) in
    call (scroll_call direction clicks)
         (scroll automation_engine direction clicks)
  else if action_type intent =? "move" then
    let x := get params "x" VNone in
    let y := get params "y" VNone in
    call (move_mouse_call x y) (move_mouse automation_engine x y)
  else if action_type intent =? "screenshot" then
    let! screenshot_path :=
      call take_screenshot_call (take_screenshot automation_engine) in
    if path_given screenshot_path then
      ret {| success := true;
             message := "Screenshot saved as " ++ str_of_path screenshot_path;
             result_action_type := "screenshot" |}
    else
      ret {| success := false;
             message := "Failed to take screenshot";
             result_action_type := "screenshot" |}
  else
    ret {| success := false;
           message := "Unknown action type: " ++ action_type intent;
           result_action_type := "unknown" |}.

Definition _execute_action (intent : ParsedIntent) : M W E ActionResult :=
  except_Exception
    (execute_body intent)
    (fun text => ret {| success := false;
                        message := "Execution error: " ++ text;
                        result_action_type := action_type intent |}).

End Dispatcher.

Section Application.

Variable W : Type.
Variable E : Type.
Context `{Raised E}.
Variable automation_engine : EngineOf E W.

(** [os.path.abspath], taken as a function that returns: it raises
    [OSError] only when the working directory is gone. *)
Variable abspath : string -> string.

(** [self.execution_history.append((command, result))] *)
Definition append_history {E : Type} (command : string) (r : ActionResult)
  : M W (errorOf E) unit :=
  fun self =>
    ({| desktop := desktop self;
        execution_history := execution_history self ++ [(command, r)];
        trace := trace self |}, Return tt).

Definition screenshot_actions : list string := ["click"; "move"; "screenshot"].

Definition process_command (command : string) : M W (errorOf E) response :=
  match strip command with
  | EmptyString => ret (StatusError, PleaseEnterACommand, Some "")
  | _ =>
      match parse_command command with
      | Raise e => fun self => (self, Raise (InterpreterError e))
      | Return None =>
          ret (StatusUnableToParse, CouldNotUnderstand command, Some "")
      | Return (Some parsed_intent) =>
          let! r := map_error EngineError
                              (_execute_action automation_engine parsed_intent) in
          let! _ := append_history command r in
          let status := if success r then StatusSuccess else StatusError in
          if success r
             && existsb (String.eqb (action_type parsed_intent)) screenshot_actions
          then
            let! screenshot_path :=
              map_error EngineError
                (call take_screenshot_call (take_screenshot automation_engine)) in
            if path_given screenshot_path
            then ret (status, ResultMessage (message r),
                      option_map abspath screenshot_path)
            else ret (status, ResultMessage (message r), screenshot_path)
          else ret (status, ResultMessage (message r), Some "")
      end
  end.

(** [self.execution_history.clear()] *)
Definition clear_history : M W error string :=
  fun self =>
    ({| desktop := desktop self;
        execution_history := [];
        trace := trace self |}, Return "History cleared.").

End Application.

(** [l[-n:]] for [n >= 0]: the last [n] items, all of [l] when it has fewer,
    and all of [l] for [n = 0] (where [-0] is [0]). *)
Definition last_items {A : Type} (n : nat) (l : list A) : list A :=
  match n with
  | O => l
  | _ => skipn (List.length l - n) l
  end.

(** One line of the history display: its number, whether the action
    succeeded, the command, and the message of the result. *)
Definition history_line : Type := (nat * bool * string * string)%type.

Fixpoint enumerate {A : Type} (start : nat) (l : list A) : list (nat * A) :=
  match l with
  | [] => []
  | a :: l' => (start, a) :: enumerate (S start) l'
  end.

(** The entries [get_execution_history] shows: [execution_history[-10:]]
    for [n = 10]. *)
Definition recent {W : Type} (n : nat) (self : IntentApparatus W)
  : list (string * ActionResult) :=
  last_items n (execution_history self).

(** [get_execution_history]: [None] stands for the fixed text of an empty
    history, otherwise the lines, which the source joins with newlines. *)
Definition get_execution_history {W : Type}
  : M W error (option (list history_line)) :=
  fun self =>
    (self,
     Return
       match execution_history self with
       | [] => None
       | _ =>
           Some (map (fun '(i, (command, r)) =>
                        (i, success r, command, message r))
                     (enumerate 1 (recent 10 self)))
       end).

(** Recording a sequence of commands with their results, one
    [append_history] after the other. *)
Fixpoint record_all {W : Type} (entries : list (string * ActionResult))
         (self : IntentApparatus W) : IntentApparatus W :=
  match entries with
  | [] => self
  | (command, r) :: rest =>
      record_all rest (fst (append_history (E := string) command r self))
  end.

(* ================================================================== *)
(** ** Specification devices

    What is needed to state and prove the properties: what a pattern can
    match, read as a relation; the rule table as one list; and a scripted
    engine for examples. *)

(** A text that is empty or starts with a character that is not a blank. *)
Definition no_leading_blank (s : string) : Prop :=
  match s with
  | EmptyString => True
  | String c _ => Char.isspace c = false
  end.

Module re_spec.
Import re.

(** [run_of cl s s']: [s'] is [s] without some leading characters, all in
    [cl]. *)
Inductive run_of (cl : cset) : string -> string -> Prop :=
| run_nil s : run_of cl s s
| run_cons a s s' :
    member cl a = true -> run_of cl s s' -> run_of cl (String a s) s'.

(** [matches r s c s' c']: the pattern [r] matches a prefix of [s], leaves
    [s'], and turns the captures [c] into [c']. *)
Inductive matches : regex -> string -> captures -> string -> captures -> Prop :=
| m_lit p s s' c :
    lit p s = Some s' -> matches (Lit p) s c s' c
| m_one cl a s c :
    member cl a = true -> matches (One cl) (String a s) c s c
| m_plus cl a s s' c :
    member cl a = true -> run_of cl s s' ->
    matches (Plus cl) (String a s) c s' c
| m_star cl s s' c :
    run_of cl s s' -> matches (Star cl) s c s' c
| m_seq r1 r2 s c s1 c1 s2 c2 :
    matches r1 s c s1 c1 -> matches r2 s1 c1 s2 c2 ->
    matches (Seq r1 r2) s c s2 c2
| m_alt_l r1 r2 s c s' c' :
    matches r1 s c s' c' -> matches (Alt r1 r2) s c s' c'
| m_alt_r r1 r2 s c s' c' :
    matches r2 s c s' c' -> matches (Alt r1 r2) s c s' c'
| m_opt_some r s c s' c' :
    matches r s c s' c' -> matches (Opt r) s c s' c'
| m_opt_none r s c :
    matches (Opt r) s c s c
| m_group g r s c s' c' :
    matches r s c s' c' ->
    matches (Group g r) s c s' (set_capture g (s, s') c').

(** Every match of [r] sets the group [g]. *)
Fixpoint binds (g : gid) (r : regex) : bool :=
  match r with
  | Lit _ | One _ | Plus _ | Star _ => false
  | Seq r1 r2 => binds g r1 || binds g r2
  | Alt r1 r2 => binds g r1 && binds g r2
  | Opt _ => false
  | Group g' r1 =>
      match g, g' with
      | G1, G1 | G2, G2 => true
      | _, _ => binds g r1
      end
  end.

End re_spec.

(** A rule: action type, pattern, pattern type. *)
Definition rule : Type := (string * re.regex * string)%type.

Definition rule_pattern (r : rule) : re.regex := snd (fst r).
Definition rule_pattern_type (r : rule) : string := snd r.
Definition rule_action_type (r : rule) : string := fst (fst r).

(** The rules of a table in the order [parse_command] visits them. *)
Definition rules_of (table : list (string * list (re.regex * string)))
  : list rule :=
  flat_map (fun '(a, ps) => map (fun '(p, t) => (a, p, t)) ps) table.

(** One turn of the inner loop of [parse_command]: the intent a rule gives,
    [None] when its pattern does not match or its parameters are [None]. *)
Definition apply_rule (command : string) (r : rule)
  : result exn (option ParsedIntent) :=
  match re.search (rule_pattern r) command with
  | None => Return None
  | Some m =>
      let* parameters :=
        _extract_parameters m (rule_pattern_type r) (rule_action_type r) in
      Return (option_map
                (fun p => {| action_type := rule_action_type r;
                             parameters := p;
                             confidence := 8 # 10;
                             raw_command := command |})
                parameters)
  end.

(** The first rule of a list, in order, that gives an intent. *)
Fixpoint first_intent (command : string) (rs : list rule)
  : result exn (option ParsedIntent) :=
  match rs with
  | [] => Return None
  | r :: rest =>
      let* found := apply_rule command r in
      match found with
      | Some intent => Return (Some intent)
      | None => first_intent command rest
      end
  end.

(** The groups a pattern type reads in a way that fails on [None]. *)
Definition reads_group (pattern_type : string) (g : re.gid) : bool :=
  match g with
  | re.G1 =>
      existsb (String.eqb pattern_type)
              ["coordinates"; "right_coordinates"; "double_coordinates";
               "single_key"; "key_combo"; "direction_count"]
  | re.G2 =>
      existsb (String.eqb pattern_type)
              ["coordinates"; "right_coordinates"; "double_coordinates";
               "key_combo"]
  end.

(** A rule whose pattern sets every group its pattern type reads. *)
Definition well_formed_rule (r : rule) : bool :=
  implb (reads_group (rule_pattern_type r) re.G1)
        (re_spec.binds re.G1 (rule_pattern r))
  && implb (reads_group (rule_pattern_type r) re.G2)
           (re_spec.binds re.G2 (rule_pattern r)).

(** [c] repeated [n] times. *)
Fixpoint repeat_char (c : ascii) (n : nat) : string :=
  match n with
  | O => EmptyString
  | S n' => String c (repeat_char c n')
  end.

(** A scripted engine for examples: its state is the list of results its
    next clicks will give; a click with nothing scripted, and every other
    method, raises. *)
Definition scripted_engine : Engine (list ActionResult) :=
  let unscripted {A : Type} (w : list ActionResult)
    : list ActionResult * result string A := (w, Raise "not scripted") in
  {| click_at_position := fun _ _ _ w =>
       match w with
       | r :: w' => (w', Return r)
       | [] => (w, Raise "not scripted")
       end;
     type_text := fun _ => unscripted;
     press_key := fun _ => unscripted;
     key_combination := fun _ => unscripted;
     scroll := fun _ _ => unscripted;
     move_mouse := fun _ _ => unscripted;
     take_screenshot := unscripted |}.

(** A result that is not one of the exceptions [_extract_parameters] lets
    through. *)
Definition benign {A : Type} (r : result exn A) : Prop :=
  match r with
  | Raise TypeError | Raise AttributeError => False
  | _ => True
  end.

(** The pattern of a rule matches the command, and the extraction of its
    parameters raises [ValueError]. *)
Definition conversion_fails (command : string) (r : rule) : Prop :=
  match re.search (rule_pattern r) command with
  | Some m => extract_body m (rule_pattern_type r) = Raise ValueError
  | None => False
  end.

(** A click on a number of 4301 digits, followed by a key press. *)
Definition long_number_command : string :=
  "click " ++ repeat_char "1" 4301 ++ ",5 press enter".

(** A computation that leaves the execution history as it found it. *)
Definition keeps_history {W E A : Type} (m : M W E A) : Prop :=
  forall self, execution_history (fst (m self)) = execution_history self.

(** The action types [_execute_action] has a branch for. *)
Definition known_action_types : list string :=
  ["click"; "type"; "key"; "scroll"; "move"; "screenshot"].

(** Sample values for examples: two click results, and the intents of
    [double click at 5,5] and [right click at 5,5]. *)
Definition failed_click : ActionResult :=
  {| success := false;
     message := "Failed to click: the pointer is in a corner";
     result_action_type := "click" |}.

Definition good_click : ActionResult :=
  {| success := true;
     message := "Clicked at position (5, 5) with left button";
     result_action_type := "click" |}.

Definition double_click_intent : ParsedIntent :=
  {| action_type := "click";
     parameters := [("x", VInt 5); ("y", VInt 5); ("button", VStr "left");
                    ("clicks", VInt 2)];
     confidence := 8 # 10;
     raw_command := "double click at 5,5" |}.

Definition single_click_intent : ParsedIntent :=
  {| action_type := "click";
     parameters := [("x", VInt 5); ("y", VInt 5); ("button", VStr "right")];
     confidence := 8 # 10;
     raw_command := "right click at 5,5" |}.

(** More sample values for examples: an application state whose history
    holds one entry, and numbered history entries. *)
Definition sample_self : IntentApparatus (list ActionResult) :=
  {| desktop := [];
     execution_history :=
       [("screenshot",
         {| success := false;
            message := "Failed to take screenshot";
            result_action_type := "screenshot" |})];
     trace := [take_screenshot_call] |}.

Definition sample_entry (n : Z) : string * ActionResult :=
  ("scroll up " ++ str_of_int n, MockAutomationEngine.scroll "up" n).

Definition type_hello_intent : ParsedIntent :=
  {| action_type := "type";
     parameters := [("text", VStr "hello")];
     confidence := 8 # 10;
     raw_command := "type 'hello'" |}.

Definition dance_intent : ParsedIntent :=
  {| action_type := "dance";
     parameters := [];
     confidence := 8 # 10;
     raw_command := "dance" |}.

(** The rule table without the combination rule for [press]. *)
Definition rules_without_press_combo : list rule :=
  (firstn 9 (rules_of _initialize_patterns)
   ++ skipn 10 (rules_of _initialize_patterns))%list.

(** A non-empty run of decimal digits. *)
Definition digit_run (s : string) : Prop :=
  s <> EmptyString /\ all_chars Char.isdecimal s = true.

(** Every group [g] of a pattern has the form [(\d+)]. *)
Fixpoint digits_only (g : re.gid) (r : re.regex) : bool :=
  match r with
  | re.Lit _ | re.One _ | re.Plus _ | re.Star _ => true
  | re.Seq r1 r2 | re.Alt r1 r2 => digits_only g r1 && digits_only g r2
  | re.Opt r1 => digits_only g r1
  | re.Group g' r1 =>
      match g, g' with
      | re.G1, re.G1 | re.G2, re.G2 =>
          match r1 with
          | re.Plus re.Digit => true
          | _ => false
          end
      | _, _ => digits_only g r1
      end
  end.

(** The group [g] is not set, or holds a run of digits. *)
Definition holds_digits (g : re.gid) (c : re.captures) : Prop :=
  match re.capture g c with
  | None => True
  | Some sp => digit_run (re.consumed sp)
  end.

(** The groups a pattern type hands to [int]. *)
Definition converts_group (pattern_type : string) (g : re.gid) : bool :=
  match g with
  | re.G1 =>
      existsb (String.eqb pattern_type)
              ["coordinates"; "right_coordinates"; "double_coordinates";
               "direction_count"]
  | re.G2 =>
      existsb (String.eqb pattern_type)
              ["coordinates"; "right_coordinates"; "double_coordinates";
               "direction"]
  end.

(* ================================================================== *)
(** ** Further specification devices: the shape of what is captured *)

(** Equality of sets of characters. *)
Definition cset_eqb (a b : re.cset) : bool :=
  match a, b with
  | re.Space, re.Space | re.Digit, re.Digit | re.Word, re.Word => true
  | re.AnyOf x, re.AnyOf y | re.NoneOf x, re.NoneOf y => String.eqb x y
  | _, _ => false
  end.

(** A non-empty run of characters of a set. *)
Definition run_text (cl : re.cset) (s : string) : Prop :=
  s <> EmptyString /\ all_chars (re.member cl) s = true.

(** Every group [g] of a pattern has the form [(cl+)]. *)
Fixpoint groups_are_runs (cl : re.cset) (g : re.gid) (r : re.regex) : bool :=
  match r with
  | re.Lit _ | re.One _ | re.Plus _ | re.Star _ => true
  | re.Seq r1 r2 | re.Alt r1 r2 =>
      groups_are_runs cl g r1 && groups_are_runs cl g r2
  | re.Opt r1 => groups_are_runs cl g r1
  | re.Group g' r1 =>
      match g, g' with
      | re.G1, re.G1 | re.G2, re.G2 =>
          match r1 with
          | re.Plus cl' => cset_eqb cl cl'
          | _ => false
          end
      | _, _ => groups_are_runs cl g r1
      end
  end.

(** The group [g] is not set, or holds a run of characters of [cl]. *)
Definition holds_run (cl : re.cset) (g : re.gid) (c : re.captures) : Prop :=
  match re.capture g c with
  | None => True
  | Some sp => run_text cl (re.consumed sp)
  end.

(** Every group that is set holds text that lower-casing leaves alone. *)
Definition captures_lower (c : re.captures) : Prop :=
  forall g sp, re.capture g c = Some sp ->
               lower (re.consumed sp) = re.consumed sp.

(** The text has none of the two quote characters. *)
Definition quote_free (s : string) : Prop :=
  all_chars (re.member (re.NoneOf quotes)) s = true.

(** The parameters an intent of each action type can have when it comes from
    [parse_command]. *)
Inductive parsed_shape : string -> dict -> Prop :=
| shape_click (x y : Z) (button : string) :
    (0 <= x)%Z -> (0 <= y)%Z -> button = "left" \/ button = "right" ->
    parsed_shape "click"
                 [("x", VInt x); ("y", VInt y); ("button", VStr button)]
| shape_double_click (x y : Z) :
    (0 <= x)%Z -> (0 <= y)%Z ->
    parsed_shape "click"
                 [("x", VInt x); ("y", VInt y); ("button", VStr "left");
                  ("clicks", VInt 2)]
| shape_type (text : string) :
    text <> EmptyString -> quote_free text -> lower text = text ->
    parsed_shape "type" [("text", VStr text)]
| shape_key (key : string) :
    key <> EmptyString -> synonym key_mapping key = key ->
    parsed_shape "key" [("key", VStr key)]
| shape_keys (key1 key2 : string) :
    key1 <> EmptyString -> key2 <> EmptyString ->
    synonym combo_key_mapping key1 = key1 ->
    synonym combo_key_mapping key2 = key2 ->
    parsed_shape "key" [("keys", VList [key1; key2])]
| shape_scroll (direction : string) (clicks : Z) :
    direction = "up" \/ direction = "down" -> (0 <= clicks)%Z ->
    parsed_shape "scroll"
                 [("direction", VStr direction); ("clicks", VInt clicks)]
| shape_move (x y : Z) :
    (0 <= x)%Z -> (0 <= y)%Z ->
    parsed_shape "move" [("x", VInt x); ("y", VInt y); ("button", VStr "left")]
| shape_screenshot :
    parsed_shape "screenshot" [].

(** An engine call whose arguments have the types of the method's
    annotations. *)
Definition well_typed_event (ev : event) : Prop :=
  match ev with
  | click_at_position_call (VInt _) (VInt _) (VStr _) => True
  | type_text_call (VStr _) => True
  | press_key_call (VStr _) => True
  | key_combination_call (VList _) => True
  | scroll_call (VStr _) (VInt _) => True
  | move_mouse_call (VInt _) (VInt _) => True
  | take_screenshot_call => True
  | sleep _ => True
  | _ => False
  end.

(** An event that is a call of an engine method. *)
Definition engine_call (ev : event) : bool :=
  match ev with
  | sleep _ => false
  | _ => true
  end.

(* ================================================================== *)
(** ** Python values as text, and comparisons that may raise *)

(** [type(v).__name__] *)
Definition type_name (v : pyval) : string :=
  match v with
  | VNone => "NoneType"
  | VInt _ => "int"
  | VStr _ => "str"
  | VList _ => "list"
  end.

Definition dquote : ascii := "034"%char.
Definition squote : ascii := "039"%char.
Definition backslash : ascii := "092"%char.

(** A hexadecimal digit, in lower case. *)
Definition hex_digit (n : N) : ascii :=
  if (n <? 10)%N then ascii_of_N (48 + n) else ascii_of_N (87 + n).

(** Characters that [repr] writes as [\xhh]: the control characters other
    than tab, newline and carriage return, and the characters of
    U+0080..U+00FF that are not printable. *)
Definition unprintable (c : ascii) : bool :=
  Char.between 0 31 c || Char.has_code 127 c || Char.between 128 160 c
  || Char.has_code 173 c.

(** One character of [repr(s)], inside the quotes [q]. *)
Definition repr_char (q c : ascii) : string :=
  if Ascii.eqb c q || Ascii.eqb c backslash then
    String backslash (String c EmptyString)
  else if Char.has_code 9 c then String backslash "t"
  else if Char.has_code 10 c then String backslash "n"
  else if Char.has_code 13 c then String backslash "r"
  else if unprintable c then
    String backslash
           (String "x"
                   (String (hex_digit (Char.code c / 16))
                           (String (hex_digit (Char.code c mod 16))
                                   EmptyString)))
  else String c EmptyString.

Fixpoint repr_chars (q : ascii) (s : string) : string :=
  match s with
  | EmptyString => EmptyString
  | String c s' => repr_char q c ++ repr_chars q s'
  end.

(** [repr(s)] for a [str]: double quotes when the text has a single quote and
    no double quote, single quotes otherwise. *)
Definition repr_str (s : string) : string :=
  let q := if re.occurs squote s && negb (re.occurs dquote s)
           then dquote else squote in
  String q (repr_chars q s ++ String q EmptyString).

(** [sep.join(l)] for a list of [str]. *)
Fixpoint join (sep : string) (l : list string) : string :=
  match l with
  | [] => EmptyString
  | [s] => s
  | s :: l' => s ++ sep ++ join sep l'
  end.

(** [str(v)], which is also what an f-string writes for [{v}]. *)
Definition str_of (v : pyval) : string :=
  match v with
  | VNone => "None"
  | VInt n => str_of_int n
  | VStr s => s
  | VList l => "[" ++ join ", " (map repr_str l) ++ "]"
  end.

(** The characters of a [str], as iterating over it gives them. *)
Fixpoint chars (s : string) : list string :=
  match s with
  | EmptyString => []
  | String c s' => String c EmptyString :: chars s'
  end.

(** ['+'.join(keys)] *)
Definition join_keys (keys : pyval) : result string string :=
  match keys with
  | VList l => Return (join "+" l)
  | VStr s => Return (join "+" (chars s))
  | _ => Raise "can only join an iterable"
  end.

(** [0 <= v <= bound] *)
Definition within (v : pyval) (bound : Z) : result string bool :=
  match v with
  | VInt n => Return ((0 <=? n)%Z && (n <=? bound)%Z)
  | _ =>
      Raise ("'<=' not supported between instances of 'int' and '"
             ++ type_name v ++ "'")
  end.

(** [0 <= x <= width and 0 <= y <= height] *)
Definition on_screen (width height : Z) (x y : pyval) : result string bool :=
  let* inside := within x width in
  if inside then within y height else Return false.

(** [v.lower()] *)
Definition lower_method (v : pyval) : result string string :=
  match v with
  | VStr s => Return (lower s)
  | _ => Raise ("'" ++ type_name v ++ "' object has no attribute 'lower'")
  end.

(** [-v] *)
Definition negated (v : pyval) : result string pyval :=
  match v with
  | VInt n => Return (VInt (- n))
  | _ => Raise ("bad operand type for unary -: '" ++ type_name v ++ "'")
  end.

(** The result an engine method gives from its [except] branch. *)
Definition failure (what text kind : string) : ActionResult :=
  {| success := false; message := what ++ text; result_action_type := kind |}.

Definition outside_screen (x y : pyval) (kind : string) : ActionResult :=
  {| success := false;
     message := "Coordinates (" ++ str_of x ++ ", " ++ str_of y
                ++ ") are outside screen bounds";
     result_action_type := kind |}.

(* ================================================================== *)
(** ** [mock_automation.py]: the engine that simulates

    Its methods take whatever the dispatcher passes.  The only thing they
    read from the surroundings is the clock, for the name of a
    screenshot. *)

(** The clock: the values that the successive readings of
    [int(time.time())] give, and the number of readings made. *)
Record Clock : Type := {
  time_at : nat -> Z;
  readings : nat
}.

(** [int(time.time())] *)
Definition read_clock (w : Clock) : Clock * Z :=
  ({| time_at := time_at w; readings := S (readings w) |},
   time_at w (readings w)).

Module mock_automation.

Definition screen_width : Z := 1920.
Definition screen_height : Z := 1080.

Definition click_at_position (x y button : pyval) : ActionResult :=
  match on_screen screen_width screen_height x y with
  | Raise e => failure "Failed to click: " e "click"
  | Return false => outside_screen x y "click"
  | Return true =>
      {| success := true;
         message := "[SIMULATED] Clicked at position (" ++ str_of x ++ ", "
                    ++ str_of y ++ ") with " ++ str_of button ++ " button";
         result_action_type := "click" |}
  end.

Definition type_text (text : pyval) : ActionResult :=
  {| success := true;
     message := "[SIMULATED] Typed text: '" ++ str_of text ++ "'";
     result_action_type := "type" |}.

Definition press_key (key : pyval) : ActionResult :=
  {| success := true;
     message := "[SIMULATED] Pressed key: " ++ str_of key;
     result_action_type := "key_press" |}.

Definition key_combination (keys : pyval) : ActionResult :=
  match join_keys keys with
  | Raise e => failure "Failed to press key combination: " e "key_combination"
  | Return joined =>
      {| success := true;
         message := "[SIMULATED] Pressed key combination: " ++ joined;
         result_action_type := "key_combination" |}
  end.

Definition scroll (direction clicks : pyval) : ActionResult :=
  match lower_method direction with
  | Raise e => failure "Failed to scroll: " e "scroll"
  | Return d =>
      if negb ((d =? "up") || (d =? "down")) then
        {| success := false;
           message := "Invalid scroll direction: " ++ str_of direction;
           result_action_type := "scroll" |}
      else
        {| success := true;
           message := "[SIMULATED] Scrolled " ++ str_of direction ++ " "
                      ++ str_of clicks ++ " clicks";
           result_action_type := "scroll" |}
  end.

Definition move_mouse (x y : pyval) : ActionResult :=
  match on_screen screen_width screen_height x y with
  | Raise e => failure "Failed to move mouse: " e "mouse_move"
  | Return false => outside_screen x y "mouse_move"
  | Return true =>
      {| success := true;
         message := "[SIMULATED] Moved mouse to (" ++ str_of x ++ ", "
                    ++ str_of y ++ ")";
         result_action_type := "mouse_move" |}
  end.

Definition take_screenshot (w : Clock) : Clock * option string :=
  let (w', timestamp) := read_clock w in
  (w', Some ("mock_screenshot_" ++ str_of_int timestamp ++ ".png")).

Definition get_screen_size : Z * Z := (screen_width, screen_height).

(** The mock engine as the dispatcher sees it (the methods in the order of
    the fields of [Engine]): no method raises. *)
Definition engine : Engine Clock :=
  @Build_EngineOf string Clock
    (fun x y button w => (w, Return (click_at_position x y button)))
    (fun text w => (w, Return (type_text text)))
    (fun key w => (w, Return (press_key key)))
    (fun keys w => (w, Return (key_combination keys)))
    (fun direction clicks w => (w, Return (scroll direction clicks)))
    (fun x y w => (w, Return (move_mouse x y)))
    (fun w => let (w', path) := take_screenshot w in (w', Return path)).

End mock_automation.

(* ================================================================== *)
(** ** [automation_engine.py]: the engine that drives the desktop

    [pyautogui] and the clock are the surroundings: each call acts on the
    desktop [W] and returns, or raises an exception with some text.  The
    screen size is what [pyautogui.size()] gave when the engine was made. *)

Module automation_engine.
Section Engine.

Variable W : Type.
Variable screen_width screen_height : Z.
Variable pyautogui_click : pyval -> pyval -> pyval -> W -> W * result string unit.
Variable pyautogui_typewrite : pyval -> W -> W * result string unit.
Variable pyautogui_press : pyval -> W -> W * result string unit.
(** [pyautogui.hotkey( *keys)], the unpacking of [keys] included. *)
Variable pyautogui_hotkey : pyval -> W -> W * result string unit.
Variable pyautogui_scroll : pyval -> W -> W * result string unit.
Variable pyautogui_moveTo : pyval -> pyval -> W -> W * result string unit.
(** [pyautogui.screenshot().save(filename)] *)
Variable pyautogui_screenshot_save : string -> W -> W * result string unit.
(** [int(time.time())] *)
Variable time_time : W -> W * Z.

(** After a [pyautogui] call inside a [try]: the result built from what the
    call did, or the result of the [except] branch. *)
Definition after_call (done : result string ActionResult) (what kind : string)
           (r : W * result string unit) : W * ActionResult :=
  match r with
  | (w, Return _) =>
      match done with
      | Return result => (w, result)
      | Raise e => (w, failure what e kind)
      end
  | (w, Raise e) => (w, failure what e kind)
  end.

Definition click_at_position (x y button : pyval) (w : W) : W * ActionResult :=
  match on_screen screen_width screen_height x y with
  | Raise e => (w, failure "Failed to click: " e "click")
  | Return false => (w, outside_screen x y "click")
  | Return true =>
      after_call
        (Return {| success := true;
                   message := "Clicked at position (" ++ str_of x ++ ", "
                              ++ str_of y ++ ") with " ++ str_of button
                              ++ " button";
                   result_action_type := "click" |})
        "Failed to click: " "click"
        (pyautogui_click x y button w)
  end.

Definition type_text (text : pyval) (w : W) : W * ActionResult :=
  after_call
    (Return {| success := true;
               message := "Typed text: '" ++ str_of text ++ "'";
               result_action_type := "type" |})
    "Failed to type text: " "type"
    (pyautogui_typewrite text w).

Definition press_key (key : pyval) (w : W) : W * ActionResult :=
  after_call
    (Return {| success := true;
               message := "Pressed key: " ++ str_of key;
               result_action_type := "key_press" |})
    "Failed to press key: " "key_press"
    (pyautogui_press key w).

Definition key_combination (keys : pyval) (w : W) : W * ActionResult :=
  after_call
    (let* joined := join_keys keys in
     Return {| success := true;
               message := "Pressed key combination: " ++ joined;
               result_action_type := "key_combination" |})
    "Failed to press key combination: " "key_combination"
    (pyautogui_hotkey keys w).

Definition scrolled (direction clicks : pyval) : result string ActionResult :=
  Return {| success := true;
            message := "Scrolled " ++ str_of direction ++ " "
                       ++ str_of clicks ++ " clicks";
            result_action_type := "scroll" |}.

Definition scroll (direction clicks : pyval) (w : W) : W * ActionResult :=
  match lower_method direction with
  | Raise e => (w, failure "Failed to scroll: " e "scroll")
  | Return d =>
      if d =? "up" then
        after_call (scrolled direction clicks) "Failed to scroll: " "scroll"
                   (pyautogui_scroll clicks w)
      else if d =? "down" then
        match negated clicks with
        | Raise e => (w, failure "Failed to scroll: " e "scroll")
        | Return downwards =>
            after_call (scrolled direction clicks) "Failed to scroll: " "scroll"
                       (pyautogui_scroll downwards w)
        end
      else
        (w, {| success := false;
               message := "Invalid scroll direction: " ++ str_of direction;
               result_action_type := "scroll" |})
  end.

Definition move_mouse (x y : pyval) (w : W) : W * ActionResult :=
  match on_screen screen_width screen_height x y with
  | Raise e => (w, failure "Failed to move mouse: " e "mouse_move")
  | Return false => (w, outside_screen x y "mouse_move")
  | Return true =>
      after_call
        (Return {| success := true;
                   message := "Moved mouse to (" ++ str_of x ++ ", "
                              ++ str_of y ++ ")";
                   result_action_type := "mouse_move" |})
        "Failed to move mouse: " "mouse_move"
        (pyautogui_moveTo x y w)
  end.

Definition take_screenshot (w : W) : W * option string :=
  let (w1, timestamp) := time_time w in
  let filename := "screenshot_" ++ str_of_int timestamp ++ ".png" in
  match pyautogui_screenshot_save filename w1 with
  | (w2, Return _) => (w2, Some filename)
  | (w2, Raise _) => (w2, None)
  end.

Definition get_screen_size : Z * Z := (screen_width, screen_height).

(** The engine as the dispatcher sees it (the methods in the order of the
    fields of [Engine]): every method catches what [pyautogui] raises. *)
Definition engine : Engine W :=
  @Build_EngineOf string W
    (fun x y button w =>
       let (w', r) := click_at_position x y button w in (w', Return r))
    (fun text w => let (w', r) := type_text text w in (w', Return r))
    (fun key w => let (w', r) := press_key key w in (w', Return r))
    (fun keys w => let (w', r) := key_combination keys w in (w', Return r))
    (fun direction clicks w =>
       let (w', r) := scroll direction clicks w in (w', Return r))
    (fun x y w => let (w', r) := move_mouse x y w in (w', Return r))
    (fun w => let (w', path) := take_screenshot w in (w', Return path)).

End Engine.
End automation_engine.

(** The result the mock gives where the real engine gives [r]: the same,
    with the mark of a simulation before the message of a success. *)
Definition simulated (r : ActionResult) : ActionResult :=
  {| success := success r;
     message := if success r then "[SIMULATED] " ++ message r else message r;
     result_action_type := result_action_type r |}.

(* ================================================================== *)
(** ** [intent_parser.py]: the example commands *)

(** A text between double quotes. *)
Definition in_dquotes (s : string) : string :=
  String dquote (s ++ String dquote EmptyString).

(** [get_action_examples]: a [dict] in insertion order. *)
Definition get_action_examples : list (string * list string) :=
  [ ("click", [ "click at 100, 200";
                "left click at position (300, 400)";
                "right click at 150, 250";
                "double click at 500, 600" ]);
    ("type", [ "type " ++ in_dquotes "Hello World";
               "write " ++ in_dquotes "This is a test";
               "enter " ++ in_dquotes "some text here";
               "input " ++ in_dquotes "username123" ]);
    ("key", [ "press enter";
              "hit the space key";
              "press ctrl+c";
              "alt+tab" ]);
    ("scroll", [ "scroll up";
                 "scroll down 5";
                 "scroll 3 times up" ]);
    ("move", [ "move mouse to 100, 200";
               "move cursor to position (300, 400)" ]);
    ("screenshot", [ "take a screenshot";
                     "capture screen";
                     "screenshot" ]) ].

(** The command parses into an intent of the action type. *)
Definition parses_as (action : string) (command : string) : bool :=
  match parse_command command with
  | Return (Some intent) => String.eqb (action_type intent) action
  | _ => false
  end.

(* ================================================================== *)
(** ** [demo.py]: the text interface *)

Module demo.
Section SimpleWebInterface.

Variable W : Type.
Variable E : Type.
Context `{Raised E}.
Variable automation_engine : EngineOf E W.

(** The body of the [try] of [_execute_action]. *)
Definition execute_body (intent : ParsedIntent) : M W E ActionResult :=
  let params := parameters intent in
  if action_type intent =? "click" then
    let x := get params "x" VNone in
    let y := get params "y" VNone in
    let button := get params "button" (VStr "left") in
    let clicks := get params "clicks" (VInt 1) in
    if equals_two clicks then
      let! _ := call (click_at_position_call x y button)
                     (click_at_position automation_engine x y button) in
      let! _ := time_sleep (1 # 10) in
      call (click_at_position_call x y button)
           (click_at_position automation_engine x y button)
    else
      call (click_at_position_call x y button)
           (click_at_position automation_engine x y button)
  else if action_type intent =? "type" then
    let text := get params "text" VNone in
    call (type_text_call text) (type_text automation_engine text)
  else if action_type intent =? "key" then
    if contains params "keys" then
      let keys := get params "keys" VNone in
      call (key_combination_call keys) (key_combination automation_engine keys)
    else
      let key := get params "key" VNone in
      call (press_key_call key) (press_key automation_engine key)
  else if action_type intent =? "scroll" then
    let direction := get params "direction" VNone in
    let clicks := get params "clicks" (VInt 3) in
    call (scroll_call direction clicks)
         (scroll automation_engine direction clicks)
  else if action_type intent =? "move" then
    let x := get params "x" VNone in
    let y := get params "y" VNone in
    call (move_mouse_call x y) (move_mouse automation_engine x y)
  else if action_type intent =? "screenshot" then
    let! screenshot_path :=
      call take_screenshot_call (take_screenshot automation_engine) in
    if path_given screenshot_path then
      ret {| success := true;
             message := "[SIMULATED] Screenshot saved as "
                        ++ str_of_path screenshot_path;
             result_action_type := "screenshot" |}
    else
      ret {| success := false;
             message := "Failed to take screenshot";
             result_action_type := "screenshot" |}
  else
    ret {| success := false;
           message := "Unknown action type: " ++ action_type intent;
           result_action_type := "unknown" |}.

Definition _execute_action (intent : ParsedIntent) : M W E ActionResult :=
  except_Exception
    (execute_body intent)
    (fun text => ret {| success := false;
                        message := "Execution error: " ++ text;
                        result_action_type := action_type intent |}).

(** [process_command] of the text interface: a status and a message. *)
Definition process_command (command : string)
  : M W (errorOf E) (status_label * response_message) :=
  match strip command with
  | EmptyString => ret (StatusError, PleaseEnterACommand)
  | _ =>
      match parse_command command with
      | Raise e => fun self => (self, Raise (InterpreterError e))
      | Return None => ret (StatusUnableToParse, CouldNotUnderstand command)
      | Return (Some parsed_intent) =>
          let! r := map_error EngineError (_execute_action parsed_intent) in
          let! _ := append_history command r in
          let status := if success r then StatusSuccess else StatusError in
          ret (status, ResultMessage (message r))
      end
  end.

End SimpleWebInterface.
End demo.

(** A clock for examples: it shows 1700000000 first and one more at each
    reading. *)
Definition sample_clock : Clock :=
  {| time_at := fun n => (1700000000 + Z.of_nat n)%Z; readings := 0 |}.

(** One line of the history display for an entry. *)
Definition line_of (i : nat) (entry : string * ActionResult) : history_line :=
  (i, success (snd entry), fst entry, message (snd entry)).

(** A [pyautogui] call that does nothing and returns, for examples. *)
Definition does_nothing {A : Type} (a : A) (w : unit)
  : unit * result string unit := (w, Return tt).

(* ================================================================== *)
(** ** The match [re] prefers, and text a pattern cannot match

    [re] tries the ways to match in a fixed order; the first that completes
    the whole pattern wins.  [takes r s c s' c'] says that the way of [r]
    from [s] to [s'] comes first among those the rest of the pattern may
    accept, and [fails r s] that [r] has no way at all at the head of
    [s]. *)

Definition takes (r : re.regex) (s : string) (c : re.captures)
           (s' : string) (c' : re.captures) : Prop :=
  forall (A : Type) (k : string -> re.captures -> option A) (x : A),
    k s' c' = Some x -> re.run r s c k = Some x.

Definition fails (r : re.regex) (s : string) : Prop :=
  forall (A : Type) (c : re.captures) (k : string -> re.captures -> option A),
    re.run r s c k = None.

(** A greedy run of [cl] ends before [s]. *)
Definition stops (cl : re.cset) (s : string) : bool :=
  match s with
  | EmptyString => true
  | String a _ => negb (re.member cl a)
  end.

(** The character [a0] does not occur in [s], in either letter case. *)
Definition free (a0 : ascii) (s : string) : bool :=
  all_chars (fun a => negb (Ascii.eqb (Char.lower a) (Char.lower a0))) s.

(** Every match of [r] holds the character [a0], in some letter case. *)
Fixpoint requires (a0 : ascii) (r : re.regex) : bool :=
  match r with
  | re.Lit p => negb (free a0 p)
  | re.One _ | re.Plus _ | re.Star _ | re.Opt _ => false
  | re.Seq r1 r2 => requires a0 r1 || requires a0 r2
  | re.Alt r1 r2 => requires a0 r1 && requires a0 r2
  | re.Group _ r1 => requires a0 r1
  end.

(** The intent [parse_command] builds. *)
Definition intent_of (action : string) (p : dict) (command : string)
  : ParsedIntent :=
  {| action_type := action;
     parameters := p;
     confidence := 8 # 10;
     raw_command := command |}.

(** The match of a pattern that ends in two numbers, [dx] and [dy] with a
    comma and a blank between them, at the end of a command. *)
Definition numbers_match (dx dy command : string) : re.Match :=
  {| re.groups_count := 2;
     re.whole := (command, EmptyString);
     re.caps := {| re.cap1 := Some (dx ++ ", " ++ dy, ", " ++ dy);
                   re.cap2 := Some (dy, EmptyString) |} |}.

(** The application after engine calls [evs] that left the desktop as
    [w]. *)
Definition after_calls {W : Type} (self : IntentApparatus W) (w : W)
           (evs : list event) : IntentApparatus W :=
  {| desktop := w;
     execution_history := execution_history self;
     trace := trace self ++ evs |}.

(** An engine for examples whose every call is interrupted from the
    keyboard. *)
Definition interrupted_engine : EngineOf BaseException unit :=
  let interrupted {A : Type} (w : unit)
    : unit * result BaseException A := (w, Raise KeyboardInterrupt) in
  {| click_at_position := fun _ _ _ => interrupted;
     type_text := fun _ => interrupted;
     press_key := fun _ => interrupted;
     key_combination := fun _ => interrupted;
     scroll := fun _ _ => interrupted;
     move_mouse := fun _ _ => interrupted;
     take_screenshot := interrupted |}.

(** [c.isascii()]: a code point below 128.  On such characters the
    comparison of [re.IGNORECASE] is that of the letters A to Z with a to z,
    and [str.lower] agrees with it. *)
Definition isascii (c : ascii) : bool := (Char.code c <? 128)%N.

(* ================================================================== *)
(** * Properties *)

Unset Implicit Arguments.

(** ** Lower-casing and trimming *)

Section Normalisation.

Lemma char_lower_idem (c : ascii) : Char.lower (Char.lower c) = Char.lower c.
Proof. destruct c as [[] [] [] [] [] [] [] []]; reflexivity. Qed.

Lemma isspace_char_lower (c : ascii) :
  Char.isspace (Char.lower c) = Char.isspace c.
Proof. destruct c as [[] [] [] [] [] [] [] []]; reflexivity. Qed.

Lemma lower_idem (s : string) : lower (lower s) = lower s.
Proof.
  induction s as [|c s IH]; simpl; [reflexivity|].
  now rewrite char_lower_idem, IH.
Qed.

Lemma lower_append (s t : string) : lower (s ++ t) = lower s ++ lower t.
Proof. induction s as [|c s IH]; simpl; [reflexivity | now rewrite IH]. Qed.

Lemma all_space_lower (s : string) :
  all_chars Char.isspace (lower s) = all_chars Char.isspace s.
Proof.
  induction s as [|c s IH]; simpl; [reflexivity|].
  now rewrite isspace_char_lower, IH.
Qed.

Lemma lstrip_lower (s : string) : lstrip (lower s) = lower (lstrip s).
Proof.
  induction s as [|c s IH]; simpl; [reflexivity|].
  rewrite isspace_char_lower.
  destruct (Char.isspace c); [exact IH | reflexivity].
Qed.

Lemma rstrip_lower (s : string) : rstrip (lower s) = lower (rstrip s).
Proof.
  induction s as [|c s IH]; simpl; [reflexivity|].
  rewrite IH, isspace_char_lower.
  destruct (rstrip s); simpl; [destruct (Char.isspace c)|]; reflexivity.
Qed.

Lemma strip_lower (s : string) : strip (lower s) = lower (strip s).
Proof. unfold strip. now rewrite lstrip_lower, rstrip_lower. Qed.

Lemma lstrip_no_leading_blank (s : string) : no_leading_blank (lstrip s).
Proof.
  induction s as [|c s IH]; simpl; [exact I|].
  destruct (Char.isspace c) eqn:E; [exact IH | exact E].
Qed.

Lemma rstrip_no_leading_blank (s : string) :
  no_leading_blank s -> no_leading_blank (rstrip s).
Proof.
  destruct s as [|c s]; simpl; [trivial|].
  intros E. destruct (rstrip s); simpl; [rewrite E|]; exact E.
Qed.

Lemma lstrip_fixed (s : string) : no_leading_blank s -> lstrip s = s.
Proof. destruct s as [|c s]; simpl; [trivial | now intros ->]. Qed.

Lemma rstrip_idem (s : string) : rstrip (rstrip s) = rstrip s.
Proof.
  induction s as [|c s IH]; simpl; [reflexivity|].
  destruct (rstrip s) as [|d t] eqn:E.
  - destruct (Char.isspace c) eqn:B; simpl; [reflexivity | now rewrite B].
  - change (rstrip (String c (String d t))) with
      (match rstrip (String d t) with
       | EmptyString =>
           if Char.isspace c then EmptyString else String c EmptyString
       | u => String c u
       end).
    now rewrite IH.
Qed.

Lemma strip_idem (s : string) : strip (strip s) = strip s.
Proof.
  unfold strip.
  rewrite (lstrip_fixed (rstrip (lstrip s))).
  - apply rstrip_idem.
  - apply rstrip_no_leading_blank, lstrip_no_leading_blank.
Qed.

Lemma lstrip_blank (ws : string) :
  all_chars Char.isspace ws = true -> lstrip ws = EmptyString.
Proof.
  induction ws as [|c ws IH]; simpl; [reflexivity|].
  intros H. apply andb_prop in H as [-> H]. now apply IH.
Qed.

Lemma rstrip_blank (ws : string) :
  all_chars Char.isspace ws = true -> rstrip ws = EmptyString.
Proof.
  induction ws as [|c ws IH]; simpl; [reflexivity|].
  intros H. apply andb_prop in H as [-> H]. now rewrite IH.
Qed.

Lemma lstrip_blank_prefix (ws s : string) :
  all_chars Char.isspace ws = true -> lstrip (ws ++ s) = lstrip s.
Proof.
  induction ws as [|c ws IH]; simpl; [reflexivity|].
  intros H. apply andb_prop in H as [-> H]. now apply IH.
Qed.

Lemma rstrip_blank_suffix (s ws : string) :
  all_chars Char.isspace ws = true -> rstrip (s ++ ws) = rstrip s.
Proof.
  intros H. induction s as [|c s IH]; simpl.
  - now apply rstrip_blank.
  - now rewrite IH.
Qed.

Lemma strip_blank_suffix (s ws : string) :
  all_chars Char.isspace ws = true -> strip (s ++ ws) = strip s.
Proof.
  intros H. unfold strip. induction s as [|c s IH]; simpl.
  - now rewrite (lstrip_blank ws H).
  - destruct (Char.isspace c); [exact IH|].
    now apply (rstrip_blank_suffix (String c s)).
Qed.

Lemma strip_blank_around (pre s post : string) :
  all_chars Char.isspace pre = true ->
  all_chars Char.isspace post = true ->
  strip (pre ++ s ++ post) = strip s.
Proof.
  intros Hpre Hpost. unfold strip at 1.
  rewrite lstrip_blank_prefix by assumption.
  now apply strip_blank_suffix.
Qed.

Lemma strip_blank (ws : string) :
  all_chars Char.isspace ws = true -> strip ws = EmptyString.
Proof. intros H. unfold strip. now rewrite lstrip_blank. Qed.

End Normalisation.

(** ** What a successful match says *)

Module re_facts.
Import re re_spec.

Lemma star_sound (A : Type) (cl : cset) (k : string -> option A) (x : A) :
  forall s, star cl s k = Some x ->
            exists s', run_of cl s s' /\ k s' = Some x.
Proof.
  induction s as [|a s IH]; simpl; intros H.
  - exists EmptyString. split; [constructor | assumption].
  - destruct (member cl a) eqn:E.
    + destruct (star cl s k) as [y|] eqn:E2.
      * injection H as ->. destruct (IH eq_refl) as (s' & R & K).
        exists s'. split; [now constructor | assumption].
      * exists (String a s). split; [constructor | assumption].
    + exists (String a s). split; [constructor | assumption].
Qed.

(** Whatever [run] finds is a match in the sense of [matches], and the
    continuation accepted what was left. *)
Lemma run_sound (A : Type) (r : regex) :
  forall s c (k : string -> captures -> option A) x,
    run r s c k = Some x ->
    exists s' c', matches r s c s' c' /\ k s' c' = Some x.
Proof.
  induction r as [p|cl|cl|cl|r1 IH1 r2 IH2|r1 IH1 r2 IH2|r IH|g r IH];
    intros s c k x H; simpl in H.
  - destruct (lit p s) as [s'|] eqn:E; [|discriminate].
    exists s', c. split; [now constructor | assumption].
  - destruct s as [|a s]; [discriminate|].
    destruct (member cl a) eqn:E; [|discriminate].
    exists s, c. split; [now constructor | assumption].
  - destruct s as [|a s]; [discriminate|].
    destruct (member cl a) eqn:E; [|discriminate].
    apply star_sound in H as (s' & R & K).
    exists s', c. split; [now constructor | assumption].
  - apply star_sound in H as (s' & R & K).
    exists s', c. split; [now constructor | assumption].
  - apply IH1 in H as (s1 & c1 & M1 & H).
    apply IH2 in H as (s2 & c2 & M2 & H).
    exists s2, c2. split; [econstructor; eassumption | assumption].
  - destruct (run r1 s c k) as [y|] eqn:E.
    + injection H as ->. apply IH1 in E as (s' & c' & M & K).
      exists s', c'. split; [now apply m_alt_l | assumption].
    + apply IH2 in H as (s' & c' & M & K).
      exists s', c'. split; [now apply m_alt_r | assumption].
  - destruct (run r s c k) as [y|] eqn:E.
    + injection H as ->. apply IH in E as (s' & c' & M & K).
      exists s', c'. split; [now apply m_opt_some | assumption].
    + exists s, c. split; [apply m_opt_none | assumption].
  - apply IH in H as (s' & c' & M & K).
    exists s', (set_capture g (s, s') c').
    split; [now constructor | assumption].
Qed.

Lemma match_here_sound (r : regex) (s : string) (m : Match) :
  match_here r s = Some m ->
  exists s', matches r s no_captures s' (caps m)
             /\ groups_count m = ngroups r /\ whole m = (s, s').
Proof.
  unfold match_here. intros H.
  apply run_sound in H as (s' & c' & M & K).
  injection K as <-. exists s'. now repeat split.
Qed.

(** [re.search] finds a match that starts at some suffix of the subject. *)
Lemma search_sound (r : regex) (m : Match) :
  forall s, search r s = Some m ->
    exists pre s0 s', s = pre ++ s0
                      /\ matches r s0 no_captures s' (caps m)
                      /\ groups_count m = ngroups r /\ whole m = (s0, s').
Proof.
  induction s as [|a s IH]; simpl; intros H.
  - destruct (match_here r EmptyString) as [m'|] eqn:E; [|discriminate].
    injection H as ->. apply match_here_sound in E as (s' & M & G & Wh).
    exists EmptyString, EmptyString, s'. now repeat split.
  - destruct (match_here r (String a s)) as [m'|] eqn:E.
    + injection H as ->. apply match_here_sound in E as (s' & M & G & Wh).
      exists EmptyString, (String a s), s'. now repeat split.
    + apply IH in H as (pre & s0 & s' & -> & M & G & Wh).
      exists (String a pre), s0, s'. now repeat split.
Qed.

(** *** Spans *)

Lemma length_append (s t : string) :
  String.length (s ++ t) = String.length s + String.length t.
Proof. induction s as [|a s IH]; simpl; [reflexivity | now rewrite IH]. Qed.

Lemma substring_prefix (t s : string) :
  substring 0 (String.length t) (t ++ s) = t.
Proof.
  induction t as [|a t IH]; simpl.
  - destruct s; reflexivity.
  - now rewrite IH.
Qed.

Lemma consumed_append (t s : string) : consumed (t ++ s, s) = t.
Proof.
  unfold consumed; simpl. rewrite length_append.
  replace (String.length t + String.length s - String.length s)
    with (String.length t) by lia.
  apply substring_prefix.
Qed.

Lemma append_assoc (s t u : string) : (s ++ t) ++ u = s ++ t ++ u.
Proof. induction s as [|a s IH]; simpl; [reflexivity | now rewrite IH]. Qed.

Lemma lit_prefix (p : string) :
  forall s s', lit p s = Some s' ->
               exists t, s = t ++ s' /\ lower t = lower p.
Proof.
  induction p as [|c p IH]; simpl; intros s s' H.
  - injection H as ->. now exists EmptyString.
  - destruct s as [|a s]; [discriminate|].
    destruct (Ascii.eqb (Char.lower a) (Char.lower c)) eqn:E; [|discriminate].
    apply Ascii.eqb_eq in E. apply IH in H as (t & -> & L).
    exists (String a t). simpl. now rewrite E, L.
Qed.

Lemma run_of_prefix (cl : cset) (s s' : string) :
  run_of cl s s' ->
  exists t, s = t ++ s' /\ all_chars (member cl) t = true.
Proof.
  induction 1 as [s|a s s' E R (t & -> & IH)].
  - now exists EmptyString.
  - exists (String a t). simpl. now rewrite E, IH.
Qed.

(** A match consumes a prefix of its subject. *)
Lemma matches_prefix (r : regex) (s s' : string) (c c' : captures) :
  matches r s c s' c' -> exists t, s = t ++ s'.
Proof.
  induction 1 as
    [p s s' c L|cl a s c E|cl a s s' c E R|cl s s' c R
    |r1 r2 s c s1 c1 s2 c2 _ (t1 & ->) _ (t2 & ->)
    |r1 r2 s c s' c' _ IH|r1 r2 s c s' c' _ IH
    |r s c s' c' _ IH|r s c|g r s c s' c' _ IH];
    try assumption.
  - apply lit_prefix in L as (t & -> & _). now exists t.
  - now exists (String a EmptyString).
  - apply run_of_prefix in R as (t & -> & _). now exists (String a t).
  - apply run_of_prefix in R as (t & -> & _). now exists t.
  - exists (t1 ++ t2). now rewrite append_assoc.
  - now exists EmptyString.
Qed.

(** A group that a pattern always sets, or that was set before, is set
    after a match. *)
Lemma matches_binds (g : gid) (r : regex) (s s' : string) (c c' : captures) :
  matches r s c s' c' ->
  binds g r = true \/ capture g c <> None ->
  capture g c' <> None.
Proof.
  induction 1 as
    [p s s' c L|cl a s c E|cl a s s' c E R|cl s s' c R
    |r1 r2 s c s1 c1 s2 c2 _ IH1 _ IH2
    |r1 r2 s c s' c' _ IH|r1 r2 s c s' c' _ IH
    |r s c s' c' _ IH|r s c|g' r s c s' c' _ IH];
    simpl; intros [B|B]; try discriminate; try assumption.
  - apply orb_prop in B as [B|B]; [apply IH2; right; apply IH1|apply IH2];
      now left.
  - apply IH2. right. apply IH1. now right.
  - apply andb_prop in B as [B _]. apply IH. now left.
  - apply IH. now right.
  - apply andb_prop in B as [_ B]. apply IH. now left.
  - apply IH. now right.
  - (* an optional part may set the group and be kept, but need not *)
    destruct (capture g c') eqn:E; [discriminate|].
    exfalso. now apply IH; [right|].
  - destruct g, g'; simpl; try discriminate; apply IH; now left.
  - destruct g, g'; simpl; try discriminate; apply IH; now right.
Qed.

(** *** Completeness: a match that exists is not missed *)

Lemma star_complete (A : Type) (cl : cset) (k : string -> option A)
      (s s' : string) :
  run_of cl s s' -> k s' <> None -> star cl s k <> None.
Proof.
  induction 1 as [s|a s s' E R IH]; intros K.
  - destruct s as [|a s]; simpl; [assumption|].
    destruct (member cl a); [|assumption].
    destruct (star cl s k); [discriminate | assumption].
  - simpl. rewrite E. specialize (IH K).
    destruct (star cl s k); [discriminate | contradiction].
Qed.

(** If [r] can match at the head of [s] in a way the continuation accepts,
    [run] finds a match (that one or one it prefers). *)
Lemma run_complete (r : regex) (s s' : string) (c c' : captures) :
  matches r s c s' c' ->
  forall (A : Type) (k : string -> captures -> option A),
    k s' c' <> None -> run r s c k <> None.
Proof.
  induction 1 as
    [p s s' c L|cl a s c E|cl a s s' c E R|cl s s' c R
    |r1 r2 s c s1 c1 s2 c2 _ IH1 _ IH2
    |r1 r2 s c s' c' _ IH|r1 r2 s c s' c' _ IH
    |r s c s' c' _ IH|r s c|g r s c s' c' _ IH];
    intros A k K; simpl.
  - now rewrite L.
  - now rewrite E.
  - rewrite E. now apply star_complete with (s' := s').
  - now apply star_complete with (s' := s').
  - apply IH1. now apply IH2.
  - specialize (IH A k K). destruct (run r1 s c k); [discriminate | contradiction].
  - destruct (run r1 s c k); [discriminate | now apply IH].
  - specialize (IH A k K). destruct (run r s c k); [discriminate | contradiction].
  - destruct (run r s c k); [discriminate | assumption].
  - now apply IH.
Qed.

Lemma search_here (r : regex) (s : string) :
  match_here r s <> None -> search r s <> None.
Proof.
  destruct s; simpl; destruct (match_here r _); intros H;
    try discriminate; contradiction.
Qed.

(** A match that exists at some position makes [re.search] succeed. *)
Lemma search_complete (r : regex) (s0 s' : string) (c' : captures) :
  matches r s0 no_captures s' c' ->
  forall pre, search r (pre ++ s0) <> None.
Proof.
  intros M. induction pre as [|a pre IH]; simpl.
  - apply search_here. unfold match_here.
    apply (run_complete _ _ _ _ _ M). discriminate.
  - destruct (match_here r (String a (pre ++ s0))); [discriminate | exact IH].
Qed.

(** *** Lower-case subjects and patterns without groups *)

Lemma lower_fixed_split (t s : string) :
  lower (t ++ s) = t ++ s -> lower t = t /\ lower s = s.
Proof.
  induction t as [|a t IH]; simpl; intros H; [now split|].
  injection H as Ha Hs. apply IH in Hs as [Ht Hs].
  split; [now rewrite Ha, Ht | assumption].
Qed.

Lemma matches_lower_fixed (r : regex) (s s' : string) (c c' : captures) :
  matches r s c s' c' -> lower s = s -> lower s' = s'.
Proof.
  intros M L. apply matches_prefix in M as (t & ->).
  now apply lower_fixed_split in L.
Qed.

(** A pattern without groups leaves the captures as they are. *)
Lemma matches_no_groups (r : regex) (s s' : string) (c c' : captures) :
  matches r s c s' c' -> ngroups r = 0 -> c' = c.
Proof.
  induction 1 as
    [p s s' c L|cl a s c E|cl a s s' c E R|cl s s' c R
    |r1 r2 s c s1 c1 s2 c2 _ IH1 _ IH2
    |r1 r2 s c s' c' _ IH|r1 r2 s c s' c' _ IH
    |r s c s' c' _ IH|r s c|g r s c s' c' _ IH];
    simpl; intros N; try reflexivity; try discriminate.
  - rewrite IH2, IH1 by lia. reflexivity.
  - apply IH. lia.
  - apply IH. lia.
  - now apply IH.
Qed.

End re_facts.

(** Proof steps for matches of the patterns of the table: a sequence is
    split into its parts, the lower-case property is carried along the
    parts, groups are opened, and parts without groups are dropped. *)

Ltac split_matches :=
  repeat match goal with
         | H : re_spec.matches (re.Seq _ _) _ _ _ _ |- _ => inversion H; subst; clear H
         end.

Ltac carry_lower :=
  repeat match goal with
         | H : re_spec.matches _ ?s _ ?s' _, L : lower ?s = ?s |- _ =>
             lazymatch goal with
             | _ : lower s' = s' |- _ => fail
             | _ => pose proof (re_facts.matches_lower_fixed _ _ _ _ _ H L)
             end
         end.

Ltac open_groups :=
  repeat match goal with
         | H : re_spec.matches (re.Group _ _) _ _ _ _ |- _ => inversion H; subst; clear H
         end.

Ltac drop_plain :=
  repeat match goal with
         | H : re_spec.matches (re.Lit _) _ _ _ _ |- _ =>
             apply re_facts.matches_no_groups in H; [subst | reflexivity]
         | H : re_spec.matches (re.Plus _) _ _ _ _ |- _ =>
             apply re_facts.matches_no_groups in H; [subst | reflexivity]
         | H : re_spec.matches (re.Star _) _ _ _ _ |- _ =>
             apply re_facts.matches_no_groups in H; [subst | reflexivity]
         | H : re_spec.matches (re.Opt (re.Lit _)) _ _ _ _ |- _ =>
             apply re_facts.matches_no_groups in H; [subst | reflexivity]
         end.

(** ** The traversal of the rule table *)

Section Traversal.

Lemma first_intent_app (command : string) (rs1 rs2 : list rule) :
  first_intent command (rs1 ++ rs2) =
  let* found := first_intent command rs1 in
  match found with
  | Some intent => Return (Some intent)
  | None => first_intent command rs2
  end.
Proof.
  induction rs1 as [|r rs1 IH]; simpl; [reflexivity|].
  destruct (apply_rule command r) as [[i|]|e]; simpl; auto.
Qed.

Lemma for_patterns_first_intent (a : string) (ps : list (re.regex * string))
      (command : string) :
  for_patterns a ps command =
  first_intent command (map (fun '(p, t) => (a, p, t)) ps).
Proof.
  induction ps as [|[p t] ps IH]; simpl; [reflexivity|].
  unfold apply_rule, rule_pattern, rule_pattern_type, rule_action_type; simpl.
  destruct (re.search p command) as [m|]; simpl; [|exact IH].
  destruct (_extract_parameters m t a) as [[d|]|e]; simpl; auto.
Qed.

Lemma for_action_types_first_intent
      (table : list (string * list (re.regex * string))) (command : string) :
  for_action_types table command = first_intent command (rules_of table).
Proof.
  induction table as [|[a ps] table IH]; simpl; [reflexivity|].
  rewrite first_intent_app, for_patterns_first_intent, IH. reflexivity.
Qed.

(** [parse_command] on a command whose trimmed lower-case form is not
    empty is the traversal of the table on that form. *)
Lemma parse_command_traversal (command : string) :
  strip (lower command) <> EmptyString ->
  parse_command command =
  first_intent (strip (lower command)) (rules_of _initialize_patterns).
Proof.
  intros H. unfold parse_command.
  rewrite <- for_action_types_first_intent.
  destruct (strip (lower command)); [contradiction | reflexivity].
Qed.

Lemma apply_rule_no_match (command : string) (r : rule) :
  re.search (rule_pattern r) command = None ->
  apply_rule command r = Return None.
Proof. unfold apply_rule. now intros ->. Qed.

Lemma first_intent_none (command : string) (rs : list rule) :
  (forall r, In r rs -> apply_rule command r = Return None) ->
  first_intent command rs = Return None.
Proof.
  induction rs as [|r rs IH]; simpl; intros H; [reflexivity|].
  rewrite (H r) by now left. simpl. apply IH. intros r' Hr'. apply H. now right.
Qed.

(** Rules that give no intent are passed over. *)
Lemma first_intent_skip (command : string) (before : list rule) (r : rule)
      (after : list rule) :
  (forall r', In r' before -> apply_rule command r' = Return None) ->
  first_intent command (before ++ r :: after) =
  let* found := apply_rule command r in
  match found with
  | Some intent => Return (Some intent)
  | None => first_intent command after
  end.
Proof.
  intros H. rewrite first_intent_app, (first_intent_none _ _ H). reflexivity.
Qed.

(** No pattern of the table matches the empty text. *)
Lemma table_needs_text (r : rule) :
  In r (rules_of _initialize_patterns) ->
  re.search (rule_pattern r) EmptyString = None.
Proof.
  intros H.
  assert (F : forallb (fun r => match re.search (rule_pattern r) EmptyString with
                                | None => true
                                | Some _ => false
                                end)
                      (rules_of _initialize_patterns) = true)
    by reflexivity.
  rewrite forallb_forall in F. specialize (F r H).
  now destruct (re.search (rule_pattern r) EmptyString).
Qed.

End Traversal.

(** ** [parse_command] never raises *)

Section NoException.
Import re re_spec re_facts.

Lemma benign_bind (A B : Type) (m : result exn A) (f : A -> result exn B) :
  benign m -> (forall a, m = Return a -> benign (f a)) -> benign (bind m f).
Proof. destruct m as [a|e]; simpl; auto. Qed.

Lemma benign_int (v : option string) : v <> None -> benign (int v).
Proof.
  destruct v as [s|]; [intros _|congruence]. unfold int, int_of_str.
  destruct s; simpl; [exact I|].
  repeat match goal with |- context [if ?b then _ else _] => destruct b end;
    exact I.
Qed.

Lemma benign_lower_of (v : option string) : v <> None -> benign (lower_of v).
Proof. destruct v; [intros _; exact I | congruence]. Qed.

Lemma benign_group (m : Match) (n : nat) : benign (group m n).
Proof.
  unfold group. destruct (Nat.ltb (groups_count m) n); [exact I|].
  destruct n as [|[|n]]; exact I.
Qed.

Lemma group_1 (m : Match) (v : option string) :
  group m 1 = Return v -> cap1 (caps m) <> None -> v <> None.
Proof.
  unfold group. destruct (Nat.ltb (groups_count m) 1); [discriminate|].
  intros [= <-]. now destruct (cap1 (caps m)).
Qed.

Lemma group_2 (m : Match) (v : option string) :
  group m 2 = Return v -> cap2 (caps m) <> None -> v <> None.
Proof.
  unfold group. destruct (Nat.ltb (groups_count m) 2); [discriminate|].
  intros [= <-]. now destruct (cap2 (caps m)).
Qed.

Lemma benign_extract_body (m : Match) (pattern_type : string) :
  (reads_group pattern_type G1 = true -> cap1 (caps m) <> None) ->
  (reads_group pattern_type G2 = true -> cap2 (caps m) <> None) ->
  benign (extract_body m pattern_type).
Proof.
  unfold extract_body, reads_group; simpl existsb. intros H1 H2.
  repeat match goal with
         | |- context [String.eqb pattern_type ?k] =>
             destruct (String.eqb pattern_type k) eqn:?
         end;
    repeat first
      [ exact I
      | apply benign_bind; [|intros ? ?]
      | apply benign_group
      | apply benign_int
      | apply benign_lower_of
      | match goal with
        | |- benign (if ?b then _ else _) => destruct b eqn:?
        end
      | match goal with
        | Ha : group m 2 = Return ?a, Hb : group m 2 = Return ?b,
          T : truthy ?a = true |- ?b <> None =>
            rewrite Ha in Hb; injection Hb as <-;
            destruct a; [discriminate | discriminate T]
        end
      | eapply group_1; [eassumption|]; apply H1;
        rewrite ?orb_true_r; reflexivity
      | eapply group_2; [eassumption|]; apply H2;
        rewrite ?orb_true_r; reflexivity ].
Qed.

Lemma extract_parameters_returns (m : Match) (pattern_type a : string) :
  benign (extract_body m pattern_type) ->
  exists d, _extract_parameters m pattern_type a = Return d.
Proof.
  unfold _extract_parameters.
  destruct (extract_body m pattern_type) as [d|[]]; simpl; intros H;
    try contradiction; eauto.
Qed.

Lemma apply_rule_returns (command : string) (r : rule) :
  well_formed_rule r = true ->
  exists x, apply_rule command r = Return x.
Proof.
  unfold well_formed_rule, apply_rule. intros WF.
  apply andb_prop in WF as [WF1 WF2].
  destruct (search (rule_pattern r) command) as [m|] eqn:S; [|eauto].
  apply search_sound in S as (pre & s0 & s' & _ & M & _ & _).
  destruct (extract_parameters_returns m (rule_pattern_type r)
                                       (rule_action_type r)) as [d ->].
  - apply benign_extract_body; intros R; rewrite R in *; simpl in *.
    + now apply (matches_binds G1 _ _ _ _ _ M); left.
    + now apply (matches_binds G2 _ _ _ _ _ M); left.
  - simpl. eauto.
Qed.

Lemma first_intent_returns (command : string) (rs : list rule) :
  forallb well_formed_rule rs = true ->
  exists x, first_intent command rs = Return x.
Proof.
  induction rs as [|r rs IH]; simpl; intros H; [eauto|].
  apply andb_prop in H as [Hr Hrs].
  destruct (apply_rule_returns command r Hr) as [[i|] ->]; simpl; eauto.
Qed.

(** Every rule of the table is well formed, so [parse_command] always
    returns: the exceptions that [_extract_parameters] does not catch
    cannot arise. *)
Lemma parse_command_returns (command : string) :
  exists x, parse_command command = Return x.
Proof.
  unfold parse_command.
  destruct (strip (lower command)) as [|a s]; [eauto|].
  rewrite for_action_types_first_intent.
  apply first_intent_returns. reflexivity.
Qed.

End NoException.

(** ** What reaches [int] *)

Section IntArguments.
Import re re_spec re_facts.

Lemma plus_digit_run (s s' : string) (c c' : captures) :
  matches (Plus Digit) s c s' c' -> digit_run (consumed (s, s')).
Proof.
  intros M.
  inversion M as [| |cl a s0 s1 c0 E R| | | | | | |]; subst.
  apply run_of_prefix in R as (t & -> & D).
  change (String a (t ++ s')) with (String a t ++ s').
  rewrite consumed_append. split; [discriminate|].
  simpl. simpl in E. rewrite E. exact D.
Qed.

(** A pattern whose groups [g] are all [(\d+)] keeps [g] unset or a run of
    digits. *)
Lemma matches_digits (g : gid) (r : regex) (s s' : string) (c c' : captures) :
  matches r s c s' c' ->
  digits_only g r = true -> holds_digits g c -> holds_digits g c'.
Proof.
  induction 1 as
    [p s s' c L|cl a s c E|cl a s s' c E R|cl s s' c R
    |r1 r2 s c s1 c1 s2 c2 _ IH1 _ IH2
    |r1 r2 s c s' c' _ IH|r1 r2 s c s' c' _ IH
    |r s c s' c' _ IH|r s c|g' r s c s' c' M IH];
    simpl; intros D H; try assumption.
  - apply andb_prop in D as [D1 D2]. auto.
  - apply andb_prop in D as [D1 D2]. auto.
  - apply andb_prop in D as [D1 D2]. auto.
  - auto.
  - unfold holds_digits in *.
    destruct g, g'; simpl in *; try (apply IH; assumption);
      destruct r as [| |[]| | | | |]; simpl in D; try discriminate D;
      exact (plus_digit_run _ _ _ _ M).
Qed.

(** In the rule table, every group that a pattern type converts with [int]
    is a run of digits in the pattern. *)
Lemma table_converts_digits (r : rule) (g : gid) :
  In r (rules_of _initialize_patterns) ->
  converts_group (rule_pattern_type r) g = true ->
  digits_only g (rule_pattern r) = true.
Proof.
  intros Hin.
  assert (F : forallb (fun r => implb (converts_group (rule_pattern_type r) G1)
                                      (digits_only G1 (rule_pattern r))
                                && implb (converts_group (rule_pattern_type r) G2)
                                         (digits_only G2 (rule_pattern r)))
                      (rules_of _initialize_patterns) = true)
    by reflexivity.
  rewrite forallb_forall in F. specialize (F r Hin).
  apply andb_prop in F as [F1 F2].
  destruct g; intros C; rewrite C in *; assumption.
Qed.

(** So whatever a rule of the table hands to [int] is a group that took no
    part, or a non-empty run of decimal digits: the texts on which
    [int_of_str] is written out. *)
Lemma int_arguments_are_digit_runs (r : rule) (g : gid) (c : string)
      (m : Match) :
  In r (rules_of _initialize_patterns) ->
  converts_group (rule_pattern_type r) g = true ->
  search (rule_pattern r) c = Some m ->
  holds_digits g (caps m).
Proof.
  intros Hin C S.
  apply search_sound in S as (pre & s0 & s' & _ & M & _ & _).
  apply (matches_digits g _ _ _ _ _ M).
  - now apply table_converts_digits.
  - destruct g; exact I.
Qed.

Lemma int_of_digit_run (s : string) :
  digit_run s ->
  int_of_str s
  = if Nat.ltb int_max_str_digits (String.length s)
    then Raise ValueError
    else Return (decimal_value 0 s).
Proof.
  intros [N D]. unfold int_of_str.
  destruct s; [contradiction|]. now rewrite D.
Qed.

End IntArguments.

(** ** The interpreter *)

Lemma normal_form_idem (command : string) :
  strip (lower (strip (lower command))) = strip (lower command).
Proof. now rewrite <- strip_lower, lower_idem, strip_idem. Qed.

Lemma normal_form_fixed (command : string) :
  lower (strip (lower command)) = strip (lower command).
Proof. now rewrite <- strip_lower, lower_idem. Qed.

Lemma parse_command_ext (c1 c2 : string) :
  strip (lower c1) = strip (lower c2) -> parse_command c1 = parse_command c2.
Proof. unfold parse_command. now intros ->. Qed.

(** C6.  Normalisation invariance: [parse_command] gives the same outcome for
    a command and for its trimmed, lower-case form; blanks added before and
    after a command, and a change of letter case, do not change the outcome;
    and a command that is empty or all blanks gives [None] at once. *)
Theorem parse_command_normalisation_invariant
        (command pre post other blank : string)
        (Hpre : all_chars Char.isspace pre = true)
        (Hpost : all_chars Char.isspace post = true)
        (Hcase : lower other = lower command)
        (Hblank : all_chars Char.isspace blank = true) :
  parse_command command = parse_command (strip (lower command))
  /\ parse_command (pre ++ command ++ post) = parse_command command
  /\ parse_command other = parse_command command
  /\ parse_command blank = Return None.
Proof.
  repeat split.
  - apply parse_command_ext. symmetry. apply normal_form_idem.
  - apply parse_command_ext.
    rewrite !lower_append.
    apply strip_blank_around; now rewrite all_space_lower.
  - apply parse_command_ext. now rewrite Hcase.
  - unfold parse_command.
    rewrite strip_blank by now rewrite all_space_lower.
    reflexivity.
Qed.

Lemma parse_command_normalisation_invariant_witness :
  parse_command "Press ESC" = parse_command "press esc"
  /\ parse_command ("  " ++ "Press ESC" ++ " ") = parse_command "Press ESC"
  /\ parse_command "pRESS eSC" = parse_command "Press ESC"
  /\ parse_command "   " = Return None.
Proof.
  apply (parse_command_normalisation_invariant
           "Press ESC" "  " " " "pRESS eSC" "   ");
    reflexivity.
Defined.

Lemma first_intent_found (command : string) (intent : ParsedIntent) :
  forall rs, first_intent command rs = Return (Some intent) ->
             exists r, In r rs /\ apply_rule command r = Return (Some intent).
Proof.
  induction rs as [|r rs IH]; simpl; [discriminate|].
  destruct (apply_rule command r) as [[i|]|e] eqn:E; simpl; intros H.
  - injection H as ->. exists r. split; [now left | assumption].
  - destruct (IH H) as (r' & Hin & Hr'). exists r'. split; [now right | assumption].
  - discriminate.
Qed.

Lemma apply_rule_matched (command : string) (r : rule) (intent : ParsedIntent) :
  apply_rule command r = Return (Some intent) ->
  exists m p, re.search (rule_pattern r) command = Some m
              /\ _extract_parameters m (rule_pattern_type r)
                                     (rule_action_type r) = Return (Some p)
              /\ intent = {| action_type := rule_action_type r;
                             parameters := p;
                             confidence := 8 # 10;
                             raw_command := command |}.
Proof.
  unfold apply_rule.
  destruct (re.search (rule_pattern r) command) as [m|]; [|discriminate].
  destruct (_extract_parameters m (rule_pattern_type r) (rule_action_type r))
    as [[p|]|e] eqn:X; simpl; try discriminate.
  intros [= E]. exists m, p. repeat split; [assumption | now symmetry].
Qed.

(** C2.  The action types are visited in the order click, type, key, scroll,
    move, screenshot, the rules of each in the order listed, and the intent
    returned is that of the first rule whose pattern matches: when no rule
    before [r] matches the command and [r] gives [intent], [parse_command]
    returns [intent].  For [right click at 10,20] that rule is the right-click
    rule, with the right button, although the pattern of the generic click
    rule, declared after it, matches the command as well. *)
Theorem first_matching_rule_wins
        (command : string) (before : list rule) (r : rule) (after : list rule)
        (intent : ParsedIntent)
        (Htable : rules_of _initialize_patterns = (before ++ r :: after)%list)
        (Hbefore : forall r', In r' before ->
                     re.search (rule_pattern r') (strip (lower command)) = None)
        (Hrule : apply_rule (strip (lower command)) r = Return (Some intent)) :
  map fst _initialize_patterns
  = ["click"; "type"; "key"; "scroll"; "move"; "screenshot"]
  /\ map (fun r => (rule_action_type r, rule_pattern_type r))
         (rules_of _initialize_patterns)
     = [ ("click", "right_coordinates"); ("click", "double_coordinates");
         ("click", "coordinates");
         ("type", "text"); ("type", "text"); ("type", "text"); ("type", "text");
         ("key", "single_key"); ("key", "single_key");
         ("key", "key_combo"); ("key", "key_combo");
         ("scroll", "direction"); ("scroll", "direction_count");
         ("move", "coordinates"); ("move", "coordinates");
         ("screenshot", "simple"); ("screenshot", "simple");
         ("screenshot", "simple") ]
  /\ parse_command command = Return (Some intent)
  /\ parse_command "right click at 10,20"
     = Return (Some {| action_type := "click";
                       parameters := [("x", VInt 10); ("y", VInt 20);
                                      ("button", VStr "right")];
                       confidence := 8 # 10;
                       raw_command := "right click at 10,20" |})
  /\ apply_rule "right click at 10,20" ("click", right_click_pattern, "right_coordinates")
     = parse_command "right click at 10,20"
  /\ re.search click_pattern "right click at 10,20" <> None.
Proof.
  split; [reflexivity|]. split; [reflexivity|]. split; [|now repeat split].
  assert (Hne : strip (lower command) <> EmptyString).
  { intros E. rewrite E in Hrule.
    rewrite apply_rule_no_match in Hrule; [discriminate|].
    apply table_needs_text. rewrite Htable. apply in_or_app. right. now left. }
  rewrite (parse_command_traversal _ Hne), Htable, first_intent_skip.
  - now rewrite Hrule.
  - intros r' Hr'. apply apply_rule_no_match. now apply Hbefore.
Qed.

Lemma first_matching_rule_wins_witness :
  parse_command "Double click at 5,5"
  = Return (Some {| action_type := "click";
                    parameters := [("x", VInt 5); ("y", VInt 5);
                                   ("button", VStr "left"); ("clicks", VInt 2)];
                    confidence := 8 # 10;
                    raw_command := "double click at 5,5" |}).
Proof.
  refine (proj1 (proj2 (proj2
    (first_matching_rule_wins
       "Double click at 5,5"
       [("click", right_click_pattern, "right_coordinates")]
       ("click", double_click_pattern, "double_coordinates")
       (skipn 2 (rules_of _initialize_patterns))
       _ eq_refl _ eq_refl)))).
  intros r' [<-|[]]. reflexivity.
Defined.

Lemma conversion_fails_gives_none (command : string) (r : rule) :
  conversion_fails command r -> apply_rule command r = Return None.
Proof.
  unfold conversion_fails, apply_rule, _extract_parameters.
  destruct (re.search (rule_pattern r) command) as [m|]; [|contradiction].
  now intros ->.
Qed.

Lemma conversion_fails_matched (command : string) (r : rule) :
  conversion_fails command r -> re.search (rule_pattern r) command <> None.
Proof.
  unfold conversion_fails.
  now destruct (re.search (rule_pattern r) command).
Qed.

Lemma first_intent_without (command : string) (before : list rule) (r : rule)
      (after : list rule) :
  apply_rule command r = Return None ->
  first_intent command (before ++ r :: after)
  = first_intent command (before ++ after).
Proof.
  intros H. rewrite !first_intent_app. simpl. now rewrite H.
Qed.

(** C1, as the code has it.  When the pattern of a rule matches and the
    extraction of its parameters raises a value-conversion error, the rule
    counts as not matched and the traversal goes on with the rules after it,
    in its own and in every later action type: the outcome is that of the
    table without the rule. *)
Theorem conversion_failure_continues
        (command : string) (before : list rule) (r : rule) (after : list rule)
        (Htable : rules_of _initialize_patterns = (before ++ r :: after)%list)
        (Hfails : conversion_fails (strip (lower command)) r) :
  apply_rule (strip (lower command)) r = Return None
  /\ parse_command command
     = first_intent (strip (lower command)) (before ++ after).
Proof.
  pose proof (conversion_fails_gives_none _ _ Hfails) as Hnone.
  split; [assumption|].
  rewrite parse_command_traversal, Htable.
  - now apply first_intent_without.
  - intros E. apply (conversion_fails_matched _ _ Hfails).
    rewrite E. apply table_needs_text.
    rewrite Htable. apply in_or_app. right. now left.
Qed.

Lemma conversion_failure_continues_witness :
  parse_command long_number_command
  = first_intent (strip (lower long_number_command))
                 (firstn 2 (rules_of _initialize_patterns)
                  ++ skipn 3 (rules_of _initialize_patterns)).
Proof.
  refine (proj2 (conversion_failure_continues
                   long_number_command
                   (firstn 2 (rules_of _initialize_patterns))
                   ("click", click_pattern, "coordinates")
                   (skipn 3 (rules_of _initialize_patterns))
                   eq_refl _)).
  vm_compute. reflexivity.
Defined.

(** C1, as stated, fails.  In [long_number_command] the generic click rule
    matches and the conversion of its first number raises [ValueError]
    (the number has more digits than [int] accepts), yet [parse_command] does
    not return [None]: it goes on to the key rules and returns the key
    press. *)
Lemma conversion_failure_is_not_final :
  conversion_fails (strip (lower long_number_command))
                   ("click", click_pattern, "coordinates")
  /\ In ("click", click_pattern, "coordinates") (rules_of _initialize_patterns)
  /\ parse_command long_number_command <> Return None
  /\ exists intent,
       parse_command long_number_command = Return (Some intent)
       /\ action_type intent = "key"
       /\ parameters intent = [("key", VStr "enter")].
Proof.
  split; [vm_compute; reflexivity|].
  split; [right; right; left; reflexivity|].
  split; [vm_compute; discriminate|].
  eexists. split; [vm_compute; reflexivity|]. split; reflexivity.
Qed.

(** C4.  [press esc] and [press escape] give the same key, and [ctrl+c] gives
    the combination of [ctrl] and [c]; but [press ctrl+c] is taken by the
    single-key rule for [press], declared before the combination rule for
    [press], and gives the single key [ctrl]. *)
Theorem press_combination_is_single_key :
  parse_command "press esc"
  = Return (Some {| action_type := "key";
                    parameters := [("key", VStr "esc")];
                    confidence := 8 # 10;
                    raw_command := "press esc" |})
  /\ parse_command "press escape"
     = Return (Some {| action_type := "key";
                       parameters := [("key", VStr "esc")];
                       confidence := 8 # 10;
                       raw_command := "press escape" |})
  /\ parse_command "ctrl+c"
     = Return (Some {| action_type := "key";
                       parameters := [("keys", VList ["ctrl"; "c"])];
                       confidence := 8 # 10;
                       raw_command := "ctrl+c" |})
  /\ parse_command "press ctrl+c"
     = Return (Some {| action_type := "key";
                       parameters := [("key", VStr "ctrl")];
                       confidence := 8 # 10;
                       raw_command := "press ctrl+c" |})
  /\ apply_rule "press ctrl+c" ("key", press_combo_pattern, "key_combo")
     = Return (Some {| action_type := "key";
                       parameters := [("keys", VList ["ctrl"; "c"])];
                       confidence := 8 # 10;
                       raw_command := "press ctrl+c" |}).
Proof. repeat split. Qed.

(** ** The scroll rules *)

Section ScrollRules.
Import re re_spec re_facts.

(** What [up|down] consumes of a lower-case subject is [up] or [down]. *)
Lemma up_or_down_text (s s' : string) (c c' : captures) :
  matches up_or_down s c s' c' -> lower s = s ->
  consumed (s, s') = "up" \/ consumed (s, s') = "down".
Proof.
  unfold up_or_down. intros M L.
  inversion M as [| | | | |? ? ? ? ? ? M'|? ? ? ? ? ? M'| | |]; subst;
    inversion M' as [? ? ? ? P| | | | | | | | |]; subst;
    apply lit_prefix in P as (t & -> & P);
    apply lower_fixed_split in L as [Lt _];
    rewrite Lt in P; subst t; rewrite consumed_append; auto.
Qed.

(** After a match of the direction rule, group 1 is [up] or [down]. *)
Lemma scroll_direction_captures (s s' : string) (c' : captures) :
  matches scroll_direction_pattern s no_captures s' c' -> lower s = s ->
  exists d, (d = "up" \/ d = "down")
            /\ option_map consumed (cap1 c') = Some d.
Proof.
  unfold scroll_direction_pattern. intros M L.
  split_matches. carry_lower. open_groups.
  match goal with
  | H : matches up_or_down _ _ _ _ |- _ =>
      apply up_or_down_text in H; [|assumption]
  end.
  match goal with
  | H : matches (Opt _) _ _ _ _ |- _ => inversion H; subst; clear H
  end.
  - split_matches. open_groups. drop_plain. simpl.
    match goal with H : _ \/ _ |- _ => destruct H as [->| ->] end; eauto.
  - simpl.
    match goal with H : _ \/ _ |- _ => destruct H as [->| ->] end; eauto.
Qed.

(** After a match of the count rule, group 2 is [up] or [down]. *)
Lemma scroll_count_captures (s s' : string) (c' : captures) :
  matches scroll_count_pattern s no_captures s' c' -> lower s = s ->
  exists d, (d = "up" \/ d = "down")
            /\ option_map consumed (cap2 c') = Some d.
Proof.
  unfold scroll_count_pattern. intros M L.
  split_matches. carry_lower. open_groups.
  match goal with
  | H : matches up_or_down _ _ _ _ |- _ =>
      apply up_or_down_text in H; [|assumption]
  end.
  simpl.
  match goal with H : _ \/ _ |- _ => destruct H as [->| ->] end; eauto.
Qed.

Lemma group_of_two (m : Match) :
  groups_count m = 2 ->
  group m 1 = Return (option_map consumed (cap1 (caps m)))
  /\ group m 2 = Return (option_map consumed (cap2 (caps m))).
Proof. unfold group. now intros ->. Qed.

(** The parameters the direction rule gives. *)
Lemma scroll_direction_parameters (c a : string) (m : Match) (p : dict) :
  lower c = c ->
  search scroll_direction_pattern c = Some m ->
  _extract_parameters m "direction" a = Return (Some p) ->
  exists d n, (d = "up" \/ d = "down")
              /\ p = [("direction", VStr d); ("clicks", VInt n)]
              /\ (group m 2 = Return None -> n = 3%Z).
Proof.
  intros L S X.
  apply search_sound in S as (pre & s0 & s' & -> & M & G & _).
  apply lower_fixed_split in L as [_ L].
  destruct (scroll_direction_captures _ _ _ M L) as (d & Hd & C1).
  destruct (group_of_two m G) as [G1 G2].
  unfold _extract_parameters, extract_body in X. simpl in X.
  rewrite G1, G2, C1 in X. simpl in X.
  destruct (option_map consumed (cap2 (caps m))) as [g2|] eqn:C2; simpl in X.
  - destruct g2 as [|x g2]; simpl in X.
    + injection X as <-. exists d, 3%Z. now repeat split.
    + destruct (int_of_str (String x g2)) as [n|[]] eqn:I; simpl in X;
        try discriminate.
      injection X as <-. exists d, n.
      split; [assumption|]. split; [reflexivity|].
      rewrite G2. discriminate.
  - injection X as <-. exists d, 3%Z. now repeat split.
Qed.

(** The parameters the count rule gives. *)
Lemma scroll_count_parameters (c a : string) (m : Match) (p : dict) :
  lower c = c ->
  search scroll_count_pattern c = Some m ->
  _extract_parameters m "direction_count" a = Return (Some p) ->
  exists d n, (d = "up" \/ d = "down")
              /\ p = [("direction", VStr d); ("clicks", VInt n)].
Proof.
  intros L S X.
  apply search_sound in S as (pre & s0 & s' & -> & M & G & _).
  apply lower_fixed_split in L as [_ L].
  destruct (scroll_count_captures _ _ _ M L) as (d & Hd & C2).
  destruct (group_of_two m G) as [G1 G2].
  unfold _extract_parameters, extract_body in X. simpl in X.
  rewrite G1, G2, C2 in X. simpl in X.
  destruct (int (option_map consumed (cap1 (caps m)))) as [n|[]];
    simpl in X; try discriminate.
  injection X as <-. now exists d, n.
Qed.

End ScrollRules.

Lemma rules_before_scroll :
  rules_of _initialize_patterns
  = (firstn 11 (rules_of _initialize_patterns)
     ++ ("scroll", scroll_direction_pattern, "direction")
     :: skipn 12 (rules_of _initialize_patterns))%list.
Proof. reflexivity. Qed.

(** C5.  The two scroll rules give the same shape: [scroll 3 times up] and
    [scroll up 3] both give a scroll intent with direction [up] and count 3;
    and whenever the direction rule is the first rule to match a command and
    its count (group 2) is absent, as in [scroll up], the intent has
    the captured direction and the count 3. *)
Theorem scroll_shapes_agree
        (command : string) (m : re.Match)
        (Hearlier : forall r',
            In r' (firstn 11 (rules_of _initialize_patterns)) ->
            re.search (rule_pattern r') (strip (lower command)) = None)
        (Hmatch : re.search scroll_direction_pattern (strip (lower command))
                  = Some m)
        (Habsent : re.group m 2 = Return None) :
  parse_command "scroll 3 times up"
  = Return (Some {| action_type := "scroll";
                    parameters := [("direction", VStr "up"); ("clicks", VInt 3)];
                    confidence := 8 # 10;
                    raw_command := "scroll 3 times up" |})
  /\ parse_command "scroll up 3"
     = Return (Some {| action_type := "scroll";
                       parameters := [("direction", VStr "up"); ("clicks", VInt 3)];
                       confidence := 8 # 10;
                       raw_command := "scroll up 3" |})
  /\ parse_command "scroll up"
     = Return (Some {| action_type := "scroll";
                       parameters := [("direction", VStr "up"); ("clicks", VInt 3)];
                       confidence := 8 # 10;
                       raw_command := "scroll up" |})
  /\ exists d,
       (d = "up" \/ d = "down")
       /\ re.group m 1 = Return (Some d)
       /\ _extract_parameters m "direction" "scroll"
          = Return (Some [("direction", VStr d); ("clicks", VInt 3)])
       /\ parse_command command
          = Return (Some {| action_type := "scroll";
                            parameters := [("direction", VStr d);
                                           ("clicks", VInt 3)];
                            confidence := 8 # 10;
                            raw_command := strip (lower command) |}).
Proof.
  do 3 (split; [reflexivity|]).
  pose proof Hmatch as S.
  apply re_facts.search_sound in S as (pre & s0 & s' & E & M & G & _).
  pose proof (normal_form_fixed command) as L. rewrite E in L.
  apply re_facts.lower_fixed_split in L as [_ L].
  destruct (scroll_direction_captures _ _ _ M L) as (d & Hd & C1).
  destruct (group_of_two m G) as [G1 G2].
  assert (X : _extract_parameters m "direction" "scroll"
              = Return (Some [("direction", VStr d); ("clicks", VInt 3)])).
  { unfold _extract_parameters, extract_body. simpl.
    rewrite G1, C1, Habsent. reflexivity. }
  exists d. split; [assumption|]. split; [now rewrite G1, C1|].
  split; [assumption|].
  rewrite parse_command_traversal, rules_before_scroll, first_intent_skip.
  - unfold apply_rule, rule_pattern, rule_pattern_type, rule_action_type.
    simpl fst; simpl snd. rewrite Hmatch, X. reflexivity.
  - intros r' Hr'. apply apply_rule_no_match. now apply Hearlier.
  - intros Z. rewrite Z in Hmatch. discriminate.
Qed.

Lemma scroll_shapes_agree_witness :
  exists d,
    (d = "up" \/ d = "down")
    /\ parse_command " Scroll  DOWN "
       = Return (Some {| action_type := "scroll";
                         parameters := [("direction", VStr d);
                                        ("clicks", VInt 3)];
                         confidence := 8 # 10;
                         raw_command := "scroll  down" |}).
Proof.
  assert (H : forall r',
             In r' (firstn 11 (rules_of _initialize_patterns)) ->
             re.search (rule_pattern r') (strip (lower " Scroll  DOWN ")) = None).
  { intros r' Hr'.
    repeat (destruct Hr' as [<-|Hr']; [reflexivity|]). destruct Hr'. }
  destruct (scroll_shapes_agree
              " Scroll  DOWN "
              {| re.groups_count := 2;
                 re.whole := ("scroll  down", "");
                 re.caps := {| re.cap1 := Some ("down", "");
                               re.cap2 := None |} |}
              H eq_refl eq_refl)
    as (_ & _ & _ & d & Hd & _ & _ & P).
  exists d. split; assumption.
Defined.

(** C10.  Every scroll intent that [parse_command] produces has a direction
    that is exactly [up] or [down], with an integer count; so, when it is
    dispatched, the engine is asked to scroll with that direction, and neither
    engine takes its invalid-direction branch: the mock engine reports the
    scroll, and the real engine calls [pyautogui.scroll]. *)
Theorem parsed_scroll_direction_is_valid
        (command : string) (intent : ParsedIntent)
        (Hparse : parse_command command = Return (Some intent))
        (Hscroll : action_type intent = "scroll") :
  exists d n,
    (d = "up" \/ d = "down")
    /\ parameters intent = [("direction", VStr d); ("clicks", VInt n)]
    /\ MockAutomationEngine.invalid_direction d = false
    /\ MockAutomationEngine.scroll d n
       = {| success := true;
            message := "[SIMULATED] Scrolled " ++ d ++ " "
                       ++ str_of_int n ++ " clicks";
            result_action_type := "scroll" |}
    /\ (forall (W : Type) (pyautogui_scroll : Z -> W -> W * result string unit)
               (w : W),
           AutomationEngine.scroll pyautogui_scroll d n w
           = AutomationEngine.scrolled d n
               (pyautogui_scroll (if d =? "up" then n else (- n)%Z) w))
    /\ (forall (W : Type) (engine : Engine W) (self : IntentApparatus W),
           execute_body engine intent self
           = call (scroll_call (VStr d) (VInt n))
                  (scroll engine (VStr d) (VInt n)) self).
Proof.
  assert (exists d n, (d = "up" \/ d = "down")
                      /\ parameters intent
                         = [("direction", VStr d); ("clicks", VInt n)])
    as (d & n & Hd & Hp).
  { unfold parse_command in Hparse.
    pose proof (normal_form_fixed command) as L.
    destruct (strip (lower command)) as [|a c] eqn:E; [discriminate|].
    rewrite for_action_types_first_intent in Hparse.
    apply first_intent_found in Hparse as (r & Hin & Hr).
    apply apply_rule_matched in Hr as (m & p & S & X & ->).
    simpl in Hscroll. simpl.
    cbn [rules_of _initialize_patterns flat_map map app click_patterns
         type_patterns key_patterns scroll_patterns move_patterns
         screenshot_patterns In] in Hin.
    repeat (destruct Hin as [<-|Hin]; [try discriminate Hscroll|]);
      [| |destruct Hin].
    - destruct (scroll_direction_parameters _ _ _ _ L S X)
        as (d & n & Hd & -> & _).
      now exists d, n.
    - destruct (scroll_count_parameters _ _ _ _ L S X) as (d & n & Hd & ->).
      now exists d, n. }
  exists d, n. split; [assumption|]. split; [assumption|].
  split; [destruct Hd as [->| ->]; reflexivity|].
  split; [destruct Hd as [->| ->]; reflexivity|].
  split; [intros; destruct Hd as [->| ->]; reflexivity|].
  intros W engine self. unfold execute_body. rewrite Hscroll, Hp. reflexivity.
Qed.

Lemma parsed_scroll_direction_is_valid_witness :
  exists d n,
    (d = "up" \/ d = "down")
    /\ MockAutomationEngine.scroll d n
       = {| success := true;
            message := "[SIMULATED] Scrolled " ++ d ++ " "
                       ++ str_of_int n ++ " clicks";
            result_action_type := "scroll" |}.
Proof.
  destruct (parsed_scroll_direction_is_valid
              "scroll 12 times down"
              {| action_type := "scroll";
                 parameters := [("direction", VStr "down"); ("clicks", VInt 12)];
                 confidence := 8 # 10;
                 raw_command := "scroll 12 times down" |}
              eq_refl eq_refl)
    as (d & n & Hd & _ & _ & Hm & _).
  exists d, n. split; assumption.
Defined.

(** ** The dispatcher *)

Section DispatcherFacts.

Variable W : Type.
Variable engine : Engine W.

Lemma equals_two_true (v : pyval) : equals_two v = true <-> v = VInt 2.
Proof.
  split; [|now intros ->].
  destruct v as [|n| |]; simpl; try discriminate.
  destruct n as [|p|p]; try discriminate.
  destruct p as [p|p|]; try discriminate.
  destruct p; try discriminate. reflexivity.
Qed.

Lemma equals_two_false (v : pyval) : equals_two v = false <-> v <> VInt 2.
Proof.
  rewrite <- equals_two_true. destruct (equals_two v); split; congruence.
Qed.

Lemma call_returns (A : Type) (ev : event)
      (method : W -> W * result string A) (self : IntentApparatus W)
      (w : W) (r : result string A) :
  method (desktop self) = (w, r) ->
  call ev method self
  = ({| desktop := w;
        execution_history := execution_history self;
        trace := trace self ++ [ev] |}, r).
Proof. unfold call. now intros ->. Qed.

(** [_execute_action] always returns a result. *)
Lemma execute_action_returns (intent : ParsedIntent) (self : IntentApparatus W) :
  exists self' r, _execute_action engine intent self = (self', Return r).
Proof.
  unfold _execute_action, except_Exception, ret.
  destruct (execute_body engine intent self) as [self' [r|e]]; simpl; eauto.
Qed.

Lemma execute_action_passes (intent : ParsedIntent)
      (self self' : IntentApparatus W) (r : ActionResult) :
  execute_body engine intent self = (self', Return r) ->
  _execute_action engine intent self = (self', Return r).
Proof. unfold _execute_action, except_Exception. now intros ->. Qed.

End DispatcherFacts.

(** C3.  A click intent whose parameters hold [clicks = 2], such as the one
    parsed from [double click at 5,5], makes the dispatcher call the
    engine's click twice, with a fixed sleep in between, and return the result
    of the second call; the result [r1] of the first call, failure or not, is
    dropped.  Any other click intent makes it call the click exactly once,
    with the given button, and return the result of that call. *)
Theorem double_click_issues_two_clicks
        (W : Type) (engine : Engine W) (intent : ParsedIntent)
        (self : IntentApparatus W)
        (Hclick : action_type intent = "click") :
  (get (parameters intent) "clicks" (VInt 1) = VInt 2 ->
   forall (w1 w2 : W) (r1 r2 : ActionResult),
     click_at_position engine
       (get (parameters intent) "x" VNone)
       (get (parameters intent) "y" VNone)
       (get (parameters intent) "button" (VStr "left"))
       (desktop self) = (w1, Return r1) ->
     click_at_position engine
       (get (parameters intent) "x" VNone)
       (get (parameters intent) "y" VNone)
       (get (parameters intent) "button" (VStr "left"))
       w1 = (w2, Return r2) ->
     _execute_action engine intent self
     = ({| desktop := w2;
           execution_history := execution_history self;
           trace := trace self
                    ++ [click_at_position_call
                          (get (parameters intent) "x" VNone)
                          (get (parameters intent) "y" VNone)
                          (get (parameters intent) "button" (VStr "left"));
                        sleep (1 # 10);
                        click_at_position_call
                          (get (parameters intent) "x" VNone)
                          (get (parameters intent) "y" VNone)
                          (get (parameters intent) "button" (VStr "left"))] |},
        Return r2))
  /\ (get (parameters intent) "clicks" (VInt 1) <> VInt 2 ->
      trace (fst (_execute_action engine intent self))
      = (trace self
         ++ [click_at_position_call
               (get (parameters intent) "x" VNone)
               (get (parameters intent) "y" VNone)
               (get (parameters intent) "button" (VStr "left"))])%list
      /\ forall (w1 : W) (r1 : ActionResult),
          click_at_position engine
            (get (parameters intent) "x" VNone)
            (get (parameters intent) "y" VNone)
            (get (parameters intent) "button" (VStr "left"))
            (desktop self) = (w1, Return r1) ->
          _execute_action engine intent self
          = ({| desktop := w1;
                execution_history := execution_history self;
                trace := trace self
                         ++ [click_at_position_call
                               (get (parameters intent) "x" VNone)
                               (get (parameters intent) "y" VNone)
                               (get (parameters intent) "button"
                                    (VStr "left"))] |},
             Return r1))
  /\ parse_command "double click at 5,5"
     = Return (Some {| action_type := "click";
                       parameters := [("x", VInt 5); ("y", VInt 5);
                                      ("button", VStr "left");
                                      ("clicks", VInt 2)];
                       confidence := 8 # 10;
                       raw_command := "double click at 5,5" |}).
Proof.
  split; [|split; [|reflexivity]]; intros Hclicks.
  - intros w1 w2 r1 r2 Hfirst Hsecond.
    apply execute_action_passes. unfold execute_body. rewrite Hclick. simpl.
    apply equals_two_true in Hclicks. rewrite Hclicks.
    unfold mbind, time_sleep.
    rewrite (call_returns W _ _ _ self w1 (Return r1) Hfirst). simpl.
    erewrite call_returns by exact Hsecond. simpl.
    now rewrite <- !app_assoc.
  - apply equals_two_false in Hclicks.
    assert (B : execute_body engine intent self
                = call (click_at_position_call
                          (get (parameters intent) "x" VNone)
                          (get (parameters intent) "y" VNone)
                          (get (parameters intent) "button" (VStr "left")))
                       (click_at_position engine
                          (get (parameters intent) "x" VNone)
                          (get (parameters intent) "y" VNone)
                          (get (parameters intent) "button" (VStr "left")))
                       self).
    { unfold execute_body. rewrite Hclick. simpl. now rewrite Hclicks. }
    split.
    + unfold _execute_action, except_Exception. rewrite B. unfold call.
      destruct (click_at_position engine _ _ _ (desktop self)) as [w [r|e]];
        reflexivity.
    + intros w1 r1 Hfirst. apply execute_action_passes. rewrite B.
      now apply call_returns.
Qed.

Lemma double_click_issues_two_clicks_witness :
  _execute_action scripted_engine double_click_intent
    {| desktop := [failed_click; good_click];
       execution_history := []; trace := [] |}
  = ({| desktop := []; execution_history := [];
        trace := [click_at_position_call (VInt 5) (VInt 5) (VStr "left");
                  sleep (1 # 10);
                  click_at_position_call (VInt 5) (VInt 5) (VStr "left")] |},
     Return good_click)
  /\ _execute_action scripted_engine single_click_intent
       {| desktop := [good_click]; execution_history := []; trace := [] |}
     = ({| desktop := []; execution_history := [];
           trace := [click_at_position_call (VInt 5) (VInt 5) (VStr "right")] |},
        Return good_click).
Proof.
  split.
  - exact (proj1 (double_click_issues_two_clicks
                    (list ActionResult) scripted_engine double_click_intent
                    {| desktop := [failed_click; good_click];
                       execution_history := []; trace := [] |}
                    eq_refl)
                 eq_refl [good_click] [] failed_click good_click
                 eq_refl eq_refl).
  - refine (proj2 (proj1 (proj2 (double_click_issues_two_clicks
                    (list ActionResult) scripted_engine single_click_intent
                    {| desktop := [good_click];
                       execution_history := []; trace := [] |}
                    eq_refl)) _) [] good_click eq_refl).
    discriminate.
Defined.

Section ExceptException.

Variable W : Type.
Variable E : Type.
Context `{Raised E}.
Variable engine : EngineOf E W.

Lemma call_outcome (A : Type) (ev : event)
      (method : W -> W * result E A) (self : IntentApparatus W)
      (w : W) (r : result E A) :
  method (desktop self) = (w, r) ->
  call ev method self = (after_calls self w [ev], r).
Proof. unfold call, after_calls. now intros ->. Qed.

(** What the [except] clause of [_execute_action] makes of [e] raised in
    the [try]. *)
Lemma dispatch_raise (intent : ParsedIntent)
      (self self' : IntentApparatus W) (e : E) :
  execute_body engine intent self = (self', Raise e) ->
  _execute_action engine intent self
  = (self',
     match exception_text e with
     | Some text =>
         Return {| success := false;
                   message := "Execution error: " ++ text;
                   result_action_type := action_type intent |}
     | None => Raise e
     end).
Proof.
  unfold _execute_action, except_Exception. intros ->.
  now destruct (exception_text e).
Qed.

Lemma dispatch_raise_as (intent : ParsedIntent) (ty : string)
      (self self' : IntentApparatus W) (e : E) :
  action_type intent = ty ->
  execute_body engine intent self = (self', Raise e) ->
  _execute_action engine intent self
  = (self',
     match exception_text e with
     | Some text =>
         Return {| success := false;
                   message := "Execution error: " ++ text;
                   result_action_type := ty |}
     | None => Raise e
     end).
Proof. intros <-. apply dispatch_raise. Qed.

(** What [_execute_action] lets through is not an [Exception]. *)
Lemma dispatch_lets_through (intent : ParsedIntent)
      (self self' : IntentApparatus W) (e : E) :
  _execute_action engine intent self = (self', Raise e) ->
  exception_text e = None.
Proof.
  unfold _execute_action, except_Exception, ret.
  destruct (execute_body engine intent self) as [s [r|e']];
    [discriminate|].
  destruct (exception_text e') eqn:T; [discriminate|].
  now intros [= _ <-].
Qed.

End ExceptException.

(** Proof step: the body of the dispatcher for an intent of a known action
    type, up to its first engine call. *)
Ltac enter_branch Ht :=
  apply dispatch_raise_as; [exact Ht|];
  unfold execute_body; rewrite Ht; simpl.

(** C7.  The dispatcher catches the instances of [Exception] and nothing
    else.  For every engine, every intent and each of the engine calls the
    dispatcher makes for it (the click, the second click of a double click,
    the typing, the key combination, the key press, the scroll, the move and
    the screenshot): when the call raises an [Exception], the dispatcher
    returns a failure result that carries the text of the exception and the
    action type of the intent; when it raises another [BaseException], that
    goes on to the caller.  So what the dispatcher lets through is never an
    [Exception], and with an engine that raises nothing else it always
    returns.  An intent whose action type is none of the known ones gives a
    failure result that names the action type, without any call of the
    engine. *)
Theorem dispatcher_catches_exceptions
        (W E : Type) `{Raised E} (engine : EngineOf E W)
        (intent : ParsedIntent) (self : IntentApparatus W) :
  (forall self' e,
      _execute_action engine intent self = (self', Raise e) ->
      exception_text e = None)
  /\ ((forall e : E, exception_text e <> None) ->
      exists self' r, _execute_action engine intent self = (self', Return r))
  /\ (forall w e,
         action_type intent = "click" ->
         click_at_position engine
           (get (parameters intent) "x" VNone)
           (get (parameters intent) "y" VNone)
           (get (parameters intent) "button" (VStr "left")) (desktop self)
         = (w, Raise e) ->
         _execute_action engine intent self
         = (after_calls self w
              [click_at_position_call
                 (get (parameters intent) "x" VNone)
                 (get (parameters intent) "y" VNone)
                 (get (parameters intent) "button" (VStr "left"))],
            match exception_text e with
            | Some text =>
                Return {| success := false;
                          message := "Execution error: " ++ text;
                          result_action_type := "click" |}
            | None => Raise e
            end))
  /\ (forall w1 r1 w2 e,
         action_type intent = "click" ->
         get (parameters intent) "clicks" (VInt 1) = VInt 2 ->
         click_at_position engine
           (get (parameters intent) "x" VNone)
           (get (parameters intent) "y" VNone)
           (get (parameters intent) "button" (VStr "left")) (desktop self)
         = (w1, Return r1) ->
         click_at_position engine
           (get (parameters intent) "x" VNone)
           (get (parameters intent) "y" VNone)
           (get (parameters intent) "button" (VStr "left")) w1
         = (w2, Raise e) ->
         _execute_action engine intent self
         = (after_calls self w2
              [click_at_position_call
                 (get (parameters intent) "x" VNone)
                 (get (parameters intent) "y" VNone)
                 (get (parameters intent) "button" (VStr "left"));
               sleep (1 # 10);
               click_at_position_call
                 (get (parameters intent) "x" VNone)
                 (get (parameters intent) "y" VNone)
                 (get (parameters intent) "button" (VStr "left"))],
            match exception_text e with
            | Some text =>
                Return {| success := false;
                          message := "Execution error: " ++ text;
                          result_action_type := "click" |}
            | None => Raise e
            end))
  /\ (forall w e,
         action_type intent = "type" ->
         type_text engine (get (parameters intent) "text" VNone) (desktop self)
         = (w, Raise e) ->
         _execute_action engine intent self
         = (after_calls self w
              [type_text_call (get (parameters intent) "text" VNone)],
            match exception_text e with
            | Some text =>
                Return {| success := false;
                          message := "Execution error: " ++ text;
                          result_action_type := "type" |}
            | None => Raise e
            end))
  /\ (forall w e,
         action_type intent = "key" ->
         contains (parameters intent) "keys" = true ->
         key_combination engine (get (parameters intent) "keys" VNone)
                         (desktop self)
         = (w, Raise e) ->
         _execute_action engine intent self
         = (after_calls self w
              [key_combination_call (get (parameters intent) "keys" VNone)],
            match exception_text e with
            | Some text =>
                Return {| success := false;
                          message := "Execution error: " ++ text;
                          result_action_type := "key" |}
            | None => Raise e
            end))
  /\ (forall w e,
         action_type intent = "key" ->
         contains (parameters intent) "keys" = false ->
         press_key engine (get (parameters intent) "key" VNone) (desktop self)
         = (w, Raise e) ->
         _execute_action engine intent self
         = (after_calls self w
              [press_key_call (get (parameters intent) "key" VNone)],
            match exception_text e with
            | Some text =>
                Return {| success := false;
                          message := "Execution error: " ++ text;
                          result_action_type := "key" |}
            | None => Raise e
            end))
  /\ (forall w e,
         action_type intent = "scroll" ->
         scroll engine (get (parameters intent) "direction" VNone)
                (get (parameters intent) "clicks" (VInt 3)) (desktop self)
         = (w, Raise e) ->
         _execute_action engine intent self
         = (after_calls self w
              [scroll_call (get (parameters intent) "direction" VNone)
                           (get (parameters intent) "clicks" (VInt 3))],
            match exception_text e with
            | Some text =>
                Return {| success := false;
                          message := "Execution error: " ++ text;
                          result_action_type := "scroll" |}
            | None => Raise e
            end))
  /\ (forall w e,
         action_type intent = "move" ->
         move_mouse engine (get (parameters intent) "x" VNone)
                    (get (parameters intent) "y" VNone) (desktop self)
         = (w, Raise e) ->
         _execute_action engine intent self
         = (after_calls self w
              [move_mouse_call (get (parameters intent) "x" VNone)
                               (get (parameters intent) "y" VNone)],
            match exception_text e with
            | Some text =>
                Return {| success := false;
                          message := "Execution error: " ++ text;
                          result_action_type := "move" |}
            | None => Raise e
            end))
  /\ (forall w e,
         action_type intent = "screenshot" ->
         take_screenshot engine (desktop self) = (w, Raise e) ->
         _execute_action engine intent self
         = (after_calls self w [take_screenshot_call],
            match exception_text e with
            | Some text =>
                Return {| success := false;
                          message := "Execution error: " ++ text;
                          result_action_type := "screenshot" |}
            | None => Raise e
            end))
  /\ (~ In (action_type intent) known_action_types ->
      _execute_action engine intent self
      = (self, Return {| success := false;
                         message := "Unknown action type: " ++ action_type intent;
                         result_action_type := "unknown" |})).
Proof.
  split; [intros self' e; apply dispatch_lets_through|].
  split.
  { intros Hall.
    destruct (_execute_action engine intent self) as [self' [r|e]] eqn:X;
      [now exists self', r|].
    apply dispatch_lets_through in X. now destruct (Hall e). }
  split.
  { intros w e Ht Hc. enter_branch Ht.
    destruct (equals_two _).
    - unfold mbind. now rewrite (call_outcome _ _ _ _ _ _ _ _ Hc).
    - now apply call_outcome. }
  split.
  { intros w1 r1 w2 e Ht H2 Hc1 Hc2. enter_branch Ht.
    rewrite H2. simpl. unfold mbind.
    rewrite (call_outcome _ _ _ _ _ _ _ _ Hc1).
    unfold time_sleep, call, after_calls. simpl. rewrite Hc2.
    now rewrite <- !app_assoc. }
  split.
  { intros w e Ht Hc. enter_branch Ht.
    now apply call_outcome. }
  split.
  { intros w e Ht Hk Hc. enter_branch Ht.
    rewrite Hk. now apply call_outcome. }
  split.
  { intros w e Ht Hk Hc. enter_branch Ht.
    rewrite Hk. now apply call_outcome. }
  split.
  { intros w e Ht Hc. enter_branch Ht.
    now apply call_outcome. }
  split.
  { intros w e Ht Hc. enter_branch Ht.
    now apply call_outcome. }
  split.
  { intros w e Ht Hc. enter_branch Ht.
    unfold mbind. now rewrite (call_outcome _ _ _ _ _ _ _ _ Hc). }
  intros Hunknown. unfold _execute_action, except_Exception.
  assert (B : execute_body engine intent
              = ret {| success := false;
                       message := "Unknown action type: " ++ action_type intent;
                       result_action_type := "unknown" |}).
  { unfold execute_body, known_action_types in *. simpl in Hunknown.
    repeat match goal with
           | |- context [String.eqb (action_type intent) ?k] =>
               destruct (String.eqb_spec (action_type intent) k) as [Q|_];
               [exfalso; apply Hunknown; rewrite Q; tauto|]
           end.
    reflexivity. }
  now rewrite B.
Qed.

Lemma dispatcher_catches_exceptions_witness :
  _execute_action scripted_engine type_hello_intent
    {| desktop := []; execution_history := []; trace := [] |}
  = ({| desktop := []; execution_history := [];
        trace := [type_text_call (VStr "hello")] |},
     Return {| success := false;
               message := "Execution error: not scripted";
               result_action_type := "type" |})
  /\ _execute_action scripted_engine dance_intent
       {| desktop := []; execution_history := []; trace := [] |}
     = ({| desktop := []; execution_history := []; trace := [] |},
        Return {| success := false;
                  message := "Unknown action type: dance";
                  result_action_type := "unknown" |}).
Proof.
  split.
  - exact (proj1 (proj2 (proj2 (proj2 (proj2
      (dispatcher_catches_exceptions
         (list ActionResult) string scripted_engine type_hello_intent
         {| desktop := []; execution_history := []; trace := [] |})))))
      [] "not scripted" eq_refl eq_refl).
  - refine (proj2 (proj2 (proj2 (proj2 (proj2 (proj2 (proj2 (proj2 (proj2
      (proj2
      (dispatcher_catches_exceptions
         (list ActionResult) string scripted_engine dance_intent
         {| desktop := []; execution_history := []; trace := [] |}))))))))))
      _).
    simpl. intros Hin.
    repeat (destruct Hin as [Hin|Hin]; [discriminate Hin|]). exact Hin.
Defined.

(** C7, as stated, fails: the dispatcher does not always return.  An engine
    call that is interrupted from the keyboard raises [KeyboardInterrupt],
    which is not an instance of [Exception]; the [except Exception] of the
    dispatcher does not take it, and it goes on to the caller. *)
Lemma dispatcher_lets_interrupt_through :
  _execute_action interrupted_engine type_hello_intent
    {| desktop := tt; execution_history := []; trace := [] |}
  = ({| desktop := tt; execution_history := [];
        trace := [type_text_call (VStr "hello")] |},
     Raise KeyboardInterrupt)
  /\ ~ (exists self' r,
           _execute_action interrupted_engine type_hello_intent
             {| desktop := tt; execution_history := []; trace := [] |}
           = (self', Return r)).
Proof.
  split; [reflexivity|].
  intros (self' & r & X). discriminate X.
Qed.

(** ** The execution history *)

Section HistoryFacts.

Variable W : Type.
Variable engine : Engine W.
Variable abspath : string -> string.

Lemma keeps_ret (E A : Type) (a : A) : keeps_history (@ret W E A a).
Proof. intros self. reflexivity. Qed.

Lemma keeps_call (E A : Type) (ev : event) (method : W -> W * result E A) :
  keeps_history (call ev method).
Proof. intros self. unfold call. now destruct (method (desktop self)). Qed.

Lemma keeps_time_sleep (E : Type) (seconds : Q) :
  keeps_history (@time_sleep W E seconds).
Proof. intros self. reflexivity. Qed.

Lemma keeps_mbind (E A B : Type) (m : M W E A) (f : A -> M W E B) :
  keeps_history m -> (forall a, keeps_history (f a)) ->
  keeps_history (mbind m f).
Proof.
  intros Hm Hf self. unfold mbind. specialize (Hm self).
  destruct (m self) as [self' [a|e]]; simpl in *; [|assumption].
  now rewrite Hf.
Qed.

Lemma keeps_except (E A : Type) `{Raised E} (body : M W E A)
      (handler : string -> M W E A) :
  keeps_history body -> (forall text, keeps_history (handler text)) ->
  keeps_history (except_Exception body handler).
Proof.
  intros Hb Hh self. unfold except_Exception. specialize (Hb self).
  destruct (body self) as [self' [a|e]]; simpl in *; [assumption|].
  destruct (exception_text e); [now rewrite Hh | assumption].
Qed.

Lemma keeps_map_error (E E' A : Type) (f : E -> E') (m : M W E A) :
  keeps_history m -> keeps_history (map_error f m).
Proof.
  intros Hm self. unfold map_error. specialize (Hm self).
  now destruct (m self) as [self' [a|e]].
Qed.

(** The dispatcher does not touch the history. *)
Lemma keeps_execute_action (intent : ParsedIntent) :
  keeps_history (_execute_action engine intent).
Proof.
  unfold _execute_action. apply keeps_except; [|intros; apply keeps_ret].
  unfold execute_body.
  repeat match goal with
         | |- keeps_history (if ?b then _ else _) => destruct b
         | |- keeps_history (mbind _ _) => apply keeps_mbind; [|intros ?]
         | |- keeps_history (call _ _) => apply keeps_call
         | |- keeps_history (time_sleep _) => apply keeps_time_sleep
         | |- keeps_history (ret _) => apply keeps_ret
         end.
Qed.

(** What follows the dispatch in [process_command]: the entry is appended,
    and nothing after that touches the history. *)
Lemma process_command_records (command : string) (intent : ParsedIntent)
      (self self' : IntentApparatus W) (out : result error response) :
  strip command <> EmptyString ->
  parse_command command = Return (Some intent) ->
  process_command engine abspath command self = (self', out) ->
  exists r, execution_history self'
            = (execution_history self ++ [(command, r)])%list.
Proof.
  intros Hne Hp. unfold process_command. rewrite Hp.
  destruct (strip command); [contradiction|].
  unfold mbind at 1, map_error at 1.
  pose proof (keeps_execute_action intent self) as K.
  destruct (execute_action_returns W engine intent self) as (s1 & r & X).
  rewrite X in *. simpl in K. unfold mbind at 1. simpl.
  intros H. exists r. rewrite <- K.
  match type of H with
  | ?m ?s = _ =>
      assert (KH : keeps_history m);
      [|specialize (KH s); rewrite H in KH; simpl in KH; exact KH]
  end.
  repeat match goal with
         | |- keeps_history (if ?b then _ else _) => destruct b
         | |- keeps_history (mbind _ _) => apply keeps_mbind; [|intros ?]
         | |- keeps_history (map_error _ _) => apply keeps_map_error
         | |- keeps_history (call _ _) => apply keeps_call
         | |- keeps_history (ret _) => apply keeps_ret
         end.
Qed.

Lemma record_all_history (entries : list (string * ActionResult)) :
  forall self : IntentApparatus W,
    execution_history (record_all entries self)
    = (execution_history self ++ entries)%list.
Proof.
  induction entries as [|[command r] entries IH]; simpl; intros self.
  - now rewrite app_nil_r.
  - rewrite IH. simpl. now rewrite <- app_assoc.
Qed.

Lemma last_items_app (A : Type) (n : nat) (old new : list A) :
  n <= List.length new -> 0 < n ->
  last_items n (old ++ new) = skipn (List.length new - n) new.
Proof.
  intros Hn Hpos. unfold last_items.
  destruct n as [|n]; [lia|].
  rewrite skipn_app, length_app.
  rewrite (skipn_all2 old) by lia. simpl.
  f_equal. lia.
Qed.

End HistoryFacts.

(** C9.  A command that is blank, or that [parse_command] cannot interpret,
    gets an error response and leaves the application as it was, history
    included, with no call of the engine; and whenever [process_command]
    changes the history, the command was parsed into an intent and the change
    is one entry appended for it. *)
Theorem parse_failure_leaves_history
        (W : Type) (engine : Engine W) (abspath : string -> string)
        (command : string) (self self' : IntentApparatus W)
        (out : result error response)
        (Hrun : process_command engine abspath command self = (self', out)) :
  (strip command = EmptyString \/ parse_command command = Return None ->
   self' = self
   /\ (out = Return (StatusError, PleaseEnterACommand, Some EmptyString)
       \/ out = Return (StatusUnableToParse, CouldNotUnderstand command,
                        Some EmptyString)))
  /\ (execution_history self' <> execution_history self ->
      exists intent r,
        parse_command command = Return (Some intent)
        /\ execution_history self'
           = (execution_history self ++ [(command, r)])%list).
Proof.
  split.
  - intros Hun. unfold process_command in Hrun.
    destruct (strip command) as [|a s] eqn:E.
    + injection Hrun as <- <-. split; [reflexivity | now left].
    + destruct Hun as [Hun|Hun]; [discriminate|].
      rewrite Hun in Hrun. injection Hrun as <- <-.
      split; [reflexivity | now right].
  - intros Hchanged.
    destruct (strip command) as [|a s] eqn:E.
    + unfold process_command in Hrun. rewrite E in Hrun.
      injection Hrun as <- <-. contradiction.
    + destruct (parse_command command) as [[intent|]|e] eqn:P.
      * destruct (process_command_records W engine abspath command intent
                    self self' out) as [r Hr]; try assumption.
        { rewrite E. discriminate. }
        now exists intent, r.
      * unfold process_command in Hrun. rewrite E, P in Hrun.
        injection Hrun as <- <-. contradiction.
      * unfold process_command in Hrun. rewrite E, P in Hrun.
        injection Hrun as <- <-. contradiction.
Qed.

Lemma parse_failure_leaves_history_witness :
  process_command scripted_engine (fun p => p) "do something vague" sample_self
  = (sample_self,
     Return (StatusUnableToParse, CouldNotUnderstand "do something vague",
             Some EmptyString))
  /\ process_command scripted_engine (fun p => p) "   " sample_self
     = (sample_self,
        Return (StatusError, PleaseEnterACommand, Some EmptyString)).
Proof.
  split.
  - destruct (proj1 (parse_failure_leaves_history
                       (list ActionResult) scripted_engine (fun p => p)
                       "do something vague" sample_self _ _ eq_refl)
                    (or_intror eq_refl)) as [_ [H|H]];
      [discriminate H | reflexivity].
  - destruct (proj1 (parse_failure_leaves_history
                       (list ActionResult) scripted_engine (fun p => p)
                       "   " sample_self _ _ eq_refl)
                    (or_introl eq_refl)) as [_ [H|H]];
      [reflexivity | discriminate H].
Defined.

(** The numbering of [enumerate]. *)
Lemma enumerate_combine (A : Type) (l : list A) :
  forall start,
    enumerate start l = combine (seq start (List.length l)) l.
Proof.
  induction l as [|a l IH]; simpl; intros start; [reflexivity|].
  now rewrite IH.
Qed.

(** The lines [get_execution_history] makes of the entries it shows. *)
Lemma history_lines (entries : list (string * ActionResult)) :
  map (fun '(i, (command, r)) => (i, success r, command, message r))
      (enumerate 1 entries)
  = map (fun '(i, entry) => line_of i entry)
        (combine (seq 1 (List.length entries)) entries).
Proof.
  rewrite enumerate_combine. apply map_ext.
  intros [i [command r]]. reflexivity.
Qed.

(** C8.  Recording appends an entry at the end and removes nothing.  After 15
    commands have been recorded, [get_execution_history] shows exactly the
    last 10 recorded, oldest first, numbered from 1 to 10, each line with
    the success, the command and the message of its entry, while the log
    still holds all the earlier entries; reading the history leaves the
    application unchanged; and after [clear_history] the log is empty and
    [get_execution_history] shows no entry (the fixed text of an empty
    history). *)
Theorem history_contract
        (W : Type) (self : IntentApparatus W)
        (command : string) (r : ActionResult)
        (entries : list (string * ActionResult))
        (Hcount : List.length entries = 15) :
  execution_history (fst (append_history (E := string) command r self))
  = (execution_history self ++ [(command, r)])%list
  /\ execution_history (record_all entries self)
     = (execution_history self ++ entries)%list
  /\ snd (get_execution_history (record_all entries self))
     = Return (Some (map (fun '(i, entry) => line_of i entry)
                         (combine (seq 1 10) (skipn 5 entries))))
  /\ fst (get_execution_history (record_all entries self))
     = record_all entries self
  /\ execution_history (fst (clear_history (record_all entries self))) = []
  /\ snd (get_execution_history
            (fst (clear_history (record_all entries self))))
     = Return None.
Proof.
  assert (R : recent 10 (record_all entries self) = skipn 5 entries).
  { unfold recent. rewrite record_all_history, last_items_app by lia.
    now rewrite Hcount. }
  split; [reflexivity|].
  split; [apply record_all_history|].
  split; [|now repeat split].
  unfold get_execution_history. cbn [snd].
  destruct (execution_history (record_all entries self)) as [|e0 rest] eqn:Hh.
  - rewrite record_all_history in Hh. apply app_eq_nil in Hh as [_ ->].
    discriminate Hcount.
  - rewrite R, history_lines, length_skipn, Hcount. reflexivity.
Qed.

Lemma history_contract_witness :
  snd (get_execution_history
         (record_all
            (map sample_entry
                 [1; 2; 3; 4; 5; 6; 7; 8; 9; 10; 11; 12; 13; 14; 15]%Z)
            {| desktop := tt; execution_history := [sample_entry 0];
               trace := [] |}))
  = Return (Some (map (fun '(i, entry) => line_of i entry)
                      (combine
                         (seq 1 10)
                         (map sample_entry
                              [6; 7; 8; 9; 10; 11; 12; 13; 14; 15]%Z)))).
Proof.
  exact (proj1 (proj2 (proj2
    (history_contract unit
       {| desktop := tt; execution_history := [sample_entry 0]; trace := [] |}
       "scroll up 16" (MockAutomationEngine.scroll "up" 16)
       (map sample_entry
            [1; 2; 3; 4; 5; 6; 7; 8; 9; 10; 11; 12; 13; 14; 15]%Z)
       eq_refl)))).
Defined.

(** ** The combination rule for [press] is never reached *)

Section PressCombo.
Import re re_spec re_facts.

(** Where the combination pattern for [press] matches, the single-key
    pattern for [press] matches too. *)
Lemma press_key_shadows_press_combo (c : string) :
  search press_combo_pattern c <> None -> search press_key_pattern c <> None.
Proof.
  destruct (search press_combo_pattern c) as [m|] eqn:S; [intros _|congruence].
  apply search_sound in S as (pre & s0 & s' & -> & M & _ & _).
  unfold press_combo_pattern in M. split_matches.
  match goal with
  | H1 : matches (Lit "press") _ _ _ _, H2 : matches (Plus Space) _ _ _ _,
    H3 : matches (Group G1 (Plus Word)) _ _ _ _ |- _ =>
      eapply search_complete; unfold press_key_pattern;
      eapply m_seq; [exact H1|];
      eapply m_seq; [exact H2|];
      eapply m_seq; [apply m_opt_none|];
      eapply m_seq; [exact H3|];
      apply m_opt_none
  end.
Qed.

(** The single-key rule gives an intent whenever its pattern matches. *)
Lemma press_key_rule_gives_intent (c : string) :
  search press_key_pattern c <> None ->
  exists intent,
    apply_rule c ("key", press_key_pattern, "single_key")
    = Return (Some intent).
Proof.
  unfold apply_rule, rule_pattern, rule_pattern_type, rule_action_type.
  simpl fst; simpl snd.
  destruct (search press_key_pattern c) as [m|] eqn:S; [intros _|congruence].
  apply search_sound in S as (pre & s0 & s' & -> & M & G & _).
  assert (C : cap1 (caps m) <> None)
    by (apply (matches_binds G1 _ _ _ _ _ M); now left).
  unfold _extract_parameters, extract_body, group. simpl.
  rewrite G. simpl.
  destruct (cap1 (caps m)) as [sp|]; [|contradiction]. simpl. eauto.
Qed.

Lemma first_intent_stops (c : string) (before : list rule) (r : rule)
      (intent : ParsedIntent) (after1 after2 : list rule) :
  apply_rule c r = Return (Some intent) ->
  first_intent c (before ++ r :: after1) = first_intent c (before ++ r :: after2).
Proof.
  intros H. rewrite !first_intent_app. simpl. now rewrite H.
Qed.

(** For every command the outcome of [parse_command] is that of the table
    without the combination rule for [press]: the rule never decides. *)
Lemma press_combo_rule_is_dead (command : string) :
  parse_command command
  = match strip (lower command) with
    | EmptyString => Return None
    | c => first_intent c rules_without_press_combo
    end.
Proof.
  unfold parse_command.
  destruct (strip (lower command)) as [|a c]; [reflexivity|].
  rewrite for_action_types_first_intent.
  destruct (search press_combo_pattern (String a c)) as [m|] eqn:S.
  - destruct (press_key_rule_gives_intent (String a c)) as [intent Hi].
    { apply press_key_shadows_press_combo. rewrite S. discriminate. }
    exact (first_intent_stops (String a c)
             (firstn 7 (rules_of _initialize_patterns))
             ("key", press_key_pattern, "single_key") intent
             (skipn 8 (rules_of _initialize_patterns))
             (("key", hit_key_pattern, "single_key")
              :: skipn 10 (rules_of _initialize_patterns)) Hi).
  - exact (first_intent_without (String a c)
             (firstn 9 (rules_of _initialize_patterns))
             ("key", press_combo_pattern, "key_combo")
             (skipn 10 (rules_of _initialize_patterns))
             (apply_rule_no_match _ ("key", press_combo_pattern, "key_combo") S)).
Qed.

End PressCombo.

(* ================================================================== *)
(** * Further properties *)

(** ** What the groups of a match hold *)

Section Captures.
Import re re_spec re_facts.

Lemma cset_eqb_eq (a b : cset) : cset_eqb a b = true -> a = b.
Proof.
  destruct a, b; simpl; try discriminate; try reflexivity;
    intros E; apply String.eqb_eq in E; now subst.
Qed.

Lemma plus_run_text (cl : cset) (s s' : string) (c c' : captures) :
  matches (Plus cl) s c s' c' -> run_text cl (consumed (s, s')).
Proof.
  intros M.
  inversion M as [| |cl0 a s0 s1 c0 E R| | | | | | |]; subst.
  apply run_of_prefix in R as (t & -> & D).
  change (String a (t ++ s')) with (String a t ++ s').
  rewrite consumed_append. split; [discriminate|].
  simpl. now rewrite E, D.
Qed.

(** A pattern whose groups [g] are all [(cl+)] keeps [g] unset or a run of
    characters of [cl]. *)
Lemma matches_runs (cl : cset) (g : gid) (r : regex) (s s' : string)
      (c c' : captures) :
  matches r s c s' c' ->
  groups_are_runs cl g r = true -> holds_run cl g c -> holds_run cl g c'.
Proof.
  induction 1 as
    [p s s' c L|cl0 a s c E|cl0 a s s' c E R|cl0 s s' c R
    |r1 r2 s c s1 c1 s2 c2 _ IH1 _ IH2
    |r1 r2 s c s' c' _ IH|r1 r2 s c s' c' _ IH
    |r s c s' c' _ IH|r s c|g' r s c s' c' M IH];
    simpl; intros D H; try assumption.
  - apply andb_prop in D as [D1 D2]. auto.
  - apply andb_prop in D as [D1 D2]. auto.
  - apply andb_prop in D as [D1 D2]. auto.
  - auto.
  - unfold holds_run in *.
    destruct g, g'; simpl in *; try (apply IH; assumption);
      destruct r as [| |cl'| | | | |]; simpl in D; try discriminate D;
      apply cset_eqb_eq in D; subst cl';
      exact (plus_run_text _ _ _ _ _ M).
Qed.

(** On a lower-case subject every group holds lower-case text. *)
Lemma matches_captures_lower (r : regex) (s s' : string) (c c' : captures) :
  matches r s c s' c' ->
  lower s = s -> captures_lower c -> captures_lower c'.
Proof.
  induction 1 as
    [p s s' c L|cl0 a s c E|cl0 a s s' c E R|cl0 s s' c R
    |r1 r2 s c s1 c1 s2 c2 M1 IH1 _ IH2
    |r1 r2 s c s' c' _ IH|r1 r2 s c s' c' _ IH
    |r s c s' c' _ IH|r s c|g' r s c s' c' M IH];
    intros Lw Hc; try assumption; auto.
  - apply IH2; [|auto]. exact (matches_lower_fixed _ _ _ _ _ M1 Lw).
  - intros g sp Hsp. specialize (IH Lw Hc).
    destruct g, g'; simpl in Hsp;
      try (injection Hsp as <-;
           destruct (matches_prefix _ _ _ _ _ M) as (t & ->);
           rewrite consumed_append;
           now apply lower_fixed_split in Lw);
      [apply (IH G1) | apply (IH G2)]; assumption.
Qed.

Lemma no_captures_lower : captures_lower no_captures.
Proof. intros [] sp H; discriminate H. Qed.

(** What a group that a pattern always sets, as a run of [cl], holds after a
    search in a lower-case subject. *)
Lemma group_run_text (cl : cset) (g : gid) (r : regex) (c : string) (m : Match) :
  lower c = c ->
  search r c = Some m ->
  binds g r = true ->
  groups_are_runs cl g r = true ->
  exists t, option_map consumed (capture g (caps m)) = Some t
            /\ run_text cl t /\ lower t = t.
Proof.
  intros L S B R.
  apply search_sound in S as (pre & s0 & s' & -> & M & _ & _).
  apply lower_fixed_split in L as [_ L].
  pose proof (matches_binds g _ _ _ _ _ M (or_introl B)) as N.
  pose proof (matches_runs cl g _ _ _ _ _ M R) as H.
  pose proof (matches_captures_lower _ _ _ _ _ M L no_captures_lower) as CL.
  unfold holds_run in H. specialize (CL g).
  destruct (capture g (caps m)) as [sp|]; [|contradiction].
  exists (consumed sp). repeat split.
  - apply H. destruct g; exact I.
  - apply H. destruct g; exact I.
  - now apply CL.
Qed.

Lemma search_groups_count (r : regex) (c : string) (m : Match) :
  search r c = Some m -> groups_count m = ngroups r.
Proof.
  intros S. now apply search_sound in S as (pre & s0 & s' & _ & _ & G & _).
Qed.

Lemma group_of_one (m : Match) :
  groups_count m = 1 ->
  group m 1 = Return (option_map consumed (cap1 (caps m))).
Proof. unfold group. now intros ->. Qed.

End Captures.

(** ** Numbers *)

Lemma digit_value_nonneg (c : ascii) :
  Char.isdecimal c = true -> (0 <= digit_value c)%Z.
Proof.
  unfold Char.isdecimal, Char.between, digit_value. intros H.
  apply andb_prop in H as [H _]. apply N.leb_le in H.
  apply N2Z.inj_le in H. simpl in H.
  revert H. generalize (Z.of_N (Char.code c)). intros z H. lia.
Qed.

Lemma decimal_value_nonneg (s : string) :
  forall acc, all_chars Char.isdecimal s = true ->
              (0 <= acc)%Z -> (0 <= decimal_value acc s)%Z.
Proof.
  induction s as [|c s IH]; intros acc D A; [assumption|].
  simpl in D. apply andb_prop in D as [Dc Ds].
  change (0 <= decimal_value (10 * acc + digit_value c) s)%Z.
  apply IH; [assumption|].
  pose proof (digit_value_nonneg c Dc). lia.
Qed.

Lemma int_of_run (t : string) (n : Z) :
  run_text re.Digit t -> int_of_str t = Return n ->
  n = decimal_value 0 t /\ (0 <= n)%Z
  /\ String.length t <= int_max_str_digits.
Proof.
  intros [N D] I. rewrite (int_of_digit_run t (conj N D)) in I.
  destruct (Nat.ltb int_max_str_digits (String.length t)) eqn:E;
    [discriminate|].
  injection I as <-. apply Nat.ltb_ge in E.
  repeat split; [|assumption]. now apply decimal_value_nonneg.
Qed.

(** ** Synonyms *)

Lemma synonym_value (mapping : list (string * string)) (key : string) :
  synonym mapping key = key \/ In (synonym mapping key) (map snd mapping).
Proof.
  induction mapping as [|[k v] mapping IH]; simpl; [now left|].
  destruct (String.eqb key k); [right; now left|].
  destruct IH as [IH|IH]; [now left | right; now right].
Qed.

(** When every value of a table is mapped to itself, a second look-up
    changes nothing. *)
Lemma synonym_idem (mapping : list (string * string)) (key : string) :
  forallb (fun v => String.eqb (synonym mapping v) v) (map snd mapping) = true ->
  synonym mapping (synonym mapping key) = synonym mapping key.
Proof.
  intros F. destruct (synonym_value mapping key) as [E|E].
  - now rewrite E.
  - rewrite forallb_forall in F. apply String.eqb_eq. now apply F.
Qed.

Lemma synonym_nonempty (mapping : list (string * string)) (key : string) :
  forallb (fun v => negb (String.eqb v EmptyString)) (map snd mapping) = true ->
  key <> EmptyString -> synonym mapping key <> EmptyString.
Proof.
  intros F N. destruct (synonym_value mapping key) as [E|E].
  - now rewrite E.
  - rewrite forallb_forall in F. specialize (F _ E).
    intros Z. rewrite Z in F. discriminate F.
Qed.

(** ** The parameters of each pattern type *)

Section Shapes.
Import re re_spec re_facts.

Lemma coordinates_extraction (m : Match) (ty a t1 t2 : string) (p : dict) :
  group m 1 = Return (Some t1) -> group m 2 = Return (Some t2) ->
  run_text Digit t1 -> run_text Digit t2 ->
  In ty ["coordinates"; "right_coordinates"; "double_coordinates"] ->
  _extract_parameters m ty a = Return (Some p) ->
  exists x y,
    (0 <= x)%Z /\ (0 <= y)%Z
    /\ x = decimal_value 0 t1 /\ y = decimal_value 0 t2
    /\ p = ([("x", VInt x); ("y", VInt y);
             ("button", VStr (if ty =? "right_coordinates"
                              then "right" else "left"))]
            ++ (if ty =? "double_coordinates"
                then [("clicks", VInt 2)] else []))%list.
Proof.
  intros G1 G2 R1 R2 Hty X.
  unfold _extract_parameters, extract_body in X.
  destruct Hty as [<-|[<-|[<-|[]]]]; simpl in X;
    rewrite G1, G2 in X; simpl in X;
    destruct (int_of_str t1) as [x|[]] eqn:I1; simpl in X; try discriminate X;
    destruct (int_of_str t2) as [y|[]] eqn:I2; simpl in X; try discriminate X;
    injection X as <-;
    destruct (int_of_run t1 x R1 I1) as (Ex & Hx & _);
    destruct (int_of_run t2 y R2 I2) as (Ey & Hy & _);
    exists x, y; now repeat split.
Qed.

Lemma quoted_text_shape (t : string) :
  run_text (NoneOf quotes) t -> lower t = t ->
  parsed_shape "type" [("text", VStr t)].
Proof. intros [N Q] L. now constructor. Qed.

Lemma single_key_shape (t : string) :
  run_text Word t -> lower t = t ->
  parsed_shape "key" [("key", VStr (synonym key_mapping (lower t)))].
Proof.
  intros [N _] L. rewrite L. constructor.
  - now apply synonym_nonempty.
  - now apply synonym_idem.
Qed.

Lemma key_combo_shape (t1 t2 : string) :
  run_text Word t1 -> lower t1 = t1 -> run_text Word t2 -> lower t2 = t2 ->
  parsed_shape "key"
               [("keys", VList [synonym combo_key_mapping (lower t1);
                                synonym combo_key_mapping (lower t2)])].
Proof.
  intros [N1 _] L1 [N2 _] L2. rewrite L1, L2.
  constructor; try (now apply synonym_nonempty); now apply synonym_idem.
Qed.

Lemma scroll_direction_shape (c a : string) (m : Match) (p : dict) :
  lower c = c ->
  search scroll_direction_pattern c = Some m ->
  _extract_parameters m "direction" a = Return (Some p) ->
  parsed_shape "scroll" p.
Proof.
  intros L S X.
  apply search_sound in S as (pre & s0 & s' & -> & M & G & _).
  apply lower_fixed_split in L as [_ L].
  destruct (scroll_direction_captures _ _ _ M L) as (d & Hd & C1).
  pose proof (matches_runs Digit G2 _ _ _ _ _ M eq_refl I) as H2.
  destruct (group_of_two m G) as [E1 E2].
  unfold _extract_parameters, extract_body in X. simpl in X.
  rewrite E1, E2, C1 in X. simpl in X.
  unfold holds_run in H2. simpl in H2.
  destruct (cap2 (caps m)) as [sp|]; simpl in X.
  - destruct H2 as [N D].
    destruct (consumed sp) as [|x g2] eqn:Esp; [contradiction|].
    simpl in X.
    destruct (int_of_str (String x g2)) as [n|[]] eqn:In; simpl in X;
      try discriminate X.
    injection X as <-.
    destruct (int_of_run _ n (conj N D) In) as (_ & Hn & _).
    now constructor.
  - injection X as <-. constructor; [assumption | lia].
Qed.

Lemma scroll_count_shape (c a : string) (m : Match) (p : dict) :
  lower c = c ->
  search scroll_count_pattern c = Some m ->
  _extract_parameters m "direction_count" a = Return (Some p) ->
  parsed_shape "scroll" p.
Proof.
  intros L S X.
  destruct (group_run_text Digit G1 _ _ _ L S eq_refl eq_refl)
    as (t & C1 & R & _).
  apply search_sound in S as (pre & s0 & s' & -> & M & G & _).
  apply lower_fixed_split in L as [_ L].
  destruct (scroll_count_captures _ _ _ M L) as (d & Hd & C2).
  destruct (group_of_two m G) as [E1 E2].
  unfold _extract_parameters, extract_body in X. simpl in X.
  simpl in C1. rewrite E1, E2, C1, C2 in X. simpl in X.
  destruct (int_of_str t) as [n|[]] eqn:In; simpl in X; try discriminate X.
  injection X as <-.
  destruct (int_of_run _ n R In) as (_ & Hn & _).
  now constructor.
Qed.

End Shapes.

(** ** What [parse_command] returns *)

Section ParsedIntents.
Import re re_spec re_facts.

(** The rule behind an intent that [parse_command] returned. *)
Lemma parsed_intent_rule (command : string) (intent : ParsedIntent) :
  parse_command command = Return (Some intent) ->
  strip (lower command) <> EmptyString
  /\ exists r m,
       In r (rules_of _initialize_patterns)
       /\ search (rule_pattern r) (strip (lower command)) = Some m
       /\ _extract_parameters m (rule_pattern_type r) (rule_action_type r)
          = Return (Some (parameters intent))
       /\ action_type intent = rule_action_type r
       /\ confidence intent = (8 # 10)%Q
       /\ raw_command intent = strip (lower command).
Proof.
  unfold parse_command. intros H.
  destruct (strip (lower command)) as [|a c] eqn:E; [discriminate|].
  split; [discriminate|].
  rewrite for_action_types_first_intent in H.
  apply first_intent_found in H as (r & Hin & Hr).
  apply apply_rule_matched in Hr as (m & p & S & X & ->).
  exists r, m. now repeat split.
Qed.

Ltac coordinates_case L S X :=
  let G := fresh "G" in
  pose proof (search_groups_count _ _ _ S) as G; simpl in G;
  destruct (group_of_two _ G) as [? ?];
  destruct (group_run_text Digit G1 _ _ _ L S eq_refl eq_refl)
    as (?t1 & ?C1 & ?R1 & _);
  destruct (group_run_text Digit G2 _ _ _ L S eq_refl eq_refl)
    as (?t2 & ?C2 & ?R2 & _);
  simpl capture in *;
  match goal with
  | E1 : group ?m 1 = _, E2 : group ?m 2 = _,
    C1 : option_map consumed (cap1 (caps ?m)) = Some ?t1,
    C2 : option_map consumed (cap2 (caps ?m)) = Some ?t2,
    R1 : run_text Digit ?t1, R2 : run_text Digit ?t2 |- _ =>
      rewrite C1 in E1; rewrite C2 in E2;
      match type of X with
      | _extract_parameters _ ?ty _ = _ =>
          let T := fresh "T" in
          assert (T : In ty ["coordinates"; "right_coordinates";
                             "double_coordinates"]) by (simpl; tauto);
          destruct (coordinates_extraction _ _ _ t1 t2 _ E1 E2 R1 R2 T X)
            as (?x & ?y & ?Hx & ?Hy & _ & _ & ->)
      end
  end;
  simpl; constructor; auto.

Ltac text_case L S X :=
  let G := fresh "G" in
  pose proof (search_groups_count _ _ _ S) as G; simpl in G;
  pose proof (group_of_one _ G);
  destruct (group_run_text (NoneOf quotes) G1 _ _ _ L S eq_refl eq_refl)
    as (?t1 & ?C1 & ?R1 & ?L1);
  simpl capture in *;
  match goal with
  | E1 : group ?m 1 = _,
    C1 : option_map consumed (cap1 (caps ?m)) = Some ?t1 |- _ =>
      rewrite C1 in E1;
      unfold _extract_parameters, extract_body in X; simpl in X;
      rewrite E1 in X; simpl in X; injection X as <-;
      now apply quoted_text_shape
  end.

Ltac single_key_case L S X :=
  let G := fresh "G" in
  pose proof (search_groups_count _ _ _ S) as G; simpl in G;
  pose proof (group_of_one _ G);
  destruct (group_run_text Word G1 _ _ _ L S eq_refl eq_refl)
    as (?t1 & ?C1 & ?R1 & ?L1);
  simpl capture in *;
  match goal with
  | E1 : group ?m 1 = _,
    C1 : option_map consumed (cap1 (caps ?m)) = Some ?t1 |- _ =>
      rewrite C1 in E1;
      unfold _extract_parameters, extract_body in X; simpl in X;
      rewrite E1 in X; simpl in X; injection X as <-;
      now apply single_key_shape
  end.

Ltac key_combo_case L S X :=
  let G := fresh "G" in
  pose proof (search_groups_count _ _ _ S) as G; simpl in G;
  destruct (group_of_two _ G) as [? ?];
  destruct (group_run_text Word G1 _ _ _ L S eq_refl eq_refl)
    as (?t1 & ?C1 & ?R1 & ?L1);
  destruct (group_run_text Word G2 _ _ _ L S eq_refl eq_refl)
    as (?t2 & ?C2 & ?R2 & ?L2);
  simpl capture in *;
  match goal with
  | E1 : group ?m 1 = _, E2 : group ?m 2 = _,
    C1 : option_map consumed (cap1 (caps ?m)) = Some ?t1,
    C2 : option_map consumed (cap2 (caps ?m)) = Some ?t2 |- _ =>
      rewrite C1 in E1; rewrite C2 in E2;
      unfold _extract_parameters, extract_body in X; simpl in X;
      rewrite E1, E2 in X; simpl in X; injection X as <-;
      now apply key_combo_shape
  end.

Ltac simple_case X :=
  unfold _extract_parameters, extract_body in X; simpl in X;
  injection X as <-; constructor.

(** Every intent that [parse_command] returns has the parameters of its
    action type. *)
Lemma parsed_intent_shape (command : string) (intent : ParsedIntent) :
  parse_command command = Return (Some intent) ->
  parsed_shape (action_type intent) (parameters intent).
Proof.
  intros H.
  apply parsed_intent_rule in H as (_ & r & m & Hin & S & X & -> & _ & _).
  pose proof (normal_form_fixed command) as L.
  revert S X. generalize (parameters intent) as p.
  revert L. generalize (strip (lower command)) as c.
  intros c L p S X.
  cbn [rules_of _initialize_patterns flat_map map app click_patterns
       type_patterns key_patterns scroll_patterns move_patterns
       screenshot_patterns In] in Hin.
  repeat (destruct Hin as [<-|Hin]);
    cbn [rule_pattern rule_pattern_type rule_action_type fst snd] in *;
    [ coordinates_case L S X | coordinates_case L S X | coordinates_case L S X
    | text_case L S X | text_case L S X | text_case L S X | text_case L S X
    | single_key_case L S X | single_key_case L S X
    | key_combo_case L S X | key_combo_case L S X
    | exact (scroll_direction_shape _ _ _ _ L S X)
    | exact (scroll_count_shape _ _ _ _ L S X)
    | coordinates_case L S X | coordinates_case L S X
    | simple_case X | simple_case X | simple_case X
    | destruct Hin ].
Qed.

End ParsedIntents.

(** ** Further properties of the interpreter *)

(** X1.  [parse_command] never lets an exception escape.  The [try] of
    [_extract_parameters] only catches [ValueError] and [IndexError]; the
    [TypeError] of [int(None)] and the [AttributeError] of [None.lower()]
    cannot arise, because every pattern of the table always sets the groups
    that its pattern type reads that way. *)
Theorem parse_command_never_raises (command : string) :
  exists outcome, parse_command command = Return outcome.
Proof. apply parse_command_returns. Qed.

(** X2.  Every intent that [parse_command] returns has one of the six action
    types the dispatcher has a branch for, the confidence 0.8, and as raw
    command the trimmed, lower-case form of the command, which is not
    empty. *)
Theorem parsed_intent_is_known_and_normalised
        (command : string) (intent : ParsedIntent)
        (Hparse : parse_command command = Return (Some intent)) :
  In (action_type intent) known_action_types
  /\ confidence intent = (8 # 10)%Q
  /\ raw_command intent = strip (lower command)
  /\ raw_command intent <> EmptyString.
Proof.
  pose proof (parsed_intent_shape command intent Hparse) as Sh.
  apply parsed_intent_rule in Hparse as (N & r & m & _ & _ & _ & _ & C & R).
  split; [|rewrite R; now repeat split].
  unfold known_action_types. inversion Sh; simpl; tauto.
Qed.

Lemma parsed_intent_is_known_and_normalised_witness :
  In "screenshot" known_action_types
  /\ raw_command
       {| action_type := "screenshot"; parameters := [];
          confidence := 8 # 10; raw_command := "take a screenshot" |}
     = strip (lower "  Take a Screenshot ").
Proof.
  destruct (parsed_intent_is_known_and_normalised
              "  Take a Screenshot "
              {| action_type := "screenshot"; parameters := [];
                 confidence := 8 # 10; raw_command := "take a screenshot" |}
              eq_refl) as (K & _ & R & _).
  split; assumption.
Defined.

(** X3.  The coordinates of every click and move intent that [parse_command]
    returns are integers that are not negative (the patterns capture runs of
    digits only).  A click intent has one of three parameter sets: right
    button; left button with [clicks = 2]; left button.  A move intent has
    the two coordinates and, because its rules share the pattern type of
    the generic click, a [button] entry as well. *)
Theorem parsed_coordinates_are_not_negative
        (command : string) (intent : ParsedIntent)
        (Hparse : parse_command command = Return (Some intent)) :
  (action_type intent = "click" ->
   exists x y,
     (0 <= x)%Z /\ (0 <= y)%Z
     /\ (parameters intent
         = [("x", VInt x); ("y", VInt y); ("button", VStr "right")]
         \/ parameters intent
            = [("x", VInt x); ("y", VInt y); ("button", VStr "left");
               ("clicks", VInt 2)]
         \/ parameters intent
            = [("x", VInt x); ("y", VInt y); ("button", VStr "left")]))
  /\ (action_type intent = "move" ->
      exists x y,
        (0 <= x)%Z /\ (0 <= y)%Z
        /\ parameters intent
           = [("x", VInt x); ("y", VInt y); ("button", VStr "left")]).
Proof.
  pose proof (parsed_intent_shape command intent Hparse) as Sh.
  split; intros A; rewrite A in Sh; inversion Sh; subst.
  - exists x, y. repeat split; try assumption.
    match goal with H : _ \/ _ |- _ => destruct H as [->| ->] end; auto.
  - exists x, y. repeat split; try assumption. auto.
  - exists x, y. now repeat split.
Qed.

Lemma parsed_coordinates_are_not_negative_witness :
  exists x y,
    (0 <= x)%Z /\ (0 <= y)%Z
    /\ [("x", VInt 100); ("y", VInt 200); ("button", VStr "left")]
       = [("x", VInt x); ("y", VInt y); ("button", VStr "left")].
Proof.
  exact (proj2 (parsed_coordinates_are_not_negative
                  "move mouse to 100, 200"
                  {| action_type := "move";
                     parameters := [("x", VInt 100); ("y", VInt 200);
                                    ("button", VStr "left")];
                     confidence := 8 # 10;
                     raw_command := "move mouse to 100, 200" |}
                  eq_refl) eq_refl).
Defined.

(** X4.  The text of every type intent that [parse_command] returns is not
    empty, has no quote character, and is in lower case: the text is cut out
    of the lower-cased command, so the capital letters of what the user
    asked to type are lost. *)
Theorem typed_text_is_lower_case
        (command : string) (intent : ParsedIntent)
        (Hparse : parse_command command = Return (Some intent))
        (Htype : action_type intent = "type") :
  exists text,
    parameters intent = [("text", VStr text)]
    /\ text <> EmptyString
    /\ quote_free text
    /\ lower text = text.
Proof.
  pose proof (parsed_intent_shape command intent Hparse) as Sh.
  rewrite Htype in Sh. inversion Sh; subst.
  exists text. now repeat split.
Qed.

Lemma typed_text_is_lower_case_witness :
  exists text,
    [("text", VStr "hello world")] = [("text", VStr text)]
    /\ text <> EmptyString /\ quote_free text /\ lower text = text.
Proof.
  exact (typed_text_is_lower_case
           "type 'Hello World'"
           {| action_type := "type";
              parameters := [("text", VStr "hello world")];
              confidence := 8 # 10;
              raw_command := "type 'hello world'" |}
           eq_refl eq_refl).
Defined.

(** X5.  Every key intent that [parse_command] returns holds either one key
    or a combination of exactly two keys, and each key is in canonical form:
    the synonym table of its branch maps it to itself.  So a single key is
    never one of the synonyms [return], [spacebar], [escape], [windows] or
    [win], and a key of a combination is never [control], [command], [win]
    or [windows]. *)
Theorem parsed_keys_are_canonical
        (command : string) (intent : ParsedIntent)
        (Hparse : parse_command command = Return (Some intent))
        (Hkey : action_type intent = "key") :
  (exists key,
      parameters intent = [("key", VStr key)]
      /\ key <> EmptyString
      /\ synonym key_mapping key = key
      /\ ~ In key ["return"; "spacebar"; "escape"; "windows"; "win"])
  \/ (exists key1 key2,
         parameters intent = [("keys", VList [key1; key2])]
         /\ key1 <> EmptyString /\ key2 <> EmptyString
         /\ synonym combo_key_mapping key1 = key1
         /\ synonym combo_key_mapping key2 = key2
         /\ ~ In key1 ["control"; "command"; "win"; "windows"]
         /\ ~ In key2 ["control"; "command"; "win"; "windows"]).
Proof.
  pose proof (parsed_intent_shape command intent Hparse) as Sh.
  rewrite Hkey in Sh. inversion Sh; subst.
  - left. exists key. repeat split; try assumption.
    intros Hin. simpl in Hin.
    repeat (destruct Hin as [<-|Hin]; [discriminate|]). exact Hin.
  - right. exists key1, key2. repeat split; try assumption.
    + intros Hin. simpl in Hin.
      repeat (destruct Hin as [<-|Hin]; [discriminate|]). exact Hin.
    + intros Hin. simpl in Hin.
      repeat (destruct Hin as [<-|Hin]; [discriminate|]). exact Hin.
Qed.

Lemma parsed_keys_are_canonical_witness :
  (exists key,
      [("key", VStr "winleft")] = [("key", VStr key)]
      /\ key <> EmptyString
      /\ synonym key_mapping key = key
      /\ ~ In key ["return"; "spacebar"; "escape"; "windows"; "win"])
  \/ (exists key1 key2,
         [("key", VStr "winleft")] = [("keys", VList [key1; key2])]
         /\ key1 <> EmptyString /\ key2 <> EmptyString
         /\ synonym combo_key_mapping key1 = key1
         /\ synonym combo_key_mapping key2 = key2
         /\ ~ In key1 ["control"; "command"; "win"; "windows"]
         /\ ~ In key2 ["control"; "command"; "win"; "windows"]).
Proof.
  exact (parsed_keys_are_canonical
           "hit the Windows key"
           {| action_type := "key";
              parameters := [("key", VStr "winleft")];
              confidence := 8 # 10;
              raw_command := "hit the windows key" |}
           eq_refl eq_refl).
Defined.

(** X6.  For every intent that [parse_command] returns, the dispatcher calls
    the engine at least once (the branch of an unknown action type is never
    taken), and every argument it passes has the type the engine method is
    annotated with: no [None] from a missing parameter reaches the engine. *)
Theorem parsed_intent_dispatch_is_well_typed
        (command : string) (intent : ParsedIntent)
        (W : Type) (engine : Engine W) (self : IntentApparatus W)
        (Hparse : parse_command command = Return (Some intent)) :
  exists ev rest,
    trace (fst (_execute_action engine intent self))
    = (trace self ++ ev :: rest)%list
    /\ engine_call ev = true
    /\ Forall well_typed_event (ev :: rest).
Proof.
  pose proof (parsed_intent_shape command intent Hparse) as Sh.
  unfold _execute_action, except_Exception, execute_body.
  inversion Sh as [x y b Hx Hy Hb A P|x y Hx Hy A P|t N Q L A P|k N C A P
                  |k1 k2 N1 N2 C1 C2 A P|d n Hd Hn A P|x y Hx Hy A P|A P];
    simpl; unfold mbind, call, time_sleep, ret, get, contains; simpl.
  - destruct (click_at_position engine (VInt x) (VInt y) (VStr b) (desktop self))
      as [w [r|e]]; simpl; eexists; eexists; (split; [reflexivity|]);
      (split; [reflexivity|]); repeat constructor.
  - destruct (click_at_position engine (VInt x) (VInt y) (VStr "left")
                                (desktop self)) as [w [r|e]]; simpl.
    + destruct (click_at_position engine (VInt x) (VInt y) (VStr "left") w)
        as [w' [r'|e']]; simpl; rewrite <- !app_assoc; simpl;
        eexists; eexists; (split; [reflexivity|]);
        (split; [reflexivity|]); repeat constructor.
    + eexists; eexists; (split; [reflexivity|]);
        (split; [reflexivity|]); repeat constructor.
  - destruct (type_text engine (VStr t) (desktop self)) as [w [r|e]]; simpl;
      eexists; eexists; (split; [reflexivity|]);
      (split; [reflexivity|]); repeat constructor.
  - destruct (press_key engine (VStr k) (desktop self)) as [w [r|e]]; simpl;
      eexists; eexists; (split; [reflexivity|]);
      (split; [reflexivity|]); repeat constructor.
  - destruct (key_combination engine (VList [k1; k2]) (desktop self))
      as [w [r|e]]; simpl;
      eexists; eexists; (split; [reflexivity|]);
      (split; [reflexivity|]); repeat constructor.
  - destruct (scroll engine (VStr d) (VInt n) (desktop self)) as [w [r|e]];
      simpl; eexists; eexists; (split; [reflexivity|]);
      (split; [reflexivity|]); repeat constructor.
  - destruct (move_mouse engine (VInt x) (VInt y) (desktop self))
      as [w [r|e]]; simpl;
      eexists; eexists; (split; [reflexivity|]);
      (split; [reflexivity|]); repeat constructor.
  - destruct (take_screenshot engine (desktop self)) as [w [[[|a p]|]|e]];
      simpl; eexists; eexists; (split; [reflexivity|]);
      (split; [reflexivity|]); repeat constructor.
Qed.

Lemma parsed_intent_dispatch_is_well_typed_witness :
  exists ev rest,
    trace (fst (_execute_action scripted_engine double_click_intent
                  {| desktop := [failed_click; good_click];
                     execution_history := []; trace := [] |}))
    = ([] ++ ev :: rest)%list
    /\ engine_call ev = true
    /\ Forall well_typed_event (ev :: rest).
Proof.
  exact (parsed_intent_dispatch_is_well_typed
           "double click at 5,5" double_click_intent
           (list ActionResult) scripted_engine
           {| desktop := [failed_click; good_click];
              execution_history := []; trace := [] |}
           eq_refl).
Defined.

(** ** [process_command] after a successful parse *)

Section AfterParse.

Variable W : Type.
Variable engine : Engine W.
Variable abspath : string -> string.

Lemma parsed_command_not_blank (command : string) (intent : ParsedIntent) :
  parse_command command = Return (Some intent) ->
  strip command <> EmptyString.
Proof.
  intros H. apply parsed_intent_rule in H as [N _].
  intros E. apply N. now rewrite strip_lower, E.
Qed.

(** [process_command] on a command that parses, written out on the outcome
    of the dispatch. *)
Lemma process_command_parsed (command : string) (intent : ParsedIntent)
      (self self1 : IntentApparatus W) (r : ActionResult) :
  parse_command command = Return (Some intent) ->
  _execute_action engine intent self = (self1, Return r) ->
  process_command engine abspath command self
  = if success r
       && existsb (String.eqb (action_type intent)) screenshot_actions
    then
      match take_screenshot engine (desktop self1) with
      | (w, Return path) =>
          ({| desktop := w;
              execution_history := execution_history self1 ++ [(command, r)];
              trace := trace self1 ++ [take_screenshot_call] |},
           Return (if success r then StatusSuccess else StatusError,
                   ResultMessage (message r),
                   if path_given path then option_map abspath path else path))
      | (w, Raise e) =>
          ({| desktop := w;
              execution_history := execution_history self1 ++ [(command, r)];
              trace := trace self1 ++ [take_screenshot_call] |},
           Raise (EngineError e))
      end
    else
      ({| desktop := desktop self1;
          execution_history := execution_history self1 ++ [(command, r)];
          trace := trace self1 |},
       Return (if success r then StatusSuccess else StatusError,
               ResultMessage (message r), Some EmptyString)).
Proof.
  intros Hp He. pose proof (parsed_command_not_blank _ _ Hp) as N.
  unfold process_command. rewrite Hp.
  destruct (strip command); [contradiction|].
  unfold mbind, map_error, append_history, call, ret. rewrite He. simpl.
  match goal with
  | |- (if ?c then _ else _) _ = _ => destruct c
  end; [|reflexivity].
  simpl. destruct (take_screenshot engine (desktop self1)) as [w [path|e]];
    [|reflexivity].
  destruct (path_given path); reflexivity.
Qed.



End AfterParse.



(** X9.  A screenshot command that succeeds takes two screenshots: one in
    the dispatcher, whose path goes into the message and into the history,
    and one more after the dispatch, whose path, made absolute, is the one
    [process_command] returns. *)
Theorem screenshot_command_takes_two_screenshots
        (W : Type) (engine : Engine W) (abspath : string -> string)
        (command : string) (intent : ParsedIntent) (self : IntentApparatus W)
        (w1 w2 : W) (path1 : string) (path2 : option string)
        (Hparse : parse_command command = Return (Some intent))
        (Hshot : action_type intent = "screenshot")
        (Hfirst : take_screenshot engine (desktop self)
                  = (w1, Return (Some path1)))
        (Hpath : path1 <> EmptyString)
        (Hsecond : take_screenshot engine w1 = (w2, Return path2)) :
  process_command engine abspath command self
  = ({| desktop := w2;
        execution_history :=
          execution_history self
          ++ [(command,
               {| success := true;
                  message := "Screenshot saved as " ++ path1;
                  result_action_type := "screenshot" |})];
        trace := trace self ++ [take_screenshot_call; take_screenshot_call] |},
     Return (StatusSuccess,
             ResultMessage ("Screenshot saved as " ++ path1),
             if path_given path2 then option_map abspath path2 else path2)).
Proof.
  assert (He : _execute_action engine intent self
               = ({| desktop := w1;
                     execution_history := execution_history self;
                     trace := trace self ++ [take_screenshot_call] |},
                  Return {| success := true;
                            message := "Screenshot saved as " ++ path1;
                            result_action_type := "screenshot" |})).
  { apply execute_action_passes. unfold execute_body. rewrite Hshot. simpl.
    unfold mbind. rewrite (call_returns W _ _ _ self w1 _ Hfirst).
    destruct path1; [contradiction | reflexivity]. }
  rewrite (process_command_parsed W engine abspath _ _ _ _ _ Hparse He).
  rewrite Hshot. simpl. rewrite Hsecond. now rewrite <- app_assoc.
Qed.

Lemma screenshot_command_takes_two_screenshots_witness :
  process_command mock_automation.engine (fun p => "/home/user/" ++ p)
    "take a screenshot"
    {| desktop := sample_clock; execution_history := []; trace := [] |}
  = ({| desktop := {| time_at := time_at sample_clock; readings := 2 |};
        execution_history :=
          [("take a screenshot",
            {| success := true;
               message := "Screenshot saved as mock_screenshot_1700000000.png";
               result_action_type := "screenshot" |})];
        trace := [take_screenshot_call; take_screenshot_call] |},
     Return (StatusSuccess,
             ResultMessage "Screenshot saved as mock_screenshot_1700000000.png",
             Some "/home/user/mock_screenshot_1700000001.png")).
Proof.
  refine (screenshot_command_takes_two_screenshots
            Clock mock_automation.engine (fun p => "/home/user/" ++ p)
            "take a screenshot"
            {| action_type := "screenshot"; parameters := [];
               confidence := 8 # 10; raw_command := "take a screenshot" |}
            {| desktop := sample_clock; execution_history := []; trace := [] |}
            {| time_at := time_at sample_clock; readings := 1 |}
            {| time_at := time_at sample_clock; readings := 2 |}
            "mock_screenshot_1700000000.png"
            (Some "mock_screenshot_1700000001.png")
            eq_refl eq_refl eq_refl _ eq_refl).
  discriminate.
Defined.

(** ** The history display *)

Lemma enumerate_length (A : Type) (l : list A) :
  forall start, List.length (enumerate start l) = List.length l.
Proof. induction l as [|a l IH]; simpl; intros start; [|rewrite IH]; reflexivity. Qed.

Lemma enumerate_nth (A : Type) (l : list A) :
  forall start i,
    nth_error (enumerate start l) i
    = option_map (fun a => (start + i, a)) (nth_error l i).
Proof.
  induction l as [|a l IH]; intros start [|i]; simpl; try reflexivity.
  - now rewrite Nat.add_0_r.
  - rewrite IH. now rewrite Nat.add_succ_r.
Qed.

Lemma last_items_length (A : Type) (n : nat) (l : list A) :
  0 < n -> List.length (last_items n l) = Nat.min n (List.length l).
Proof.
  intros Hn. unfold last_items. destruct n as [|n]; [lia|].
  rewrite length_skipn. lia.
Qed.

Lemma last_items_nth (A : Type) (n : nat) (l : list A) (i : nat) :
  0 < n ->
  nth_error (last_items n l) i
  = nth_error l (List.length l - Nat.min n (List.length l) + i).
Proof.
  intros Hn. unfold last_items. destruct n as [|n]; [lia|].
  rewrite nth_error_skipn. f_equal. lia.
Qed.

(** X10.  [get_execution_history] shows nothing of an empty history (the
    fixed text stands for it), and otherwise one line for each of the last
    ten entries, or for all when there are fewer: the lines are numbered from
    1 in the order of arrival, whatever the place of the entry in the full
    history, and each shows the success, the command and the message of its
    entry. *)
Theorem history_display_numbers_the_last_ten
        (W : Type) (self : IntentApparatus W) :
  (execution_history self = [] ->
   snd (get_execution_history self) = Return None)
  /\ (execution_history self <> [] ->
      exists lines,
        snd (get_execution_history self) = Return (Some lines)
        /\ List.length lines = Nat.min 10 (List.length (execution_history self))
        /\ forall i,
            i < List.length lines ->
            nth_error lines i
            = option_map (line_of (S i))
                (nth_error (execution_history self)
                   (List.length (execution_history self)
                    - List.length lines + i))).
Proof.
  unfold get_execution_history, recent. cbn [snd]. split.
  - now intros ->.
  - intros N.
    set (shown := map (fun '(i, (command, r)) =>
                         (i, success r, command, message r))
                      (enumerate 1 (last_items 10 (execution_history self)))).
    assert (Len : @List.length history_line shown
                  = Nat.min 10 (List.length (execution_history self))).
    { unfold shown. rewrite length_map, enumerate_length.
      apply last_items_length. lia. }
    exists shown. split; [|split; [exact Len|]].
    + destruct (execution_history self); [contradiction | reflexivity].
    + intros i Hi. rewrite Len. unfold shown.
      rewrite nth_error_map, enumerate_nth, last_items_nth by lia.
      destruct (nth_error (execution_history self) _) as [[command r]|];
        reflexivity.
Qed.

Lemma history_display_numbers_the_last_ten_witness :
  exists lines,
    snd (get_execution_history
           {| desktop := tt;
              execution_history :=
                map sample_entry [1; 2; 3; 4; 5; 6; 7; 8; 9; 10; 11; 12]%Z;
              trace := [] |})
    = Return (Some lines)
    /\ List.length lines = 10
    /\ nth_error lines 0 = Some (line_of 1 (sample_entry 3)).
Proof.
  destruct (proj2 (history_display_numbers_the_last_ten
                     unit
                     {| desktop := tt;
                        execution_history :=
                          map sample_entry
                              [1; 2; 3; 4; 5; 6; 7; 8; 9; 10; 11; 12]%Z;
                        trace := [] |})
                  ltac:(discriminate))
    as (lines & Hl & Hn & Hi).
  exists lines. split; [assumption|]. split; [assumption|].
  rewrite (Hi 0) by (rewrite Hn; simpl; lia). now rewrite Hn.
Defined.

(** ** The example commands *)

(** X11.  The example commands are in step with the rule table: they list the
    same action types in the same order, and every example parses into an
    intent of the action type it is listed under. *)
Theorem examples_parse_as_listed
        (action : string) (examples : list string) (command : string)
        (Hlisted : In (action, examples) get_action_examples)
        (Hexample : In command examples) :
  map fst get_action_examples = map fst _initialize_patterns
  /\ exists intent,
       parse_command command = Return (Some intent)
       /\ action_type intent = action.
Proof.
  split; [reflexivity|].
  assert (F : forallb (fun entry => forallb (parses_as (fst entry)) (snd entry))
                      get_action_examples = true) by (vm_compute; reflexivity).
  rewrite forallb_forall in F. specialize (F _ Hlisted). simpl in F.
  rewrite forallb_forall in F. specialize (F _ Hexample).
  unfold parses_as in F.
  destruct (parse_command command) as [[intent|]|e]; try discriminate.
  exists intent. split; [reflexivity|]. now apply String.eqb_eq.
Qed.

Lemma examples_parse_as_listed_witness :
  exists intent,
    parse_command "hit the space key" = Return (Some intent)
    /\ action_type intent = "key".
Proof.
  refine (proj2 (examples_parse_as_listed
                   "key"
                   ["press enter"; "hit the space key"; "press ctrl+c";
                    "alt+tab"]
                   "hit the space key" _ _)).
  - right; right; left; reflexivity.
  - right; left; reflexivity.
Defined.

(** ** The rule that never decides *)

(** X12.  The combination rule for [press] is unreachable: wherever its
    pattern matches, the single-key rule for [press], declared two places
    before it, matches as well and gives an intent.  For every command the
    outcome of [parse_command] is therefore that of the rule table without
    that rule. *)
Theorem press_combination_rule_never_decides (command : string) :
  (re.search press_combo_pattern (strip (lower command)) <> None ->
   exists intent,
     apply_rule (strip (lower command)) ("key", press_key_pattern, "single_key")
     = Return (Some intent))
  /\ parse_command command
     = match strip (lower command) with
       | EmptyString => Return None
       | c => first_intent c rules_without_press_combo
       end.
Proof.
  split.
  - intros H. apply press_key_rule_gives_intent.
    now apply press_key_shadows_press_combo.
  - apply press_combo_rule_is_dead.
Qed.

Lemma press_combination_rule_never_decides_witness :
  exists intent,
    apply_rule "press ctrl+c" ("key", press_key_pattern, "single_key")
    = Return (Some intent).
Proof.
  refine (proj1 (press_combination_rule_never_decides "Press Ctrl+C") _).
  vm_compute. discriminate.
Defined.

(** ** The engines *)

Section Engines.

Lemma within_true (v : pyval) (bound : Z) :
  within v bound = Return true <->
  exists n, v = VInt n /\ (0 <= n <= bound)%Z.
Proof.
  split.
  - destruct v as [|n| |]; simpl; try discriminate.
    intros [= H]. apply andb_prop in H as [H1 H2].
    apply Z.leb_le in H1, H2. eauto.
  - intros (n & -> & H1 & H2). simpl.
    apply Z.leb_le in H1, H2. now rewrite H1, H2.
Qed.

Lemma on_screen_true (width height : Z) (x y : pyval) :
  on_screen width height x y = Return true <->
  exists n m, x = VInt n /\ y = VInt m
              /\ (0 <= n <= width)%Z /\ (0 <= m <= height)%Z.
Proof.
  unfold on_screen. split.
  - destruct (within x width) as [[|]|e] eqn:Hx; simpl; try discriminate.
    intros Hy. apply within_true in Hx as (n & -> & Hn).
    apply within_true in Hy as (m & -> & Hm). now exists n, m.
  - intros (n & m & -> & -> & Hn & Hm).
    rewrite (proj2 (within_true (VInt n) width)) by eauto.
    cbn [bind]. apply (proj2 (within_true (VInt m) height)). eauto.
Qed.

End Engines.

(** X13.  The real engine guards the screen.  For integer coordinates [x]
    and [y], a click or a move makes its [pyautogui] call exactly when
    [0 <= x <= width] and [0 <= y <= height] (the far edges included), and
    succeeds when the call returns; for a point outside, the desktop is
    returned as it was, whatever [pyautogui] would have done, and the
    result is a failure. *)
Theorem real_engine_guards_the_screen
        (W : Type) (width height : Z)
        (pyautogui_click : pyval -> pyval -> pyval -> W -> W * result string unit)
        (pyautogui_moveTo : pyval -> pyval -> W -> W * result string unit)
        (x y : Z) (button : pyval) (w : W) :
  (success (snd (automation_engine.click_at_position
                   width height pyautogui_click (VInt x) (VInt y) button w))
   = true ->
   (0 <= x <= width)%Z /\ (0 <= y <= height)%Z)
  /\ (success (snd (automation_engine.move_mouse
                      width height pyautogui_moveTo (VInt x) (VInt y) w))
      = true ->
      (0 <= x <= width)%Z /\ (0 <= y <= height)%Z)
  /\ (~ ((0 <= x <= width)%Z /\ (0 <= y <= height)%Z) ->
      fst (automation_engine.click_at_position
             width height pyautogui_click (VInt x) (VInt y) button w) = w
      /\ fst (automation_engine.move_mouse
                width height pyautogui_moveTo (VInt x) (VInt y) w) = w
      /\ success (snd (automation_engine.click_at_position
                         width height pyautogui_click (VInt x) (VInt y)
                         button w)) = false
      /\ success (snd (automation_engine.move_mouse
                         width height pyautogui_moveTo (VInt x) (VInt y) w))
         = false)
  /\ ((0 <= x <= width)%Z /\ (0 <= y <= height)%Z ->
      fst (automation_engine.click_at_position
             width height pyautogui_click (VInt x) (VInt y) button w)
      = fst (pyautogui_click (VInt x) (VInt y) button w)
      /\ fst (automation_engine.move_mouse
                width height pyautogui_moveTo (VInt x) (VInt y) w)
         = fst (pyautogui_moveTo (VInt x) (VInt y) w)
      /\ (snd (pyautogui_click (VInt x) (VInt y) button w) = Return tt ->
          success (snd (automation_engine.click_at_position
                          width height pyautogui_click (VInt x) (VInt y)
                          button w)) = true)
      /\ (snd (pyautogui_moveTo (VInt x) (VInt y) w) = Return tt ->
          success (snd (automation_engine.move_mouse
                          width height pyautogui_moveTo (VInt x) (VInt y) w))
          = true)).
Proof.
  unfold automation_engine.click_at_position, automation_engine.move_mouse.
  destruct (on_screen width height (VInt x) (VInt y)) as [[|]|e] eqn:O.
  - apply on_screen_true in O as (n & m & [= <-] & [= <-] & Hx & Hy).
    split; [auto|]. split; [auto|].
    split; [intros N; now contradiction N|]. intros _.
    unfold automation_engine.after_call.
    destruct (pyautogui_click (VInt x) (VInt y) button w) as [w1 [[]|e1]];
      destruct (pyautogui_moveTo (VInt x) (VInt y) w) as [w2 [[]|e2]];
      simpl; repeat split; try reflexivity; discriminate.
  - assert (N : ~ ((0 <= x <= width)%Z /\ (0 <= y <= height)%Z)).
    { intros [Hx Hy].
      rewrite (proj2 (on_screen_true width height (VInt x) (VInt y))) in O
        by (exists x, y; tauto).
      discriminate O. }
    simpl. split; [discriminate|]. split; [discriminate|].
    split; [now repeat split|]. intros I. now contradiction N.
  - unfold on_screen in O. simpl in O.
    destruct ((0 <=? x)%Z && (x <=? width)%Z); discriminate O.
Qed.

Lemma real_engine_guards_the_screen_witness :
  fst (automation_engine.click_at_position
         1920 1080 (fun _ _ _ _ => (false, Raise "moved"))
         (VInt 1921) (VInt 5) (VStr "left") true) = true.
Proof.
  exact (proj1 (proj1 (proj2 (proj2
    (real_engine_guards_the_screen
       bool 1920 1080
       (fun _ _ _ _ => (false, Raise "moved"))
       (fun _ _ _ => (false, Raise "moved"))
       1921%Z 5%Z (VStr "left") true)))
    ltac:(lia))).
Defined.

(** X14.  The mock engine simulates the real one.  On a screen of 1920 by
    1080, and as long as the [pyautogui] calls return, every method of the
    mock gives the result of the real method with the mark of a simulation
    before the message of a success: the same coordinates, directions and
    key lists are accepted and rejected, with the same messages.  (For
    [scroll] the count is an integer, as the parser gives it.) *)
Theorem mock_simulates_real
        (W : Type)
        (pyautogui_click : pyval -> pyval -> pyval -> W -> W * result string unit)
        (pyautogui_typewrite pyautogui_press pyautogui_hotkey pyautogui_scroll
           : pyval -> W -> W * result string unit)
        (pyautogui_moveTo : pyval -> pyval -> W -> W * result string unit)
        (Hclick : forall x y b w, snd (pyautogui_click x y b w) = Return tt)
        (Htypewrite : forall t w, snd (pyautogui_typewrite t w) = Return tt)
        (Hpress : forall k w, snd (pyautogui_press k w) = Return tt)
        (Hhotkey : forall k w, snd (pyautogui_hotkey k w) = Return tt)
        (Hscroll : forall c w, snd (pyautogui_scroll c w) = Return tt)
        (HmoveTo : forall x y w, snd (pyautogui_moveTo x y w) = Return tt)
        (x y button text key keys direction : pyval) (clicks : Z) (w : W) :
  mock_automation.click_at_position x y button
  = simulated (snd (automation_engine.click_at_position
                      1920 1080 pyautogui_click x y button w))
  /\ mock_automation.type_text text
     = simulated (snd (automation_engine.type_text pyautogui_typewrite text w))
  /\ mock_automation.press_key key
     = simulated (snd (automation_engine.press_key pyautogui_press key w))
  /\ mock_automation.key_combination keys
     = simulated (snd (automation_engine.key_combination
                         pyautogui_hotkey keys w))
  /\ mock_automation.scroll direction (VInt clicks)
     = simulated (snd (automation_engine.scroll
                         pyautogui_scroll direction (VInt clicks) w))
  /\ mock_automation.move_mouse x y
     = simulated (snd (automation_engine.move_mouse
                         1920 1080 pyautogui_moveTo x y w)).
Proof.
  unfold mock_automation.click_at_position, mock_automation.type_text,
    mock_automation.press_key, mock_automation.key_combination,
    mock_automation.scroll, mock_automation.move_mouse,
    automation_engine.click_at_position, automation_engine.type_text,
    automation_engine.press_key, automation_engine.key_combination,
    automation_engine.scroll, automation_engine.move_mouse,
    mock_automation.screen_width, mock_automation.screen_height,
    automation_engine.after_call, automation_engine.scrolled.
  repeat split.
  - destruct (on_screen 1920 1080 x y) as [[|]|e]; try reflexivity.
    specialize (Hclick x y button w).
    destruct (pyautogui_click x y button w) as [w' r]; simpl in Hclick.
    now rewrite Hclick.
  - specialize (Htypewrite text w).
    destruct (pyautogui_typewrite text w) as [w' r]; simpl in Htypewrite.
    now rewrite Htypewrite.
  - specialize (Hpress key w).
    destruct (pyautogui_press key w) as [w' r]; simpl in Hpress.
    now rewrite Hpress.
  - specialize (Hhotkey keys w).
    destruct (pyautogui_hotkey keys w) as [w' r]; simpl in Hhotkey.
    rewrite Hhotkey. now destruct (join_keys keys).
  - destruct (lower_method direction) as [d|e]; [|reflexivity].
    destruct (d =? "up") eqn:U; simpl.
    + specialize (Hscroll (VInt clicks) w).
      destruct (pyautogui_scroll (VInt clicks) w) as [w' r]; simpl in Hscroll.
      now rewrite Hscroll.
    + destruct (d =? "down") eqn:D; simpl; [|reflexivity].
      specialize (Hscroll (VInt (- clicks)) w).
      destruct (pyautogui_scroll (VInt (- clicks)) w) as [w' r];
        simpl in Hscroll.
      now rewrite Hscroll.
  - destruct (on_screen 1920 1080 x y) as [[|]|e]; try reflexivity.
    specialize (HmoveTo x y w).
    destruct (pyautogui_moveTo x y w) as [w' r]; simpl in HmoveTo.
    now rewrite HmoveTo.
Qed.

Lemma mock_simulates_real_witness :
  mock_automation.click_at_position (VInt 2000) (VInt 5) (VStr "left")
  = simulated (snd (automation_engine.click_at_position
                      1920 1080 (fun x y b => does_nothing (x, y, b))
                      (VInt 2000) (VInt 5) (VStr "left") tt))
  /\ mock_automation.key_combination (VList ["ctrl"; "c"])
     = simulated (snd (automation_engine.key_combination
                         (fun k => does_nothing k) (VList ["ctrl"; "c"]) tt)).
Proof.
  destruct (mock_simulates_real
              unit (fun x y b => does_nothing (x, y, b))
              (fun t => does_nothing t) (fun k => does_nothing k)
              (fun k => does_nothing k) (fun c => does_nothing c)
              (fun x y => does_nothing (x, y))
              (fun _ _ _ _ => eq_refl) (fun _ _ => eq_refl)
              (fun _ _ => eq_refl) (fun _ _ => eq_refl)
              (fun _ _ => eq_refl) (fun _ _ _ => eq_refl)
              (VInt 2000) (VInt 5) (VStr "left") (VStr "hello")
              (VStr "enter") (VList ["ctrl"; "c"]) (VStr "up") 3 tt)
    as (Hc & _ & _ & Hk & _ & _).
  split; assumption.
Defined.

(** ** The application on top of the engines *)

Lemma mock_click_success (x y : Z) (button : pyval) :
  success (mock_automation.click_at_position (VInt x) (VInt y) button) = true
  <-> ((0 <= x <= 1920)%Z /\ (0 <= y <= 1080)%Z).
Proof.
  unfold mock_automation.click_at_position, mock_automation.screen_width,
    mock_automation.screen_height.
  destruct (on_screen 1920 1080 (VInt x) (VInt y)) as [[|]|e] eqn:O.
  - apply on_screen_true in O as (n & m & [= <-] & [= <-] & Hn & Hm).
    simpl. tauto.
  - simpl. split; [discriminate|]. intros [Hx Hy].
    rewrite (proj2 (on_screen_true 1920 1080 (VInt x) (VInt y))) in O
      by (exists x, y; tauto).
    discriminate.
  - unfold on_screen in O. simpl in O.
    destruct ((0 <=? x)%Z && (x <=? 1920)%Z); discriminate O.
Qed.

(** X16.  With the mock engine, a click command succeeds exactly when the
    point is on the mock screen: since the parser only gives coordinates
    that are not negative, the status of the response is the success label
    if and only if [x <= 1920] and [y <= 1080].  A point on the far edge
    is taken as on the screen. *)
Theorem mock_click_succeeds_on_screen_only
        (abspath : string -> string) (command : string) (intent : ParsedIntent)
        (self self' : IntentApparatus Clock)
        (status : status_label) (text : response_message)
        (path : option string)
        (Hparse : parse_command command = Return (Some intent))
        (Hclick : action_type intent = "click")
        (Hrun : process_command mock_automation.engine abspath command self
                = (self', Return (status, text, path))) :
  exists x y,
    get (parameters intent) "x" VNone = VInt x
    /\ get (parameters intent) "y" VNone = VInt y
    /\ (0 <= x)%Z /\ (0 <= y)%Z
    /\ (status = StatusSuccess <-> (x <= 1920)%Z /\ (y <= 1080)%Z).
Proof.
  pose proof (parsed_intent_shape command intent Hparse) as Sh.
  assert (exists x y button,
             get (parameters intent) "x" VNone = VInt x
             /\ get (parameters intent) "y" VNone = VInt y
             /\ (0 <= x)%Z /\ (0 <= y)%Z
             /\ exists self1,
                 _execute_action mock_automation.engine intent self
                 = (self1,
                    Return (mock_automation.click_at_position
                              (VInt x) (VInt y) button)))
    as (x & y & button & Gx & Gy & Hx & Hy & self1 & He).
  { rewrite Hclick in Sh.
    inversion Sh as [x y b Hx Hy Hb A P|x y Hx Hy A P| | | | | |];
      [exists x, y, (VStr b) | exists x, y, (VStr "left")];
      unfold _execute_action, except_Exception, execute_body; rewrite Hclick, <- P;
      unfold get, contains; simpl; repeat split; try assumption;
      unfold mbind, call, time_sleep; simpl; eauto. }
  exists x, y. do 4 (split; [assumption|]).
  rewrite (process_command_parsed Clock mock_automation.engine abspath
             _ _ _ _ _ Hparse He) in Hrun.
  rewrite Hclick in Hrun. simpl in Hrun.
  destruct (success (mock_automation.click_at_position
                       (VInt x) (VInt y) button)) eqn:S.
  - apply mock_click_success in S. simpl in Hrun.
    injection Hrun as _ <- _ _. split; [intros _; lia | reflexivity].
  - simpl in Hrun. injection Hrun as _ <- _ _.
    split; [discriminate|]. intros [Lx Ly].
    rewrite (proj2 (mock_click_success x y button)) in S by lia.
    discriminate S.
Qed.

Lemma mock_click_succeeds_on_screen_only_witness :
  exists x y,
    get [("x", VInt 1920); ("y", VInt 1080); ("button", VStr "left")] "x" VNone
    = VInt x
    /\ get [("x", VInt 1920); ("y", VInt 1080); ("button", VStr "left")] "y"
           VNone
       = VInt y
    /\ (0 <= x)%Z /\ (0 <= y)%Z
    /\ (StatusSuccess = StatusSuccess <-> (x <= 1920)%Z /\ (y <= 1080)%Z).
Proof.
  exact (mock_click_succeeds_on_screen_only
           (fun p => p) "click at 1920, 1080"
           {| action_type := "click";
              parameters := [("x", VInt 1920); ("y", VInt 1080);
                             ("button", VStr "left")];
              confidence := 8 # 10;
              raw_command := "click at 1920, 1080" |}
           {| desktop := sample_clock; execution_history := []; trace := [] |}
           {| desktop := {| time_at := time_at sample_clock; readings := 1 |};
              execution_history :=
                [("click at 1920, 1080",
                  mock_automation.click_at_position
                    (VInt 1920) (VInt 1080) (VStr "left"))];
              trace := [click_at_position_call (VInt 1920) (VInt 1080)
                                               (VStr "left");
                        take_screenshot_call] |}
           StatusSuccess
           (ResultMessage
              "[SIMULATED] Clicked at position (1920, 1080) with left button")
           (Some "mock_screenshot_1700000000.png")
           eq_refl eq_refl eq_refl).
Defined.

(** ** The text interface of [demo.py] *)

Section Demo.

Variable W : Type.
Variable engine : Engine W.


End Demo.


Section DemoExceptions.

Variable W : Type.
Variable E : Type.
Context `{Raised E}.
Variable engine : EngineOf E W.

(** The dispatcher of the text interface does not touch the history,
    whatever the engine raises. *)
Lemma demo_dispatcher_keeps_history (intent : ParsedIntent) :
  keeps_history (demo._execute_action engine intent).
Proof.
  unfold demo._execute_action.
  apply keeps_except; [|intros; apply keeps_ret].
  unfold demo.execute_body.
  repeat match goal with
         | |- keeps_history (if ?b then _ else _) => destruct b
         | |- keeps_history (mbind _ _) => apply keeps_mbind; [|intros ?]
         | |- keeps_history (call _ _) => apply keeps_call
         | |- keeps_history (time_sleep _) => apply keeps_time_sleep
         | |- keeps_history (ret _) => apply keeps_ret
         end.
Qed.

(** What the dispatcher of the text interface lets through is not an
    [Exception]. *)
Lemma demo_dispatch_lets_through (intent : ParsedIntent)
      (self self' : IntentApparatus W) (e : E) :
  demo._execute_action engine intent self = (self', Raise e) ->
  exception_text e = None.
Proof.
  unfold demo._execute_action, except_Exception, ret.
  destruct (demo.execute_body engine intent self) as [s [r|e']];
    [discriminate|].
  destruct (exception_text e') eqn:T; [discriminate|].
  now intros [= _ <-].
Qed.

End DemoExceptions.

(** X18.  [process_command] of the text interface lets no [Exception]
    through, whatever the engine does.  A blank or unparsed command leaves
    the state as it was and does not get the success status.  A parsed
    command whose dispatch returns is recorded exactly once, with the result
    of the dispatch, and no screenshot is asked for after the dispatch.  A
    dispatch raises only what is not an [Exception] (such as
    [KeyboardInterrupt]); then [process_command] raises it too and nothing
    is recorded. *)
Theorem demo_process_command_lets_no_exception_through
        (W E : Type) `{Raised E} (engine : EngineOf E W)
        (command : string) (self : IntentApparatus W) :
  (strip command = EmptyString \/ parse_command command = Return None ->
   exists status text,
     demo.process_command engine command self = (self, Return (status, text))
     /\ status <> StatusSuccess)
  /\ (forall intent self1 r,
         parse_command command = Return (Some intent) ->
         demo._execute_action engine intent self = (self1, Return r) ->
         demo.process_command engine command self
         = ({| desktop := desktop self1;
               execution_history := execution_history self ++ [(command, r)];
               trace := trace self1 |},
            Return (if success r then StatusSuccess else StatusError,
                    ResultMessage (message r))))
  /\ (forall intent self1 e,
         parse_command command = Return (Some intent) ->
         demo._execute_action engine intent self = (self1, Raise e) ->
         exception_text e = None
         /\ execution_history self1 = execution_history self
         /\ demo.process_command engine command self
            = (self1, Raise (EngineError e)))
  /\ (forall self' err,
         demo.process_command engine command self = (self', Raise err) ->
         exists e,
           err = EngineError e /\ exception_text e = None
           /\ execution_history self' = execution_history self).
Proof.
  assert (Parsed :
            forall intent,
              parse_command command = Return (Some intent) ->
              demo.process_command engine command self
              = match demo._execute_action engine intent self with
                | (self1, Return r) =>
                    ({| desktop := desktop self1;
                        execution_history :=
                          execution_history self1 ++ [(command, r)];
                        trace := trace self1 |},
                     Return (if success r then StatusSuccess else StatusError,
                             ResultMessage (message r)))
                | (self1, Raise e) => (self1, Raise (EngineError e))
                end).
  { intros intent Hp. pose proof (parsed_command_not_blank _ _ Hp) as N.
    unfold demo.process_command. rewrite Hp.
    destruct (strip command); [contradiction|].
    unfold mbind, map_error, append_history, ret.
    now destruct (demo._execute_action engine intent self) as [s1 [r|e]]. }
  split; [|split; [|split]].
  - intros Hun. unfold demo.process_command.
    destruct (strip command) as [|a s] eqn:Es.
    + exists StatusError, PleaseEnterACommand.
      split; [reflexivity | discriminate].
    + destruct Hun as [Hun|Hun]; [discriminate Hun|]. rewrite Hun.
      exists StatusUnableToParse, (CouldNotUnderstand command).
      split; [reflexivity | discriminate].
  - intros intent self1 r Hp He. rewrite (Parsed intent Hp), He.
    pose proof (demo_dispatcher_keeps_history W E engine intent self) as K.
    rewrite He in K. simpl in K. now rewrite K.
  - intros intent self1 e Hp He.
    split; [exact (demo_dispatch_lets_through W E engine _ _ _ _ He)|].
    split.
    + pose proof (demo_dispatcher_keeps_history W E engine intent self) as K.
      now rewrite He in K.
    + now rewrite (Parsed intent Hp), He.
  - intros self' err Hrun.
    destruct (parse_command_returns command) as [[intent|] Hp].
    + rewrite (Parsed intent Hp) in Hrun.
      destruct (demo._execute_action engine intent self) as [s1 [r|e]] eqn:He;
        [discriminate Hrun|].
      injection Hrun as <- <-. exists e. split; [reflexivity|].
      split; [exact (demo_dispatch_lets_through W E engine _ _ _ _ He)|].
      pose proof (demo_dispatcher_keeps_history W E engine intent self) as K.
      now rewrite He in K.
    + unfold demo.process_command in Hrun. rewrite Hp in Hrun.
      destruct (strip command); discriminate Hrun.
Qed.

(** ** Commands that are read back *)

Section PreferredMatch.
Import re re_spec.

Lemma append_nil (s : string) : s ++ "" = s.
Proof. induction s as [|a s IH]; simpl; [reflexivity | now rewrite IH]. Qed.

Lemma all_chars_app (p : ascii -> bool) (s t : string) :
  all_chars p (s ++ t) = all_chars p s && all_chars p t.
Proof.
  induction s as [|a s IH]; simpl; [reflexivity|].
  now rewrite IH, andb_assoc.
Qed.

Lemma all_chars_impl (p q : ascii -> bool) (s : string) :
  (forall a, p a = true -> q a = true) ->
  all_chars p s = true -> all_chars q s = true.
Proof.
  intros I. induction s as [|a s IH]; simpl; [reflexivity|].
  intros H. apply andb_prop in H as [Ha Hs]. now rewrite (I a Ha), IH.
Qed.

Lemma star_greedy (A : Type) (cl : cset) (k : string -> option A) (x : A)
      (t rest : string) :
  all_chars (member cl) t = true -> stops cl rest = true ->
  k rest = Some x -> star cl (t ++ rest) k = Some x.
Proof.
  intros T S K. induction t as [|a t IH]; simpl in *.
  - destruct rest as [|b rest]; simpl; [assumption|].
    simpl in S. apply negb_true_iff in S. now rewrite S.
  - apply andb_prop in T as [E T]. now rewrite E, (IH T).
Qed.

Lemma takes_plus (cl : cset) (t rest : string) (c : captures) :
  t <> EmptyString -> all_chars (member cl) t = true ->
  stops cl rest = true ->
  takes (Plus cl) (t ++ rest) c rest c.
Proof.
  intros N T S A k x K. destruct t as [|a t]; [contradiction|].
  simpl in *. apply andb_prop in T as [E T]. rewrite E.
  now apply star_greedy.
Qed.

Lemma takes_plus_all (cl : cset) (t : string) (c : captures) :
  t <> EmptyString -> all_chars (member cl) t = true ->
  takes (Plus cl) t c EmptyString c.
Proof.
  intros N T. rewrite <- (append_nil t) at 1. now apply takes_plus.
Qed.

Lemma takes_star (cl : cset) (t rest : string) (c : captures) :
  all_chars (member cl) t = true -> stops cl rest = true ->
  takes (Star cl) (t ++ rest) c rest c.
Proof. intros T S A k x K. simpl. now apply star_greedy. Qed.

Lemma takes_lit (p s s' : string) (c : captures) :
  lit p s = Some s' -> takes (Lit p) s c s' c.
Proof. intros L A k x K. simpl. now rewrite L. Qed.

Lemma takes_seq (r1 r2 : regex) (s s1 s2 : string) (c c1 c2 : captures) :
  takes r1 s c s1 c1 -> takes r2 s1 c1 s2 c2 ->
  takes (Seq r1 r2) s c s2 c2.
Proof. intros T1 T2 A k x K. simpl. apply T1. now apply T2. Qed.

Lemma takes_opt (r : regex) (s s' : string) (c c' : captures) :
  takes r s c s' c' -> takes (Opt r) s c s' c'.
Proof. intros T A k x K. simpl. now rewrite (T A k x K). Qed.

Lemma takes_skip (r : regex) (s : string) (c : captures) :
  fails r s -> takes (Opt r) s c s c.
Proof. intros F A k x K. simpl. now rewrite F. Qed.

Lemma takes_alt_l (r1 r2 : regex) (s s' : string) (c c' : captures) :
  takes r1 s c s' c' -> takes (Alt r1 r2) s c s' c'.
Proof. intros T A k x K. simpl. now rewrite (T A k x K). Qed.

Lemma takes_alt_r (r1 r2 : regex) (s s' : string) (c c' : captures) :
  fails r1 s -> takes r2 s c s' c' -> takes (Alt r1 r2) s c s' c'.
Proof. intros F T A k x K. simpl. rewrite F. now apply T. Qed.

Lemma takes_group (g : gid) (r : regex) (s s' : string) (c c' : captures) :
  takes r s c s' c' ->
  takes (Group g r) s c s' (set_capture g (s, s') c').
Proof. intros T A k x K. simpl. now apply T. Qed.

Lemma fails_lit (p s : string) : lit p s = None -> fails (Lit p) s.
Proof. intros L A c k. simpl. now rewrite L. Qed.

Lemma fails_seq (r1 r2 : regex) (s : string) :
  fails r1 s -> fails (Seq r1 r2) s.
Proof. intros F A c k. simpl. apply F. Qed.

(** The match [re.search] returns when the preferred way exists at the very
    start of the subject. *)
Lemma search_takes (r : regex) (s s' : string) (c' : captures) :
  takes r s no_captures s' c' ->
  search r s = Some {| groups_count := ngroups r;
                       whole := (s, s');
                       caps := c' |}.
Proof.
  intros T.
  assert (H : match_here r s
              = Some {| groups_count := ngroups r;
                        whole := (s, s');
                        caps := c' |})
    by (unfold match_here; now apply T).
  destruct s; simpl; now rewrite H.
Qed.

(** *** Text that lacks a character the pattern needs *)

Lemma free_lower (a0 : ascii) (s : string) :
  free a0 s
  = all_chars (fun b => negb (Ascii.eqb b (Char.lower a0))) (lower s).
Proof.
  unfold free. induction s as [|a s IH]; simpl; [reflexivity|].
  now rewrite IH.
Qed.

Lemma free_app (a0 : ascii) (s t : string) :
  free a0 (s ++ t) = free a0 s && free a0 t.
Proof. apply all_chars_app. Qed.

Lemma lit_not_free (a0 : ascii) (p s s' : string) :
  lit p s = Some s' -> free a0 p = false -> free a0 s = false.
Proof.
  intros L F. apply re_facts.lit_prefix in L as (t & -> & E).
  rewrite free_app, (free_lower a0 t), E, <- free_lower, F. reflexivity.
Qed.

Lemma matches_requires (a0 : ascii) (r : regex) (s s' : string)
      (c c' : captures) :
  matches r s c s' c' -> requires a0 r = true -> free a0 s = false.
Proof.
  induction 1 as
    [p s s' c L|cl a s c E|cl a s s' c E R|cl s s' c R
    |r1 r2 s c s1 c1 s2 c2 M1 IH1 _ IH2
    |r1 r2 s c s' c' _ IH|r1 r2 s c s' c' _ IH
    |r s c s' c' _ IH|r s c|g r s c s' c' _ IH];
    simpl; intros Q; try discriminate Q.
  - apply negb_true_iff in Q. exact (lit_not_free a0 _ _ _ L Q).
  - apply orb_prop in Q as [Q|Q]; [now apply IH1|].
    apply re_facts.matches_prefix in M1 as (t & ->).
    now rewrite free_app, (IH2 Q), andb_false_r.
  - apply andb_prop in Q as [Q _]. now apply IH.
  - apply andb_prop in Q as [_ Q]. now apply IH.
  - now apply IH.
Qed.

(** A pattern finds nothing in a text that lacks a character all its
    matches hold. *)
Lemma search_requires (a0 : ascii) (r : regex) (s : string) :
  requires a0 r = true -> free a0 s = true -> search r s = None.
Proof.
  intros Q F. destruct (search r s) as [m|] eqn:E; [|reflexivity].
  apply re_facts.search_sound in E as (pre & s0 & s' & -> & M & _).
  rewrite free_app, (matches_requires a0 _ _ _ _ _ M Q), andb_false_r in F.
  discriminate F.
Qed.

(** *** Digits *)

Lemma digit_lower (a : ascii) :
  Char.isdecimal a = true -> Char.lower a = a.
Proof.
  destruct a as [[] [] [] [] [] [] [] []]; vm_compute;
    intros H; try reflexivity; discriminate H.
Qed.

Lemma digit_not_space (a : ascii) :
  Char.isdecimal a = true -> Char.isspace a = false.
Proof.
  destruct a as [[] [] [] [] [] [] [] []]; vm_compute;
    intros H; try reflexivity; discriminate H.
Qed.

Lemma digits_lower (s : string) :
  all_chars Char.isdecimal s = true -> lower s = s.
Proof.
  induction s as [|a s IH]; simpl; [reflexivity|].
  intros H. apply andb_prop in H as [Ha Hs].
  now rewrite (digit_lower a Ha), IH.
Qed.

Lemma free_digits (a0 : ascii) (s : string) :
  Char.isdecimal (Char.lower a0) = false ->
  all_chars Char.isdecimal s = true -> free a0 s = true.
Proof.
  intros N. unfold free. apply all_chars_impl. intros a D.
  destruct (Ascii.eqb (Char.lower a) (Char.lower a0)) eqn:E; [|reflexivity].
  apply Ascii.eqb_eq in E. rewrite (digit_lower a D) in E.
  rewrite <- E, D in N. discriminate N.
Qed.

Lemma digits_stop_blanks (s : string) :
  digit_run s -> stops Space s = true.
Proof.
  intros [N D]. destruct s as [|a s]; [reflexivity|]. simpl in *.
  apply andb_prop in D as [D _]. now rewrite (digit_not_space a D).
Qed.

Lemma lit_fails_on_digits (c : ascii) (p s rest : string) :
  Char.isdecimal (Char.lower c) = false -> digit_run s ->
  lit (String c p) (s ++ rest) = None.
Proof.
  intros N [E D]. destruct s as [|a s]; [contradiction|]. simpl in *.
  apply andb_prop in D as [D _].
  destruct (Ascii.eqb (Char.lower a) (Char.lower c)) eqn:Q; [|reflexivity].
  apply Ascii.eqb_eq in Q. rewrite (digit_lower a D) in Q.
  rewrite <- Q, D in N. discriminate N.
Qed.

(** *** Trimming *)

Lemma rstrip_run (t : string) :
  t <> EmptyString ->
  all_chars (fun a => negb (Char.isspace a)) t = true -> rstrip t = t.
Proof.
  induction t as [|a t IH]; [contradiction|]. intros _ H. simpl in *.
  apply andb_prop in H as [Ha Ht]. apply negb_true_iff in Ha.
  destruct t as [|b t].
  - simpl. now rewrite Ha.
  - rewrite IH by (discriminate || assumption). reflexivity.
Qed.

Lemma rstrip_before_run (s t : string) :
  t <> EmptyString ->
  all_chars (fun a => negb (Char.isspace a)) t = true ->
  rstrip (s ++ t) = s ++ t.
Proof.
  intros N H. induction s as [|c s IH]; simpl.
  - now apply rstrip_run.
  - rewrite IH. destruct (s ++ t) eqn:E; [|reflexivity].
    destruct s; simpl in E; [contradiction | discriminate E].
Qed.

Lemma rstrip_before_digits (s t : string) :
  digit_run t -> rstrip (s ++ t) = s ++ t.
Proof.
  intros [N D]. apply rstrip_before_run; [assumption|].
  revert D. apply all_chars_impl. intros a D.
  now rewrite (digit_not_space a D).
Qed.

End PreferredMatch.

Section ReadBack.
Import re re_spec.

Lemma digits_stop_blanks_before (s rest : string) :
  digit_run s -> stops Space (s ++ rest) = true.
Proof.
  intros [N D]. destruct s as [|a s]; [contradiction|]. simpl in *.
  apply andb_prop in D as [D _]. now rewrite (digit_not_space a D).
Qed.

(** The tail of the click and move patterns on two numbers with a comma and
    a blank between them: the groups take the whole numbers. *)
Lemma takes_two_numbers (dx dy : string) (c : captures) :
  digit_run dx -> digit_run dy ->
  takes two_numbers (dx ++ ", " ++ dy) c EmptyString
        (set_capture G2 (dy, EmptyString)
           (set_capture G1 (dx ++ ", " ++ dy, ", " ++ dy) c)).
Proof.
  intros Dx Dy. unfold two_numbers.
  eapply takes_seq.
  { apply takes_skip, fails_seq, fails_lit, lit_fails_on_digits;
      [reflexivity | assumption]. }
  eapply takes_seq.
  { apply takes_skip, fails_lit, lit_fails_on_digits;
      [reflexivity | assumption]. }
  eapply takes_seq.
  { apply takes_group, takes_plus; [apply Dx | apply Dx | reflexivity]. }
  eapply takes_seq.
  { apply takes_alt_l. eapply takes_seq.
    { apply (takes_star Space EmptyString (", " ++ dy)); reflexivity. }
    eapply takes_seq.
    { apply (takes_lit "," (", " ++ dy) (" " ++ dy)). reflexivity. }
    apply (takes_star Space " " dy);
      [reflexivity | now apply digits_stop_blanks]. }
  eapply takes_seq.
  { apply takes_group, takes_plus_all; apply Dy. }
  apply takes_skip, fails_lit. reflexivity.
Qed.

Lemma consumed_all (t : string) : consumed (t, EmptyString) = t.
Proof.
  rewrite <- (append_nil t) at 1. apply re_facts.consumed_append.
Qed.

Lemma int_of_digits (t : string) :
  digit_run t -> String.length t <= int_max_str_digits ->
  int_of_str t = Return (decimal_value 0 t).
Proof.
  intros D L. rewrite (int_of_digit_run t D).
  now rewrite (proj2 (Nat.ltb_ge _ _) L).
Qed.

(** What [_extract_parameters] makes of two captured numbers. *)
Lemma coordinates_read (m : Match) (ty a dx dy : string) :
  group m 1 = Return (Some dx) -> group m 2 = Return (Some dy) ->
  digit_run dx -> digit_run dy ->
  String.length dx <= int_max_str_digits ->
  String.length dy <= int_max_str_digits ->
  In ty ["coordinates"; "right_coordinates"; "double_coordinates"] ->
  _extract_parameters m ty a
  = Return (Some ([("x", VInt (decimal_value 0 dx));
                   ("y", VInt (decimal_value 0 dy));
                   ("button", VStr (if ty =? "right_coordinates"
                                    then "right" else "left"))]
                  ++ (if ty =? "double_coordinates"
                      then [("clicks", VInt 2)] else []))%list).
Proof.
  intros G1 G2 Dx Dy Lx Ly Hty.
  unfold _extract_parameters, extract_body.
  destruct Hty as [<-|[<-|[<-|[]]]]; simpl;
    rewrite G1, G2; simpl;
    rewrite (int_of_digits dx Dx Lx); simpl;
    rewrite (int_of_digits dy Dy Ly); reflexivity.
Qed.

(** What [_extract_parameters] makes of a direction and a captured
    number. *)
Lemma direction_read (m : Match) (a d n : string) :
  group m 1 = Return (Some d) -> group m 2 = Return (Some n) ->
  digit_run n -> String.length n <= int_max_str_digits ->
  _extract_parameters m "direction" a
  = Return (Some [("direction", VStr d);
                  ("clicks", VInt (decimal_value 0 n))]).
Proof.
  intros G1 G2 Dn Ln. unfold _extract_parameters, extract_body. simpl.
  rewrite G1, G2. simpl.
  destruct n as [|b n]; [destruct Dn as [N _]; contradiction|].
  simpl. now rewrite (int_of_digits (String b n) Dn Ln).
Qed.

(** Rules that each need a character the command lacks do not match it. *)
Lemma rules_excluded (c : string) (before : list rule) :
  forall ws : list ascii,
    List.length ws = List.length before ->
    forallb (fun '(a0, r') => requires a0 (rule_pattern r'))
            (combine ws before) = true ->
    Forall (fun a0 => free a0 c = true) ws ->
    forall r', In r' before -> search (rule_pattern r') c = None.
Proof.
  induction before as [|r0 before IH]; intros ws Len Req Free r' Hin;
    [destruct Hin|].
  destruct ws as [|a0 ws]; [discriminate Len|].
  simpl in Req. apply andb_prop in Req as [Q Req].
  inversion Free as [|? ? F Free']; subst.
  destruct Hin as [<-|Hin].
  - now apply (search_requires a0).
  - apply (IH ws); [now injection Len | assumption | assumption | assumption].
Qed.

(** A command in normal form that the rules before [r] cannot match, each
    for lack of a character, and that [r] matches with parameters [p], is
    read as the intent of [r] with [p]. *)
Lemma command_read (c : string) (ws : list ascii) (before after : list rule)
      (r : rule) (m : Match) (p : dict) :
  strip (lower c) = c -> c <> EmptyString ->
  rules_of _initialize_patterns = (before ++ r :: after)%list ->
  List.length ws = List.length before ->
  forallb (fun '(a0, r') => requires a0 (rule_pattern r')) (combine ws before)
  = true ->
  Forall (fun a0 => free a0 c = true) ws ->
  search (rule_pattern r) c = Some m ->
  _extract_parameters m (rule_pattern_type r) (rule_action_type r)
  = Return (Some p) ->
  parse_command c = Return (Some (intent_of (rule_action_type r) p c)).
Proof.
  intros Nf Ne Split Len Req Free S X.
  rewrite parse_command_traversal by (rewrite Nf; exact Ne).
  rewrite Nf, Split, first_intent_skip.
  - unfold apply_rule. rewrite S, X. reflexivity.
  - intros r' Hin. apply apply_rule_no_match.
    exact (rules_excluded c before ws Len Req Free r' Hin).
Qed.

Lemma normal_before_digits (s t : string) :
  lower s = s -> no_leading_blank (s ++ t) -> digit_run t ->
  strip (lower (s ++ t)) = s ++ t.
Proof.
  intros L B D. rewrite lower_append, L, (digits_lower t (proj2 D)).
  unfold strip. rewrite (lstrip_fixed _ B). now apply rstrip_before_digits.
Qed.

(** Commands that end in two numbers are in normal form. *)
Lemma normal_two_numbers (pre dx dy : string) :
  lower pre = pre -> no_leading_blank pre -> pre <> EmptyString ->
  digit_run dx -> digit_run dy ->
  strip (lower (pre ++ dx ++ ", " ++ dy)) = pre ++ dx ++ ", " ++ dy.
Proof.
  intros L B N Dx Dy.
  replace (pre ++ dx ++ ", " ++ dy) with ((pre ++ dx ++ ", ") ++ dy)
    by now rewrite !re_facts.append_assoc.
  apply normal_before_digits; [| |assumption].
  - now rewrite !lower_append, L, (digits_lower dx (proj2 Dx)).
  - destruct pre; [contradiction | exact B].
Qed.

Lemma free_two_numbers (a0 : ascii) (pre dx dy : string) :
  free a0 (pre ++ ", ") = true -> Char.isdecimal (Char.lower a0) = false ->
  digit_run dx -> digit_run dy ->
  free a0 (pre ++ dx ++ ", " ++ dy) = true.
Proof.
  intros F N [_ Dx] [_ Dy]. rewrite free_app in F.
  apply andb_prop in F as [F1 F2].
  now rewrite !free_app, F1, F2, !(free_digits a0 _ N) by assumption.
Qed.

Lemma group_1_of (w sp1 sp2 : span) :
  group {| groups_count := 2; whole := w;
           caps := {| cap1 := Some sp1; cap2 := Some sp2 |} |} 1
  = Return (Some (consumed sp1)).
Proof. reflexivity. Qed.

Lemma group_2_of (w sp1 sp2 : span) :
  group {| groups_count := 2; whole := w;
           caps := {| cap1 := Some sp1; cap2 := Some sp2 |} |} 2
  = Return (Some (consumed sp2)).
Proof. reflexivity. Qed.

End ReadBack.

(** The rules of the table, spelled out. *)
Ltac spell_rules :=
  cbn [rules_of _initialize_patterns flat_map map app click_patterns
       type_patterns key_patterns scroll_patterns move_patterns
       screenshot_patterns].

(** A command made of a fixed head and two numbers lacks the characters
    listed. *)
Ltac lacks_all :=
  repeat (constructor;
          [apply free_two_numbers; [reflexivity | reflexivity | assumption
                                    | assumption]|]);
  constructor.

Section ClickCommands.
Import re.

Variables dx dy : string.
Hypothesis Dx : digit_run dx.
Hypothesis Dy : digit_run dy.

Lemma numbers_match_groups (command : string) :
  group (numbers_match dx dy command) 1 = Return (Some dx)
  /\ group (numbers_match dx dy command) 2 = Return (Some dy).
Proof.
  unfold numbers_match. rewrite group_1_of, group_2_of.
  now rewrite re_facts.consumed_append, consumed_all.
Qed.

Lemma click_at_takes (c : captures) :
  takes (Lit "click" ;; Plus Space ;; Opt (Lit "at" ;; Plus Space) ;;
         two_numbers)%re
        ("click at " ++ dx ++ ", " ++ dy) c EmptyString
        (set_capture G2 (dy, EmptyString)
           (set_capture G1 (dx ++ ", " ++ dy, ", " ++ dy) c)).
Proof.
  eapply takes_seq.
  { apply (takes_lit "click" _ (" at " ++ dx ++ ", " ++ dy)). reflexivity. }
  eapply takes_seq.
  { apply (takes_plus Space " " ("at " ++ dx ++ ", " ++ dy));
      [discriminate | reflexivity | reflexivity]. }
  eapply takes_seq.
  { apply takes_opt. eapply takes_seq.
    { apply (takes_lit "at" _ (" " ++ dx ++ ", " ++ dy)). reflexivity. }
    apply (takes_plus Space " " (dx ++ ", " ++ dy));
      [discriminate | reflexivity | now apply digits_stop_blanks_before]. }
  now apply takes_two_numbers.
Qed.

Lemma search_click :
  search click_pattern ("click at " ++ dx ++ ", " ++ dy)
  = Some (numbers_match dx dy ("click at " ++ dx ++ ", " ++ dy)).
Proof.
  apply (search_takes click_pattern). unfold click_pattern.
  eapply takes_seq; [|apply click_at_takes].
  apply takes_skip, fails_seq, fails_lit. reflexivity.
Qed.

Lemma search_right_click :
  search right_click_pattern ("right click at " ++ dx ++ ", " ++ dy)
  = Some (numbers_match dx dy ("right click at " ++ dx ++ ", " ++ dy)).
Proof.
  apply (search_takes right_click_pattern). unfold right_click_pattern.
  eapply takes_seq.
  { apply (takes_lit "right" _ (" click at " ++ dx ++ ", " ++ dy)).
    reflexivity. }
  eapply takes_seq; [|apply click_at_takes].
  apply (takes_plus Space " " ("click at " ++ dx ++ ", " ++ dy));
    [discriminate | reflexivity | reflexivity].
Qed.

Lemma search_double_click :
  search double_click_pattern ("double click at " ++ dx ++ ", " ++ dy)
  = Some (numbers_match dx dy ("double click at " ++ dx ++ ", " ++ dy)).
Proof.
  apply (search_takes double_click_pattern). unfold double_click_pattern.
  eapply takes_seq.
  { apply (takes_lit "double" _ (" click at " ++ dx ++ ", " ++ dy)).
    reflexivity. }
  eapply takes_seq; [|apply click_at_takes].
  apply (takes_plus Space " " ("click at " ++ dx ++ ", " ++ dy));
    [discriminate | reflexivity | reflexivity].
Qed.

Lemma search_move_to :
  search (Lit "move" ;; Plus Space ;; Opt (Lit "mouse" ;; Plus Space) ;;
          Opt (Lit "to" ;; Plus Space) ;; two_numbers)%re
         ("move to " ++ dx ++ ", " ++ dy)
  = Some (numbers_match dx dy ("move to " ++ dx ++ ", " ++ dy)).
Proof.
  apply (search_takes
           (Lit "move" ;; Plus Space ;; Opt (Lit "mouse" ;; Plus Space) ;;
            Opt (Lit "to" ;; Plus Space) ;; two_numbers)%re).
  eapply takes_seq.
  { apply (takes_lit "move" _ (" to " ++ dx ++ ", " ++ dy)). reflexivity. }
  eapply takes_seq.
  { apply (takes_plus Space " " ("to " ++ dx ++ ", " ++ dy));
      [discriminate | reflexivity | reflexivity]. }
  eapply takes_seq.
  { apply takes_skip, fails_seq, fails_lit. reflexivity. }
  eapply takes_seq.
  { apply takes_opt. eapply takes_seq.
    { apply (takes_lit "to" _ (" " ++ dx ++ ", " ++ dy)). reflexivity. }
    apply (takes_plus Space " " (dx ++ ", " ++ dy));
      [discriminate | reflexivity | now apply digits_stop_blanks_before]. }
  now apply takes_two_numbers.
Qed.

Hypothesis Lx : String.length dx <= int_max_str_digits.
Hypothesis Ly : String.length dy <= int_max_str_digits.

Lemma numbers_read (command ty a : string) :
  In ty ["coordinates"; "right_coordinates"; "double_coordinates"] ->
  _extract_parameters (numbers_match dx dy command) ty a
  = Return (Some ([("x", VInt (decimal_value 0 dx));
                   ("y", VInt (decimal_value 0 dy));
                   ("button", VStr (if ty =? "right_coordinates"
                                    then "right" else "left"))]
                  ++ (if ty =? "double_coordinates"
                      then [("clicks", VInt 2)] else []))%list).
Proof.
  destruct (numbers_match_groups command) as [G1' G2'].
  now apply coordinates_read.
Qed.

Lemma click_at_read :
  parse_command ("click at " ++ dx ++ ", " ++ dy)
  = Return (Some (intent_of "click"
                    [("x", VInt (decimal_value 0 dx));
                     ("y", VInt (decimal_value 0 dy));
                     ("button", VStr "left")]
                    ("click at " ++ dx ++ ", " ++ dy))).
Proof.
  eapply (command_read
            ("click at " ++ dx ++ ", " ++ dy) ["r"; "d"]%char
            [("click", right_click_pattern, "right_coordinates");
             ("click", double_click_pattern, "double_coordinates")]
            _ ("click", click_pattern, "coordinates")).
  - now apply normal_two_numbers.
  - discriminate.
  - spell_rules. reflexivity.
  - reflexivity.
  - reflexivity.
  - lacks_all.
  - apply search_click.
  - apply (numbers_read _ "coordinates" "click"). simpl. tauto.
Qed.

Lemma right_click_at_read :
  parse_command ("right click at " ++ dx ++ ", " ++ dy)
  = Return (Some (intent_of "click"
                    [("x", VInt (decimal_value 0 dx));
                     ("y", VInt (decimal_value 0 dy));
                     ("button", VStr "right")]
                    ("right click at " ++ dx ++ ", " ++ dy))).
Proof.
  eapply (command_read
            ("right click at " ++ dx ++ ", " ++ dy) [] []
            _ ("click", right_click_pattern, "right_coordinates")).
  - now apply normal_two_numbers.
  - discriminate.
  - spell_rules. reflexivity.
  - reflexivity.
  - reflexivity.
  - constructor.
  - apply search_right_click.
  - apply (numbers_read _ "right_coordinates" "click"). simpl. tauto.
Qed.

Lemma double_click_at_read :
  parse_command ("double click at " ++ dx ++ ", " ++ dy)
  = Return (Some (intent_of "click"
                    [("x", VInt (decimal_value 0 dx));
                     ("y", VInt (decimal_value 0 dy));
                     ("button", VStr "left");
                     ("clicks", VInt 2)]
                    ("double click at " ++ dx ++ ", " ++ dy))).
Proof.
  eapply (command_read
            ("double click at " ++ dx ++ ", " ++ dy) ["r"]%char
            [("click", right_click_pattern, "right_coordinates")]
            _ ("click", double_click_pattern, "double_coordinates")).
  - now apply normal_two_numbers.
  - discriminate.
  - spell_rules. reflexivity.
  - reflexivity.
  - reflexivity.
  - lacks_all.
  - apply search_double_click.
  - apply (numbers_read _ "double_coordinates" "click"). simpl. tauto.
Qed.

End ClickCommands.

(** X19.  A click command with two numbers is read back as written: for
    all runs of decimal digits [dx] and [dy] of at most 4300 digits each,
    [click at dx, dy] is a left click, [right click at dx, dy] a right click
    and [double click at dx, dy] a left click with two clicks, each at the
    position the two numbers denote. *)
Theorem click_commands_are_read_back
        (dx dy : string)
        (Hx : digit_run dx) (Hy : digit_run dy)
        (Lx : String.length dx <= int_max_str_digits)
        (Ly : String.length dy <= int_max_str_digits) :
  parse_command ("click at " ++ dx ++ ", " ++ dy)
  = Return (Some (intent_of "click"
                    [("x", VInt (decimal_value 0 dx));
                     ("y", VInt (decimal_value 0 dy));
                     ("button", VStr "left")]
                    ("click at " ++ dx ++ ", " ++ dy)))
  /\ parse_command ("right click at " ++ dx ++ ", " ++ dy)
     = Return (Some (intent_of "click"
                       [("x", VInt (decimal_value 0 dx));
                        ("y", VInt (decimal_value 0 dy));
                        ("button", VStr "right")]
                       ("right click at " ++ dx ++ ", " ++ dy)))
  /\ parse_command ("double click at " ++ dx ++ ", " ++ dy)
     = Return (Some (intent_of "click"
                       [("x", VInt (decimal_value 0 dx));
                        ("y", VInt (decimal_value 0 dy));
                        ("button", VStr "left");
                        ("clicks", VInt 2)]
                       ("double click at " ++ dx ++ ", " ++ dy))).
Proof.
  split; [|split].
  - now apply click_at_read.
  - now apply right_click_at_read.
  - now apply double_click_at_read.
Qed.

Lemma click_commands_are_read_back_witness :
  parse_command "click at 100, 200"
  = Return (Some (intent_of "click"
                    [("x", VInt 100); ("y", VInt 200);
                     ("button", VStr "left")]
                    "click at 100, 200"))
  /\ parse_command "right click at 100, 200"
     = Return (Some (intent_of "click"
                       [("x", VInt 100); ("y", VInt 200);
                        ("button", VStr "right")]
                       "right click at 100, 200"))
  /\ parse_command "double click at 100, 200"
     = Return (Some (intent_of "click"
                       [("x", VInt 100); ("y", VInt 200);
                        ("button", VStr "left"); ("clicks", VInt 2)]
                       "double click at 100, 200")).
Proof.
  apply (click_commands_are_read_back "100" "200").
  - split; [discriminate | reflexivity].
  - split; [discriminate | reflexivity].
  - unfold int_max_str_digits. simpl. lia.
  - unfold int_max_str_digits. simpl. lia.
Defined.

(** X20.  A move command with two numbers is read back as written: for all
    runs of decimal digits [dx] and [dy] of at most 4300 digits each,
    [move to dx, dy] is a move to the position the two numbers denote; none
    of the rules for clicks, text, keys and scrolling takes the command
    first. *)
Theorem move_command_is_read_back
        (dx dy : string)
        (Hx : digit_run dx) (Hy : digit_run dy)
        (Lx : String.length dx <= int_max_str_digits)
        (Ly : String.length dy <= int_max_str_digits) :
  parse_command ("move to " ++ dx ++ ", " ++ dy)
  = Return (Some (intent_of "move"
                    [("x", VInt (decimal_value 0 dx));
                     ("y", VInt (decimal_value 0 dy));
                     ("button", VStr "left")]
                    ("move to " ++ dx ++ ", " ++ dy))).
Proof.
  eapply (command_read
            ("move to " ++ dx ++ ", " ++ dy)
            ["r"; "d"; "c"; "y"; "w"; "n"; "i"; "p"; "h"; "p"; "+"; "s";
             "s"]%char
            (firstn 13 (rules_of _initialize_patterns))
            _ (nth 13 (rules_of _initialize_patterns)
                   ("", re.Lit "", ""))).
  - now apply normal_two_numbers.
  - discriminate.
  - spell_rules. reflexivity.
  - reflexivity.
  - reflexivity.
  - lacks_all.
  - now apply search_move_to.
  - apply (numbers_read dx dy Hx Hy Lx Ly _ "coordinates" "move").
    simpl. tauto.
Qed.

Lemma move_command_is_read_back_witness :
  parse_command "move to 640, 480"
  = Return (Some (intent_of "move"
                    [("x", VInt 640); ("y", VInt 480);
                     ("button", VStr "left")]
                    "move to 640, 480")).
Proof.
  apply (move_command_is_read_back "640" "480").
  - split; [discriminate | reflexivity].
  - split; [discriminate | reflexivity].
  - unfold int_max_str_digits. simpl. lia.
  - unfold int_max_str_digits. simpl. lia.
Defined.

Section ScrollCommands.
Import re.

Lemma free_before_digits (a0 : ascii) (pre n : string) :
  free a0 pre = true -> Char.isdecimal (Char.lower a0) = false ->
  digit_run n -> free a0 (pre ++ n) = true.
Proof.
  intros F N [_ D]. now rewrite free_app, F, (free_digits a0 _ N D).
Qed.

Variable n : string.
Hypothesis Dn : digit_run n.

Lemma scroll_takes (d : string) (c : captures) :
  d = "up" \/ d = "down" ->
  takes scroll_direction_pattern ("scroll " ++ d ++ " " ++ n) c EmptyString
        (set_capture G2 (n, EmptyString)
           (set_capture G1 (d ++ " " ++ n, " " ++ n) c)).
Proof.
  intros Hd. unfold scroll_direction_pattern, up_or_down.
  eapply takes_seq.
  { apply (takes_lit "scroll" _ (" " ++ d ++ " " ++ n)). reflexivity. }
  eapply takes_seq.
  { apply (takes_plus Space " " (d ++ " " ++ n));
      [discriminate | reflexivity | now destruct Hd as [->| ->]]. }
  eapply takes_seq.
  { apply takes_group. destruct Hd as [->| ->].
    - apply takes_alt_l. apply (takes_lit "up" _ (" " ++ n)). reflexivity.
    - apply takes_alt_r; [apply fails_lit; reflexivity|].
      apply (takes_lit "down" _ (" " ++ n)). reflexivity. }
  apply takes_opt. eapply takes_seq.
  { apply (takes_plus Space " " n);
      [discriminate | reflexivity | now apply digits_stop_blanks]. }
  apply takes_group, takes_plus_all; apply Dn.
Qed.

Lemma search_scroll (d : string) :
  d = "up" \/ d = "down" ->
  search scroll_direction_pattern ("scroll " ++ d ++ " " ++ n)
  = Some {| groups_count := 2;
            whole := ("scroll " ++ d ++ " " ++ n, EmptyString);
            caps := {| cap1 := Some (d ++ " " ++ n, " " ++ n);
                       cap2 := Some (n, EmptyString) |} |}.
Proof.
  intros Hd.
  exact (search_takes scroll_direction_pattern _ _ _
                      (scroll_takes d no_captures Hd)).
Qed.

End ScrollCommands.

(** X21.  A scroll command with a direction and a number is read back as
    written: for [d] one of [up] and [down] and every run of decimal digits
    [n] of at most 4300 digits, [scroll d n] is a scroll in the direction
    [d] by the number of clicks [n] denotes. *)
Theorem scroll_command_is_read_back
        (d n : string)
        (Hd : d = "up" \/ d = "down")
        (Hn : digit_run n)
        (Ln : String.length n <= int_max_str_digits) :
  parse_command ("scroll " ++ d ++ " " ++ n)
  = Return (Some (intent_of "scroll"
                    [("direction", VStr d);
                     ("clicks", VInt (decimal_value 0 n))]
                    ("scroll " ++ d ++ " " ++ n))).
Proof.
  eapply (command_read
            ("scroll " ++ d ++ " " ++ n)
            ["g"; "b"; "k"; "t"; "t"; "t"; "t"; "e"; "h"; "e"; "+"]%char
            (firstn 11 (rules_of _initialize_patterns))
            _ (nth 11 (rules_of _initialize_patterns)
                   ("", re.Lit "", ""))).
  - destruct Hd as [->| ->].
    + now apply (normal_before_digits "scroll up " n).
    + now apply (normal_before_digits "scroll down " n).
  - discriminate.
  - spell_rules. reflexivity.
  - reflexivity.
  - reflexivity.
  - destruct Hd as [->| ->].
    + repeat (constructor;
              [apply (free_before_digits _ "scroll up " n);
               [reflexivity | reflexivity | assumption]|]);
        constructor.
    + repeat (constructor;
              [apply (free_before_digits _ "scroll down " n);
               [reflexivity | reflexivity | assumption]|]);
        constructor.
  - now apply search_scroll.
  - apply direction_read with (n := n); [| |assumption|assumption].
    + rewrite group_1_of. now rewrite re_facts.consumed_append.
    + rewrite group_2_of. now rewrite consumed_all.
Qed.

Lemma scroll_command_is_read_back_witness :
  parse_command "scroll down 12"
  = Return (Some (intent_of "scroll"
                    [("direction", VStr "down"); ("clicks", VInt 12)]
                    "scroll down 12")).
Proof.
  apply (scroll_command_is_read_back "down" "12").
  - right. reflexivity.
  - split; [discriminate | reflexivity].
  - unfold int_max_str_digits. simpl. lia.
Defined.

Section TypeCommands.
Import re.

Lemma takes_one (cl : cset) (a : ascii) (s : string) (c : captures) :
  member cl a = true -> takes (One cl) (String a s) c s c.
Proof. intros E A k x K. simpl. now rewrite E. Qed.

Lemma lower_no_quote (a : ascii) :
  member (NoneOf quotes) (Char.lower a) = member (NoneOf quotes) a.
Proof. destruct a as [[] [] [] [] [] [] [] []]; reflexivity. Qed.

Lemma lower_no_quotes (t : string) :
  all_chars (member (NoneOf quotes)) (lower t)
  = all_chars (member (NoneOf quotes)) t.
Proof.
  induction t as [|a t IH]; [reflexivity|].
  cbn [lower all_chars]. now rewrite IH, lower_no_quote.
Qed.

Lemma free_of_lower (a0 : ascii) (t : string) :
  free a0 (lower t) = free a0 t.
Proof. now rewrite !free_lower, lower_idem. Qed.

Lemma group_1_of_one (w sp1 : span) :
  group {| groups_count := 1; whole := w;
           caps := {| cap1 := Some sp1; cap2 := None |} |} 1
  = Return (Some (consumed sp1)).
Proof. reflexivity. Qed.

(** What [_extract_parameters] makes of a captured text. *)
Lemma text_read (m : Match) (a t : string) :
  group m 1 = Return (Some t) ->
  _extract_parameters m "text" a = Return (Some [("text", VStr t)]).
Proof.
  intros G. unfold _extract_parameters, extract_body. simpl.
  now rewrite G.
Qed.

Variable t : string.
Variables q1 q2 : ascii.
Hypothesis Q1 : q1 = dquote \/ q1 = squote.
Hypothesis Q2 : q2 = dquote \/ q2 = squote.
Hypothesis Nt : t <> EmptyString.
Hypothesis Pt : all_chars (member (NoneOf quotes)) t = true.

Lemma lower_typed :
  lower ("type " ++ String q1 (t ++ String q2 EmptyString))
  = "type " ++ String q1 (lower t ++ String q2 EmptyString).
Proof.
  simpl. rewrite lower_append. simpl.
  now destruct Q1 as [->| ->], Q2 as [->| ->].
Qed.

Lemma normal_typed :
  strip (lower ("type " ++ String q1 (t ++ String q2 EmptyString)))
  = "type " ++ String q1 (lower t ++ String q2 EmptyString).
Proof.
  rewrite lower_typed. unfold strip.
  rewrite lstrip_fixed by reflexivity.
  change ("type " ++ String q1 (lower t ++ String q2 EmptyString))
    with (("type " ++ String q1 EmptyString)
            ++ lower t ++ String q2 EmptyString).
  rewrite <- re_facts.append_assoc.
  apply rstrip_before_run; [discriminate|].
  now destruct Q2 as [->| ->].
Qed.

Lemma normal_lowered :
  strip (lower ("type " ++ String q1 (lower t ++ String q2 EmptyString)))
  = "type " ++ String q1 (lower t ++ String q2 EmptyString).
Proof. rewrite <- normal_typed. apply normal_form_idem. Qed.

Lemma typed_takes (c : captures) :
  takes (Lit "type" ;; Plus Space ;; quoted)%re
        ("type " ++ String q1 (lower t ++ String q2 EmptyString)) c
        EmptyString
        (set_capture G1 (lower t ++ String q2 EmptyString,
                         String q2 EmptyString) c).
Proof.
  unfold quoted.
  eapply takes_seq.
  { apply (takes_lit "type" _
                     (" " ++ String q1 (lower t ++ String q2 EmptyString))).
    reflexivity. }
  eapply takes_seq.
  { apply (takes_plus Space " "
                      (String q1 (lower t ++ String q2 EmptyString)));
      [discriminate | reflexivity | now destruct Q1 as [->| ->]]. }
  eapply takes_seq.
  { apply takes_one. now destruct Q1 as [->| ->]. }
  eapply takes_seq.
  { apply takes_group, takes_plus.
    - destruct t; [contradiction | discriminate].
    - now rewrite lower_no_quotes.
    - now destruct Q2 as [->| ->]. }
  apply takes_one. now destruct Q2 as [->| ->].
Qed.

Lemma search_typed :
  search (Lit "type" ;; Plus Space ;; quoted)%re
         ("type " ++ String q1 (lower t ++ String q2 EmptyString))
  = Some {| groups_count := 1;
            whole := ("type " ++ String q1 (lower t ++ String q2 EmptyString),
                      EmptyString);
            caps := {| cap1 := Some (lower t ++ String q2 EmptyString,
                                     String q2 EmptyString);
                       cap2 := None |} |}.
Proof.
  exact (search_takes (Lit "type" ;; Plus Space ;; quoted)%re _ _ _
                      (typed_takes no_captures)).
Qed.

Variable a0 : ascii.
Hypothesis Ha0 : In a0 ["c"; "l"; "i"; "k"]%char.
Hypothesis Ft : free a0 t = true.

Lemma typed_lacks :
  free a0 ("type " ++ String q1 (lower t ++ String q2 EmptyString)) = true.
Proof.
  change ("type " ++ String q1 (lower t ++ String q2 EmptyString))
    with (("type " ++ String q1 EmptyString)
            ++ lower t ++ String q2 EmptyString).
  rewrite !free_app, free_of_lower, Ft.
  destruct Q1 as [->| ->], Q2 as [->| ->];
    destruct Ha0 as [<-|[<-|[<-|[<-|[]]]]]; reflexivity.
Qed.

End TypeCommands.

(** X22.  A type command in ASCII is read back in lower case: for every
    text [t] of ASCII characters that is not empty, has no quote character
    and lacks one of the letters of the word click, and quote characters
    [q1] and [q2], [type q1 t q2] is a type intent whose text is [t] in
    lower case.  The letter case of what the user asked to type is lost; a
    text with all the letters of click may be taken by the click rules,
    which come first.  (Outside ASCII there are letters that
    [re.IGNORECASE] takes for i, k or s and [str.lower] leaves alone; the
    statement does not speak of them.) *)
Theorem type_command_is_read_back_in_lower_case
        (t : string) (q1 q2 a0 : ascii)
        (Hq1 : q1 = dquote \/ q1 = squote)
        (Hq2 : q2 = dquote \/ q2 = squote)
        (Ht : t <> EmptyString)
        (Hascii : all_chars isascii t = true)
        (Hquote : all_chars (re.member (re.NoneOf quotes)) t = true)
        (Ha0 : In a0 ["c"; "l"; "i"; "k"]%char)
        (Hfree : free a0 t = true) :
  parse_command ("type " ++ String q1 (t ++ String q2 EmptyString))
  = Return (Some (intent_of "type" [("text", VStr (lower t))]
                    ("type "
                       ++ String q1 (lower t ++ String q2 EmptyString)))).
Proof.
  rewrite (parse_command_ext
             _ ("type " ++ String q1 (lower t ++ String q2 EmptyString)))
    by now rewrite normal_lowered, normal_typed.
  eapply (command_read
            ("type " ++ String q1 (lower t ++ String q2 EmptyString))
            [a0; a0; a0]
            (firstn 3 (rules_of _initialize_patterns))
            _ (nth 3 (rules_of _initialize_patterns) ("", re.Lit "", ""))).
  - now apply normal_lowered.
  - discriminate.
  - spell_rules. reflexivity.
  - reflexivity.
  - destruct Ha0 as [<-|[<-|[<-|[<-|[]]]]]; reflexivity.
  - repeat (constructor; [now apply typed_lacks|]). constructor.
  - now apply search_typed.
  - apply text_read. rewrite group_1_of_one.
    now rewrite re_facts.consumed_append.
Qed.

Lemma type_command_is_read_back_in_lower_case_witness :
  parse_command ("type " ++ String dquote ("Hello World"
                                             ++ String dquote EmptyString))
  = Return (Some (intent_of "type" [("text", VStr "hello world")]
                    ("type " ++ String dquote
                       ("hello world" ++ String dquote EmptyString)))).
Proof.
  apply (type_command_is_read_back_in_lower_case
           "Hello World" dquote dquote "c"%char).
  - left. reflexivity.
  - left. reflexivity.
  - discriminate.
  - reflexivity.
  - reflexivity.
  - simpl. tauto.
  - reflexivity.
Defined.
